(** * BufferManagerDB: a shallow embedding of the SwatDB buffer manager

    The development follows the C++ sources:
    - [bm_frame.cpp]        the per-slot metadata record [Frame];
    - [bm_buffermap.cpp]    the [BufferMap] wrapper around an unordered map;
    - [bm_replacement.cpp]  the base class of the replacement policies;
    - [bm_policies.cpp]     the CLOCK and RANDOM policies;
    - [bufmgr.cpp]          the [BufferManager] itself.

    C++ exceptions are modelled by a state-and-error monad whose state
    survives a throw: whatever a method mutated before it threw stays
    mutated, exactly as for the C++ object. *)

From Stdlib Require Import ZArith List Bool Lia.
From stdpp Require Import base option list gmap.

Local Open Scope Z_scope.

(** ** Value types (swatdb_types.h) *)

(** [FileId] and the page number are [std::uint32_t]; no arithmetic is done
    on them by the buffer manager. *)
Definition FileId := N.
Definition PageNum := N.

Record PageId := mkPageId { file_id : FileId; page_num : PageNum }.

#[global] Instance PageId_eq_dec : EqDecision PageId.
Proof. solve_decision. Defined.

#[global] Instance PageId_countable : Countable PageId.
Proof.
  refine (inj_countable' (fun p => (file_id p, page_num p))
                         (fun t => mkPageId t.1 t.2) _).
  intros []; reflexivity.
Defined.

(** A [FrameId] indexes [frame_table] and [buf_pool]. *)
Abbreviation FrameId := nat.

(** The bytes of one page. *)
Definition Page := list Byte.byte.

#[global] Instance byte_eq_dec : EqDecision Byte.byte := Byte.byte_eq_dec.

Inductive RepType := ClockT | RandomT | OtherRepT.

(** ** Exceptions (swatdb_exceptions.h)

    The exceptions of the disk layer are kept apart from those the buffer
    manager raises itself: the disk manager only throws the former. *)
Inductive DiskExn :=
| InvalidFileIdDiskMgr
| InvalidPageNumDiskMgr
| InsufficientSpaceDiskMgr
| OtherDiskMgr.

Inductive Exn :=
| PageNotFoundBufMgr (p : PageId)
| PageAlreadyLoadedBufMgr (p : PageId)
| PageNotPinnedBufMgr (p : PageId)
| PagePinnedBufMgr (p : PageId)
| InvalidPageIdBufMgr (p : PageId)
| InsufficientSpaceBufMgr
| InvalidPolicyBufMgr
| DiskMgrExn (e : DiskExn).

#[global] Instance DiskExn_eq_dec : EqDecision DiskExn.
Proof. solve_decision. Defined.

#[global] Instance Exn_eq_dec : EqDecision Exn.
Proof. solve_decision. Defined.

(** ** Frame (bm_frame.h, bm_frame.cpp) *)

(** [pin_count] is a C++ [int].  It is modelled by an unbounded [Z]: signed
    overflow is undefined in C++, so the model speaks about the runs in
    which the count stays below [INT_MAX]. *)
Record Frame := mkFrame {
  page_id : PageId;
  pin_count : Z;
  valid : bool;
  dirty : bool
}.

Definition INT_MAX : Z := 2147483647.

Definition set_page_id (p : PageId) (f : Frame) : Frame :=
  mkFrame p (pin_count f) (valid f) (dirty f).
Definition set_pin_count (n : Z) (f : Frame) : Frame :=
  mkFrame (page_id f) n (valid f) (dirty f).
Definition set_valid (b : bool) (f : Frame) : Frame :=
  mkFrame (page_id f) (pin_count f) b (dirty f).
Definition set_dirty (b : bool) (f : Frame) : Frame :=
  mkFrame (page_id f) (pin_count f) (valid f) b.

(** ** Build parameters (swatdb_types.h)

    [BUF_SIZE] (the number of frames) and the sentinel [INVALID_PAGE_ID]
    are compile-time constants of the code base. *)
Class Params := { BUF_SIZE : nat; INVALID_PAGE_ID : PageId }.

(** [Frame::resetFrame] *)
Definition resetFrame `{Params} (f : Frame) : Frame :=
  set_dirty false
    (set_valid false (set_pin_count 0 (set_page_id INVALID_PAGE_ID f))).

(** [Frame::loadFrame] *)
Definition loadFrame `{Params} (new_pid : PageId) (f : Frame) : Frame :=
  set_valid true (set_pin_count 1 (set_page_id new_pid (resetFrame f))).

(** [Frame::Frame] *)
Definition Frame_new `{Params} : Frame :=
  resetFrame (mkFrame INVALID_PAGE_ID 0 false false).

#[global] Instance Frame_inhabited : Inhabited Frame :=
  populate (mkFrame (mkPageId 0%N 0%N) 0 false false).

(** ** Results of a call

    [Ok] is a normal return, [Throw] a C++ exception.  [OutOfFuel] is not a
    behaviour of the program: it says that a loop of the replacement policy
    was still running when the iteration budget of the model was used up. *)
Inductive Res (A : Type) :=
| Ok (a : A)
| Throw (e : Exn)
| OutOfFuel.
Arguments Ok {A} a.
Arguments Throw {A} e.
Arguments OutOfFuel {A}.

(** ** The disk manager (diskmgr.h), an external collaborator

    Only its interface is consumed.  Every call returns a value or throws,
    and may change the state of the disk either way. *)
Class DiskManager (D : Type) := {
  disk_allocatePage : FileId -> D -> (DiskExn + PageId) * D;
  disk_deallocatePage : PageId -> D -> (DiskExn + unit) * D;
  disk_readPage : PageId -> D -> (DiskExn + Page) * D;
  disk_writePage : PageId -> Page -> D -> (DiskExn + unit) * D;
  disk_createFile : FileId -> D -> (DiskExn + unit) * D;
  disk_removeFile : FileId -> D -> (DiskExn + unit) * D
}.

(** The calls made to the disk manager, oldest first.  This is a ghost
    component of the model, used to say which disk calls a method made. *)
Inductive DiskCall :=
| CallAllocatePage (f : FileId)
| CallDeallocatePage (p : PageId)
| CallReadPage (p : PageId)
| CallWritePage (p : PageId) (data : Page)
| CallCreateFile (f : FileId)
| CallRemoveFile (f : FileId).

#[global] Instance DiskCall_eq_dec : EqDecision DiskCall.
Proof. solve_decision. Defined.

(** ** The process-global pseudo-random source, [std::rand]

    [rand_seq i] is the value of the [i]-th call, [rand_pos] counts the calls
    made so far. *)
Record RandSrc := mkRand { rand_seq : nat -> nat; rand_pos : nat }.

Definition std_rand (r : RandSrc) : nat * RandSrc :=
  (rand_seq r (rand_pos r), mkRand (rand_seq r) (S (rand_pos r))).

(** ** Replacement policies (bm_replacement.h, bm_policies.h)

    The members of the base class [ReplacementPolicy].  [rep_calls] and
    [new_page_calls] are [std::uint64_t] and wrap around modulo [2^64].
    The running mean [avg_frames_checked], a [double] that no branch of the
    code reads, is left out.  The pointer to the frame table of the manager
    becomes an argument of the methods that read frames. *)
Record PolicyBase := mkBase {
  free : list FrameId;          (* std::queue: front is the head *)
  rep_calls : Z;
  new_page_calls : Z
}.

Definition UINT32_MOD : Z := 2 ^ 32.
Definition UINT64_MOD : Z := 2 ^ 64.

Record ClockState := mkClock {
  c_base : PolicyBase;
  clock_hand : nat;
  ref_table : list bool
}.

Record RandomState := mkRandom {
  r_base : PolicyBase;
  times_chosen : list Z
}.

Inductive ReplacementPolicy :=
| ClockPol (c : ClockState)
| RandomPol (r : RandomState).

Definition pol_base (pol : ReplacementPolicy) : PolicyBase :=
  match pol with
  | ClockPol c => c_base c
  | RandomPol r => r_base r
  end.

Definition set_free (l : list FrameId) (b : PolicyBase) : PolicyBase :=
  mkBase l (rep_calls b) (new_page_calls b).
Definition set_rep_calls (n : Z) (b : PolicyBase) : PolicyBase :=
  mkBase (free b) n (new_page_calls b).
Definition set_new_page_calls (n : Z) (b : PolicyBase) : PolicyBase :=
  mkBase (free b) (rep_calls b) n.

Definition pol_map_base (g : PolicyBase -> PolicyBase)
    (pol : ReplacementPolicy) : ReplacementPolicy :=
  match pol with
  | ClockPol c => ClockPol (mkClock (g (c_base c)) (clock_hand c) (ref_table c))
  | RandomPol r => RandomPol (mkRandom (g (r_base r)) (times_chosen r))
  end.

Section Policies.
Context `{Params}.

(** [ReplacementPolicy::_createFree]: the invalid frames, in index order. *)
Definition createFree (frame_table : list Frame) : list FrameId :=
  filter (fun i => valid (frame_table !!! i) = false) (seq 0 BUF_SIZE).

(** [ReplacementPolicy::incrementGetAllocCount] *)
Definition incrementGetAllocCount (pol : ReplacementPolicy) : ReplacementPolicy :=
  pol_map_base
    (fun b => set_new_page_calls ((new_page_calls b + 1) mod UINT64_MOD) b) pol.

(** [Clock::Clock].  The constructor does not assign [new_page_calls]; the
    member starts with an indeterminate value, here [junk]. *)
Definition Clock_new (junk : Z) (frame_table : list Frame) : ClockState :=
  mkClock (mkBase (createFree frame_table) 0 junk) 0 (replicate BUF_SIZE false).

(** [Random::Random] *)
Definition Random_new (frame_table : list Frame) : RandomState :=
  mkRandom (mkBase (createFree frame_table) 0 0) (replicate BUF_SIZE 0).

(** [Clock::_advanceClock]: [(clock_hand + 1) % BUF_SIZE]. *)
Definition advanceClock (c : ClockState) : ClockState :=
  mkClock (c_base c) ((clock_hand c + 1) mod BUF_SIZE)%nat (ref_table c).

Definition set_ref (i : nat) (b : bool) (c : ClockState) : ClockState :=
  mkClock (c_base c) (clock_hand c) (<[i := b]> (ref_table c)).

(** The [while(true)] loop of [Clock::replace], one iteration per unit of
    [fuel].  [frames_checked] is a [std::uint32_t]. *)
Fixpoint Clock_replace_loop (fuel : nat) (frame_table : list Frame)
    (c : ClockState) (frames_checked : Z) : Res FrameId * ClockState :=
  match fuel with
  | O => (OutOfFuel, c)
  | S fuel' =>
    let frame := frame_table !!! clock_hand c in
    if 0 <? pin_count frame then
      (* pinned: advance, count, [continue] *)
      Clock_replace_loop fuel' frame_table (advanceClock c)
        ((frames_checked + 1) mod UINT32_MOD)
    else if valid frame then
      if (ref_table c !!! clock_hand c : bool) then
        let c' := advanceClock (set_ref (clock_hand c) false c) in
        if Z.of_nat BUF_SIZE <=? frames_checked
        then (Throw InsufficientSpaceBufMgr, c')
        else Clock_replace_loop fuel' frame_table c' frames_checked
      else
        let c' := mkClock
          (set_rep_calls ((rep_calls (c_base c) + 1) mod UINT64_MOD) (c_base c))
          (clock_hand c) (ref_table c) in
        (Ok (clock_hand c), advanceClock c')
    else
      if Z.of_nat BUF_SIZE <=? frames_checked
      then (Throw InsufficientSpaceBufMgr, c)
      else Clock_replace_loop fuel' frame_table c frames_checked
  end.

(** [Clock::replace] *)
Definition Clock_replace (fuel : nat) (frame_table : list Frame)
    (c : ClockState) : Res FrameId * ClockState :=
  match free (c_base c) with
  | frontID :: rest =>
    (Ok frontID, mkClock (set_free rest (c_base c)) (clock_hand c) (ref_table c))
  | [] => Clock_replace_loop fuel frame_table c 0
  end.

(** [Clock::pin], [Clock::unpin], [Clock::freeFrame] *)
Definition Clock_pin (frame_id : FrameId) (c : ClockState) : ClockState := c.

Definition Clock_unpin (frame_id : FrameId) (c : ClockState) : ClockState :=
  set_ref frame_id true c.

Definition Clock_freeFrame (frame_id : FrameId) (c : ClockState) : ClockState :=
  set_ref frame_id false
    (mkClock (set_free (free (c_base c) ++ [frame_id]) (c_base c))
             (clock_hand c) (ref_table c)).

(** The random-draw loop of [Random::replace]:
    [while(cur_frame->pin_count != 0 && c < BUF_SIZE/2)]. *)
Fixpoint Random_draw_loop (fuel : nat) (frame_table : list Frame)
    (rnd : RandSrc) (rand_num : nat) (c : nat) : option (nat * nat * RandSrc) :=
  if negb (pin_count (frame_table !!! rand_num) =? 0)
     && (c <? BUF_SIZE / 2)%nat
  then
    match fuel with
    | O => None
    | S fuel' =>
      let (r, rnd') := std_rand rnd in
      Random_draw_loop fuel' frame_table rnd' (r mod BUF_SIZE)%nat (S c)
    end
  else Some (rand_num, c, rnd).

(** The statistics update shared by both exits of [Random::replace]:
    [rep_calls] is reset before the increment when the increment would wrap,
    and [times_chosen[i]++].  [times_chosen] is an array of [int], modelled
    like [pin_count] by unbounded integers: a statement about its values
    carries the bound INT_MAX.  The running average [avg_frames_checked] is
    a [double] and is left out. *)
Definition Random_select (i : FrameId) (r : RandomState) : RandomState :=
  let calls := rep_calls (r_base r) in
  let calls := if (calls + 1) mod UINT64_MOD =? 0 then 0 else calls in
  mkRandom (set_rep_calls ((calls + 1) mod UINT64_MOD) (r_base r))
           (<[i := times_chosen r !!! i + 1]> (times_chosen r)).

(** The sequential scan, [for(FrameId i = 0; i < BUF_SIZE; i++)]. *)
Fixpoint Random_scan (frame_table : list Frame) (idxs : list FrameId)
    (r : RandomState) : Res FrameId * RandomState :=
  match idxs with
  | [] => (Throw InsufficientSpaceBufMgr, r)
  | i :: rest =>
    if pin_count (frame_table !!! i) =? 0
    then (Ok i, Random_select i r)
    else Random_scan frame_table rest r
  end.

(** [Random::replace] *)
Definition Random_replace (fuel : nat) (frame_table : list Frame)
    (rnd : RandSrc) (r : RandomState) : Res FrameId * RandomState * RandSrc :=
  match free (r_base r) with
  | frame_id :: rest =>
    (Ok frame_id, mkRandom (set_free rest (r_base r)) (times_chosen r), rnd)
  | [] =>
    let (r0, rnd0) := std_rand rnd in
    match Random_draw_loop fuel frame_table rnd0 (r0 mod BUF_SIZE)%nat 0 with
    | None => (OutOfFuel, r, rnd0)
    | Some (rand_num, c, rnd') =>
      if (c =? BUF_SIZE)%nat
      then
        let (res, r') := Random_scan frame_table (seq 0 BUF_SIZE) r in
        (res, r', rnd')
      else (Ok rand_num, Random_select rand_num r, rnd')
    end
  end.

(** [Random::pin] and [Random::unpin] do nothing; [Random] inherits
    [ReplacementPolicy::freeFrame]. *)
Definition Random_pin (frame_id : FrameId) (r : RandomState) : RandomState := r.
Definition Random_unpin (frame_id : FrameId) (r : RandomState) : RandomState := r.
Definition Random_freeFrame (frame_id : FrameId) (r : RandomState) : RandomState :=
  mkRandom (set_free (free (r_base r) ++ [frame_id]) (r_base r)) (times_chosen r).

(** Virtual dispatch on the dynamic type of the policy. *)
Definition replace (fuel : nat) (frame_table : list Frame) (rnd : RandSrc)
    (pol : ReplacementPolicy) : Res FrameId * ReplacementPolicy * RandSrc :=
  match pol with
  | ClockPol c =>
    let (res, c') := Clock_replace fuel frame_table c in (res, ClockPol c', rnd)
  | RandomPol r =>
    let '(res, r', rnd') := Random_replace fuel frame_table rnd r in
    (res, RandomPol r', rnd')
  end.

Definition pin (frame_id : FrameId) (pol : ReplacementPolicy) : ReplacementPolicy :=
  match pol with
  | ClockPol c => ClockPol (Clock_pin frame_id c)
  | RandomPol r => RandomPol (Random_pin frame_id r)
  end.

Definition unpin (frame_id : FrameId) (pol : ReplacementPolicy) : ReplacementPolicy :=
  match pol with
  | ClockPol c => ClockPol (Clock_unpin frame_id c)
  | RandomPol r => RandomPol (Random_unpin frame_id r)
  end.

Definition freeFrame (frame_id : FrameId) (pol : ReplacementPolicy) : ReplacementPolicy :=
  match pol with
  | ClockPol c => ClockPol (Clock_freeFrame frame_id c)
  | RandomPol r => RandomPol (Random_freeFrame frame_id r)
  end.

(** [BufferState::ReplacementStats], without the running mean. *)
Record ReplacementStats := mkStats {
  rs_rep_type : RepType;
  rs_rep_calls : Z;
  rs_new_page_calls : Z;
  rs_ref_bit : nat;
  rs_clock_hand : nat
}.

(** [Clock::getRepStats] and [ReplacementPolicy::getRepStats] *)
Definition getRepStats (pol : ReplacementPolicy) : ReplacementStats :=
  match pol with
  | ClockPol c =>
    mkStats ClockT (rep_calls (c_base c)) (new_page_calls (c_base c))
      (length (filter (fun b => b = true) (take BUF_SIZE (ref_table c))))
      (clock_hand c)
  | RandomPol r =>
    mkStats RandomT (rep_calls (r_base r)) (new_page_calls (r_base r)) 0 0
  end.

End Policies.

(** ** The buffer manager (bufmgr.h, bufmgr.cpp) *)

(** [BufferState], the snapshot returned by [getBufferState]. *)
Record BufferState := mkBufferState {
  bs_total : nat;
  bs_valid : nat;
  bs_pinned : nat;
  bs_unpinned : nat;
  bs_dirty : nat;
  replace_stats : ReplacementStats
}.

(** The members of [BufferManager].  [buf_map] is the
    [std::unordered_map<PageId,FrameId>] inside [BufferMap].  [disk_calls]
    is the ghost log of the calls made to the disk manager and [rand] the
    state of [std::rand]. *)
Record BufferManager (D : Type) := mkBufMgr {
  frame_table : list Frame;
  buf_pool : list Page;
  buf_map : gmap PageId FrameId;
  replacement_pol : ReplacementPolicy;
  disk_mgr : D;
  disk_calls : list DiskCall;
  rand : RandSrc
}.
Arguments mkBufMgr {D}.
Arguments frame_table {D}.
Arguments buf_pool {D}.
Arguments buf_map {D}.
Arguments replacement_pol {D}.
Arguments disk_mgr {D}.
Arguments disk_calls {D}.
Arguments rand {D}.

Declare Scope bm_scope.

Section Manager.
Context `{Params} {D : Type} `{DiskManager D}.

Abbreviation BufMgr := (BufferManager D).

Definition set_frame_table (ft : list Frame) (s : BufMgr) : BufMgr :=
  mkBufMgr ft (buf_pool s) (buf_map s) (replacement_pol s) (disk_mgr s)
    (disk_calls s) (rand s).
Definition set_buf_pool (bp : list Page) (s : BufMgr) : BufMgr :=
  mkBufMgr (frame_table s) bp (buf_map s) (replacement_pol s) (disk_mgr s)
    (disk_calls s) (rand s).
Definition set_buf_map (m : gmap PageId FrameId) (s : BufMgr) : BufMgr :=
  mkBufMgr (frame_table s) (buf_pool s) m (replacement_pol s) (disk_mgr s)
    (disk_calls s) (rand s).
Definition set_replacement_pol (pol : ReplacementPolicy) (s : BufMgr) : BufMgr :=
  mkBufMgr (frame_table s) (buf_pool s) (buf_map s) pol (disk_mgr s)
    (disk_calls s) (rand s).
Definition set_disk (d : D) (c : DiskCall) (s : BufMgr) : BufMgr :=
  mkBufMgr (frame_table s) (buf_pool s) (buf_map s) (replacement_pol s) d
    (disk_calls s ++ [c]) (rand s).
Definition set_rand (r : RandSrc) (s : BufMgr) : BufMgr :=
  mkBufMgr (frame_table s) (buf_pool s) (buf_map s) (replacement_pol s)
    (disk_mgr s) (disk_calls s) r.

(** *** The monad of the methods

    A method maps the object before the call to its result and the object
    after the call.  A throw keeps the mutations made so far. *)
Definition M (A : Type) : Type := BufMgr -> Res A * BufMgr.

Definition ret {A : Type} (a : A) : M A := fun s => (Ok a, s).

Definition bind {A B : Type} (m : M A) (k : A -> M B) : M B := fun s =>
  match m s with
  | (Ok a, s') => k a s'
  | (Throw e, s') => (Throw e, s')
  | (OutOfFuel, s') => (OutOfFuel, s')
  end.

#[local] Notation "x ← y ; z" := (bind y (fun x => z))
  (at level 20, y at level 100, z at level 200, only parsing) : bm_scope.
#[local] Notation "y ;; z" := (bind y (fun _ => z))
  (at level 100, z at level 200, only parsing, right associativity) : bm_scope.
#[local] Open Scope bm_scope.

Definition modify (g : BufMgr -> BufMgr) : M unit := fun s => (Ok tt, g s).

Definition throw {A : Type} (e : Exn) : M A := fun s => (Throw e, s).

(** [try { m } catch (...) { handler }] *)
Definition try_catch {A : Type} (m : M A) (handler : Exn -> M A) : M A :=
  fun s =>
    match m s with
    | (Throw e, s') => handler e s'
    | r => r
    end.

Definition when (b : bool) (m : M unit) : M unit :=
  if b then m else ret tt.

(** Frame and slot access.  An index outside the arrays is undefined
    behaviour in C++; here a read gives a default value and a write does
    nothing.  The statements below only use indices inside the arrays. *)
Definition get_frame (i : FrameId) : M Frame :=
  fun s => (Ok (frame_table s !!! i), s).

Definition modify_frame (i : FrameId) (g : Frame -> Frame) : M unit :=
  modify (fun s =>
    set_frame_table (<[i := g (frame_table s !!! i)]> (frame_table s)) s).

Definition get_slot (i : FrameId) : M Page :=
  fun s => (Ok (buf_pool s !!! i), s).

(** *** BufferMap (bm_buffermap.cpp) *)

(** [BufferMap::get] *)
Definition BufferMap_get (page_id : PageId) : M FrameId :=
  fun s =>
    match buf_map s !! page_id with
    | None => (Throw (PageNotFoundBufMgr page_id), s)
    | Some frame_id => (Ok frame_id, s)
    end.

(** [BufferMap::contains] *)
Definition BufferMap_contains (page_id : PageId) : M bool :=
  fun s => (Ok (bool_decide (is_Some (buf_map s !! page_id))), s).

(** [BufferMap::insert] *)
Definition BufferMap_insert (page_id : PageId) (frame_id : FrameId) : M unit :=
  contained ← BufferMap_contains page_id;
  if contained : bool then throw (PageAlreadyLoadedBufMgr page_id)
  else modify (fun s => set_buf_map (<[page_id := frame_id]> (buf_map s)) s).

(** [BufferMap::remove] *)
Definition BufferMap_remove (page_id : PageId) : M unit :=
  contained ← BufferMap_contains page_id;
  if negb contained then throw (PageNotFoundBufMgr page_id)
  else modify (fun s => set_buf_map (delete page_id (buf_map s)) s).

(** *** Calls on the collaborators *)

Definition call_disk {A : Type} (c : DiskCall) (op : D -> (DiskExn + A) * D) : M A :=
  fun s =>
    let (r, d') := op (disk_mgr s) in
    match r with
    | inl e => (Throw (DiskMgrExn e), set_disk d' c s)
    | inr a => (Ok a, set_disk d' c s)
    end.

(** [disk_mgr->readPage(page_id, &buf_pool[i])] fills the slot on success. *)
Definition disk_read_into (page_id : PageId) (i : FrameId) : M unit :=
  data ← call_disk (CallReadPage page_id) (disk_readPage page_id);
  modify (fun s => set_buf_pool (<[i := data]> (buf_pool s)) s).

(** [disk_mgr->writePage(page_id, &buf_pool[i])] *)
Definition disk_write_from (page_id : PageId) (i : FrameId) : M unit :=
  data ← get_slot i;
  call_disk (CallWritePage page_id data) (disk_writePage page_id data).

Definition pol_replace (fuel : nat) : M FrameId :=
  fun s =>
    let '(res, pol', rnd') :=
      replace fuel (frame_table s) (rand s) (replacement_pol s) in
    (res, set_rand rnd' (set_replacement_pol pol' s)).

Definition pol_update (g : ReplacementPolicy -> ReplacementPolicy) : M unit :=
  modify (fun s => set_replacement_pol (g (replacement_pol s)) s).

(** *** The methods of BufferManager *)

(** [BufferManager::BufferManager].  [junk] is the indeterminate start
    value of [Clock::new_page_calls]. *)
Definition BufferManager_new (disk : D) (rep_type : RepType) (rnd : RandSrc)
    (junk : Z) : Exn + BufMgr :=
  let ft := replicate BUF_SIZE Frame_new in
  let mk pol := mkBufMgr ft (replicate BUF_SIZE []) ∅ pol disk [] rnd in
  match rep_type with
  | ClockT => inr (mk (ClockPol (Clock_new junk ft)))
  | RandomT => inr (mk (RandomPol (Random_new ft)))
  | OtherRepT => inl InvalidPolicyBufMgr
  end.

Definition count_frames (P : Frame -> bool) (ft : list Frame) : nat :=
  length (filter (fun f => P f = true) (take BUF_SIZE ft)).

(** [BufferManager::getBufferState] *)
Definition getBufferState : M BufferState :=
  fun s =>
    let ft := frame_table s in
    let pinned := count_frames (fun f => 0 <? pin_count f) ft in
    (Ok (mkBufferState BUF_SIZE (count_frames valid ft) pinned
           (BUF_SIZE - pinned) (count_frames dirty ft)
           (getRepStats (replacement_pol s))), s).

(** [BufferManager::getNumUnpinned] *)
Definition getNumUnpinned : M nat :=
  cur_buf ← getBufferState; ret (bs_unpinned cur_buf).

(** The three assignments by which the manager invalidates a frame:
    [valid = false; dirty = false; pin_count = 0]. *)
Definition invalidate (f : Frame) : Frame :=
  set_pin_count 0 (set_dirty false (set_valid false f)).

(** The four assignments that install a page:
    [page_id = p; valid = true; pin_count = 1; dirty = false]. *)
Definition install (p : PageId) (f : Frame) : Frame :=
  set_dirty false (set_pin_count 1 (set_valid true (set_page_id p f))).

(** [BufferManager::_allocateFrame] *)
Definition _allocateFrame (fuel : nat) : M FrameId :=
  frame_id ← pol_replace fuel;
  tmp ← get_frame frame_id;
  when (valid tmp) (BufferMap_remove (page_id tmp));;
  modify_frame frame_id invalidate;;
  ret frame_id.

(** [BufferManager::allocatePage].  The returned [Page*] is
    [&buf_pool[frame_id]], represented by [frame_id]. *)
Definition allocatePage (fuel : nat) (file_id : FileId) : M (FrameId * PageId) :=
  state ← getBufferState;
  if (bs_unpinned state =? 0)%nat then throw InsufficientSpaceBufMgr else
  page_id ← call_disk (CallAllocatePage file_id) (disk_allocatePage file_id);
  frame_id ← _allocateFrame fuel;
  modify_frame frame_id (install page_id);;
  BufferMap_insert page_id frame_id;;
  pol_update (pin frame_id);;
  ret (frame_id, page_id).

(** [BufferManager::deallocatePage] *)
Definition deallocatePage (page_id : PageId) : M unit :=
  contained ← BufferMap_contains page_id;
  when contained (
    frame_id ← BufferMap_get page_id;
    frame ← get_frame frame_id;
    if 0 <? pin_count frame then throw (PagePinnedBufMgr page_id) else
    modify_frame frame_id invalidate;;
    BufferMap_remove page_id;;
    pol_update (freeFrame frame_id));;
  call_disk (CallDeallocatePage page_id) (disk_deallocatePage page_id).

(** [BufferManager::getPage] *)
Definition getPage (fuel : nat) (pid : PageId) : M FrameId :=
  contained ← BufferMap_contains pid;
  if contained : bool then
    tmp ← BufferMap_get pid;
    modify_frame tmp (fun frame => set_pin_count (pin_count frame + 1) frame);;
    ret tmp
  else
    state ← getBufferState;
    if (bs_unpinned state =? 0)%nat then throw InsufficientSpaceBufMgr else
    tmp ← pol_replace fuel;
    frame ← get_frame tmp;
    when (valid frame && dirty frame) (
      disk_write_from (page_id frame) tmp;;
      modify_frame tmp (set_dirty false));;
    when (valid frame) (BufferMap_remove (page_id frame));;
    try_catch (disk_read_into pid tmp) (fun e =>
      match e with
      | DiskMgrExn InvalidFileIdDiskMgr => throw (InvalidPageIdBufMgr pid)
      | DiskMgrExn InvalidPageNumDiskMgr => throw (InvalidPageIdBufMgr pid)
      | _ => throw e
      end);;
    modify_frame tmp (install pid);;
    BufferMap_insert pid tmp;;
    pol_update (pin tmp);;
    ret tmp.

(** [BufferManager::releasePage] *)
Definition releasePage (page_id : PageId) (dirty_flag : bool) : M unit :=
  contained ← BufferMap_contains page_id;
  if negb contained then throw (PageNotFoundBufMgr page_id) else
  tmp ← BufferMap_get page_id;
  frame ← get_frame tmp;
  if pin_count frame =? 0 then throw (PageNotPinnedBufMgr page_id) else
  when dirty_flag (modify_frame tmp (set_dirty true));;
  modify_frame tmp (fun frame => set_pin_count (pin_count frame - 1) frame);;
  frame ← get_frame tmp;
  when (pin_count frame =? 0) (pol_update (unpin tmp)).

(** [BufferManager::setDirty] *)
Definition setDirty (page_id : PageId) : M unit :=
  contained ← BufferMap_contains page_id;
  if negb contained then throw (PageNotFoundBufMgr page_id) else
  tmp ← BufferMap_get page_id;
  modify_frame tmp (set_dirty true).

(** [BufferManager::flushPage] *)
Definition flushPage (page_id : PageId) : M unit :=
  contained ← BufferMap_contains page_id;
  if negb contained then throw (PageNotFoundBufMgr page_id) else
  tmp ← BufferMap_get page_id;
  frame ← get_frame tmp;
  when (dirty frame) (
    disk_write_from page_id tmp;;
    modify_frame tmp (set_dirty false)).

(** [BufferManager::createFile] *)
Definition createFile (file_id : FileId) : M unit :=
  call_disk (CallCreateFile file_id) (disk_createFile file_id).

(** The body of the [for] loop of [BufferManager::removeFile], run over the
    frame indices still to visit. *)
Fixpoint removeFile_loop (fid : FileId) (idxs : list FrameId) : M unit :=
  match idxs with
  | [] => ret tt
  | i :: rest =>
    frame ← get_frame i;
    when (valid frame && (file_id (page_id frame) =? fid)%N) (
      if 0 <? pin_count frame then throw (PagePinnedBufMgr (page_id frame)) else
      BufferMap_remove (page_id frame);;
      modify_frame i invalidate;;
      pol_update (freeFrame i));;
    removeFile_loop fid rest
  end.

(** [BufferManager::removeFile] *)
Definition removeFile (fid : FileId) : M unit :=
  removeFile_loop fid (seq 0 BUF_SIZE);;
  call_disk (CallRemoveFile fid) (disk_removeFile fid).

(** *** The states the API can reach *)

(** A call of the public interface. *)
Inductive ApiCall :=
| AllocatePage (file_id : FileId)
| GetPage (page_id : PageId)
| ReleasePage (page_id : PageId) (dirty_flag : bool)
| SetDirty (page_id : PageId)
| FlushPage (page_id : PageId)
| DeallocatePage (page_id : PageId)
| CreateFile (file_id : FileId)
| RemoveFile (file_id : FileId).

Definition run_call (fuel : nat) (c : ApiCall) : M unit :=
  match c with
  | AllocatePage f => allocatePage fuel f;; ret tt
  | GetPage p => getPage fuel p;; ret tt
  | ReleasePage p d => releasePage p d
  | SetDirty p => setDirty p
  | FlushPage p => flushPage p
  | DeallocatePage p => deallocatePage p
  | CreateFile f => createFile f
  | RemoveFile f => removeFile f
  end.

(** Runs a list of calls one after the other, whatever each one returns or
    throws, as a caller that catches every exception would. *)
Fixpoint run_calls (fuel : nat) (cs : list ApiCall) (s : BufMgr) : BufMgr :=
  match cs with
  | [] => s
  | c :: rest => run_calls fuel rest (run_call fuel c s).2
  end.

(** A state is reachable when it is that of a freshly constructed manager,
    or follows a reachable state by a call that came back (normally or by
    an exception), or by a client storing bytes through a page pointer. *)
Inductive reachable : BufMgr -> Prop :=
| reachable_new disk rep_type rnd junk s :
    BufferManager_new disk rep_type rnd junk = inr s -> reachable s
| reachable_call s fuel c r s' :
    reachable s -> run_call fuel c s = (r, s') -> r <> OutOfFuel ->
    reachable s'
| reachable_store s i data :
    reachable s -> reachable (set_buf_pool (<[i := data]> (buf_pool s)) s).

(** The invariant of the reachable states: the frame table has [BUF_SIZE]
    entries; every key of the map leads to a valid frame holding that page
    (M1); pin counts are not negative and an invalid frame is unpinned and
    clean; the free list names invalid frames, each once; the clock hand is
    inside the table. *)
Record wf (s : BufMgr) : Prop := mk_wf {
  wf_length : length (frame_table s) = BUF_SIZE;
  wf_map : forall p f, buf_map s !! p = Some f ->
    exists fr, frame_table s !! f = Some fr /\ valid fr = true /\ page_id fr = p;
  wf_frames : forall i fr, frame_table s !! i = Some fr ->
    0 <= pin_count fr /\
    (valid fr = false -> pin_count fr = 0 /\ dirty fr = false);
  wf_free : forall f, f ∈ free (pol_base (replacement_pol s)) ->
    exists fr, frame_table s !! f = Some fr /\ valid fr = false;
  wf_free_nodup : NoDup (free (pol_base (replacement_pol s)));
  wf_hand : forall c, replacement_pol s = ClockPol c ->
    (clock_hand c < BUF_SIZE)%nat
}.

(** M2 of the specification: every valid frame is found in the map under
    its page, at its own index. *)
Definition M2 (s : BufMgr) : Prop :=
  forall i fr, frame_table s !! i = Some fr -> valid fr = true ->
    buf_map s !! page_id fr = Some i.

(** *** Auxiliary notions of the proofs *)

Implicit Types (s : BufferManager D) (fr : Frame).

(** The frame [releasePage] leaves behind. *)
Definition released (dirty_flag : bool) fr : Frame :=
  mkFrame (page_id fr) (pin_count fr - 1) (valid fr) (dirty_flag || dirty fr).

(** The frames [removeFile(fid)] acts on. *)
Definition targets (fid : FileId) fr : bool :=
  valid fr && (file_id (page_id fr) =? fid)%N.

(** The state after one unpinned frame of the file was dropped. *)
Definition dropped (i : FrameId) s : BufferManager D :=
  set_replacement_pol (freeFrame i (replacement_pol s))
    (set_frame_table (<[i := invalidate (frame_table s !!! i)]> (frame_table s))
       (set_buf_map (delete (page_id (frame_table s !!! i)) (buf_map s)) s)).

(** What holds of a frame once the loop has dropped it. *)
Definition was_dropped (i : FrameId) (old : Frame) s' : Prop :=
  valid (frame_table s' !!! i) = false /\
  dirty (frame_table s' !!! i) = false /\
  pin_count (frame_table s' !!! i) = 0 /\
  buf_map s' !! page_id old = None /\
  i ∈ free (pol_base (replacement_pol s')).

(** No key of the map leads to frame [i]. *)
Definition unmapped (i : FrameId) s : Prop :=
  forall p, buf_map s !! p <> Some i.

(** The clock hand, if there is one, points into the table. *)
Definition hand_ok (pol : ReplacementPolicy) : Prop :=
  forall c, pol = ClockPol c -> (clock_hand c < BUF_SIZE)%nat.

(** The statistic [new_page_calls] of the policy of the manager, and the
    methods that leave it as it is. *)
Definition npc s : Z := new_page_calls (pol_base (replacement_pol s)).

Definition steady {A : Type} (m : M A) : Prop :=
  forall s, npc (m s).2 = npc s.

(** *** Weakest preconditions

    [wp m Q s]: running [m] from [s] either returns [a] in a state that
    satisfies [Q a], or throws in a state that satisfies the invariant (or
    the model ran out of fuel). *)
Definition wp {A : Type} (m : M A) (Q : A -> BufferManager D -> Prop)
    (s : BufferManager D) : Prop :=
  match m s with
  | (Ok a, s') => Q a s'
  | (Throw _, s') => wf s'
  | (OutOfFuel, _) => True
  end.

(** The frame a miss or an allocation is about to fill. *)
Definition vacant (f : FrameId) s : Prop :=
  wf s /\ unmapped f s /\ f ∉ free (pol_base (replacement_pol s)).

End Manager.

(** ** A disk manager to run the code against

    Modelled from the spec: diskmgr.h is not among the sources; this is the
    interface of section 6 (allocatePage, deallocatePage, readPage,
    writePage, createFile, removeFile, with the failures InvalidFileId and
    InvalidPageNum).  A file is known by the number of pages it was ever
    given; pages are numbered from 0 in allocation order. *)
Record SimpleDisk := mkDisk {
  sd_files : gmap FileId N;
  sd_pages : gmap PageId Page
}.

Definition sd_check {A : Type} (p : PageId) (d : SimpleDisk)
    (k : (DiskExn + A) * SimpleDisk) : (DiskExn + A) * SimpleDisk :=
  match sd_files d !! file_id p with
  | None => (inl InvalidFileIdDiskMgr, d)
  | Some _ =>
    match sd_pages d !! p with
    | None => (inl InvalidPageNumDiskMgr, d)
    | Some _ => k
    end
  end.

#[global] Instance SimpleDisk_mgr : DiskManager SimpleDisk := {
  disk_allocatePage f d :=
    match sd_files d !! f with
    | None => (inl InvalidFileIdDiskMgr, d)
    | Some n =>
      let p := mkPageId f n in
      (inr p, mkDisk (<[f := (n + 1)%N]> (sd_files d)) (<[p := []]> (sd_pages d)))
    end;
  disk_deallocatePage p d :=
    sd_check p d (inr tt, mkDisk (sd_files d) (delete p (sd_pages d)));
  disk_readPage p d :=
    sd_check p d (inr (default [] (sd_pages d !! p)), d);
  disk_writePage p data d :=
    sd_check p d (inr tt, mkDisk (sd_files d) (<[p := data]> (sd_pages d)));
  disk_createFile f d :=
    (inr tt, mkDisk (<[f := 0%N]> (sd_files d)) (sd_pages d));
  disk_removeFile f d :=
    match sd_files d !! f with
    | None => (inl InvalidFileIdDiskMgr, d)
    | Some _ =>
      (inr tt, mkDisk (delete f (sd_files d))
                 (filter (fun kv => file_id kv.1 <> f) (sd_pages d)))
    end
}.

(** ** Concrete runs used as test inputs

    [BUF_SIZE = 16] as in the scenarios of the specification.  The value of
    the sentinel is not in the sources; [params16] takes the largest
    file and page numbers for it, and no statement below depends on that
    choice. *)
Definition params_with (inv : PageId) : Params :=
  {| BUF_SIZE := 16; INVALID_PAGE_ID := inv |}.

Definition params16 : Params :=
  params_with (mkPageId 4294967295%N 4294967295%N).

(** A disk holding the empty file 1 and nothing else. *)
Definition disk1 : SimpleDisk := mkDisk {[ 1%N := 0%N ]} ∅.

(** A disk on which file 1 already has its page 0. *)
Definition disk2 : SimpleDisk :=
  mkDisk {[ 1%N := 1%N ]} {[ mkPageId 1%N 0%N := [] ]}.

(** [std::rand] returning 4, 6, 8, ... : modulo 16 the draws visit the even
    frames 4, 6, ..., 14, 0, 2, 4, ... and never frame 1. *)
Definition rand_even : RandSrc := mkRand (fun i => (2 * i + 4)%nat) 0.

Definition new_on (P : Params) (disk : SimpleDisk) (rep_type : RepType)
    : BufferManager SimpleDisk :=
  match BufferManager_new (H := P) disk rep_type rand_even 0 with
  | inr s => s
  | inl _ =>
    mkBufMgr [] [] ∅ (RandomPol (mkRandom (mkBase [] 0 0) [])) disk [] rand_even
  end.

Definition new16 (rep_type : RepType) : BufferManager SimpleDisk :=
  new_on params16 disk1 rep_type.

Definition pg (n : N) : PageId := mkPageId 1%N n.

(** Sixteen [allocatePage(1)] calls: pages [pg 0] .. [pg 15] fill frames
    0 .. 15, every one pinned once. *)
Definition fill16 (rep_type : RepType) : BufferManager SimpleDisk :=
  run_calls (H := params16) 64 (replicate 16 (AllocatePage 1%N)) (new16 rep_type).

(** The full pool after [releasePage(pg n, dirty_flag)]: frame [n] is then
    the only unpinned frame. *)
Definition fill16_released (rep_type : RepType) (n : N) (dirty_flag : bool)
    : BufferManager SimpleDisk :=
  run_calls (H := params16) 64 [ReleasePage (pg n) dirty_flag] (fill16 rep_type).

(** The full pool after the client wrote the byte 7 into the page of frame
    0 and released it as dirty. *)
Definition fill16_written : BufferManager SimpleDisk :=
  run_calls (H := params16) 64 [ReleasePage (pg 0%N) true]
    (set_buf_pool (<[0%nat := [Byte.x07]]> (buf_pool (fill16 ClockT)))
       (fill16 ClockT)).

(** Two pages allocated, released and deallocated again. *)
Definition two_deallocated (P : Params) : BufferManager SimpleDisk :=
  run_calls (H := P) 64
    [AllocatePage 1%N; AllocatePage 1%N;
     ReleasePage (pg 0%N) false; ReleasePage (pg 1%N) false;
     DeallocatePage (pg 0%N); DeallocatePage (pg 1%N)]
    (new_on P disk1 ClockT).

(** Three pages allocated; the first was released dirty, the second clean,
    the third is still pinned. *)
Definition two_of_three_released (P : Params) : BufferManager SimpleDisk :=
  run_calls (H := P) 64
    [AllocatePage 1%N; AllocatePage 1%N; AllocatePage 1%N;
     ReleasePage (pg 0%N) true; ReleasePage (pg 1%N) false]
    (new_on P disk1 ClockT).

(** A failed [getPage] on a fresh manager, then fifteen allocations: the
    free list is empty, frames 1 .. 15 are pinned, and frame 0, which the
    failed call took from the free list, is invalid. *)
Definition leaked_frame : BufferManager SimpleDisk :=
  run_calls (H := params16) 64
    (GetPage (pg 99%N) :: replicate 15 (AllocatePage 1%N)) (new16 ClockT).

(** No call of the list ran out of fuel. *)
Fixpoint calls_return `{Params} {D : Type} `{DiskManager D} (fuel : nat)
    (cs : list ApiCall) (s : BufferManager D) : bool :=
  match cs with
  | [] => true
  | c :: rest =>
    match run_call fuel c s with
    | (OutOfFuel, _) => false
    | (_, s') => calls_return fuel rest s'
    end
  end.

(** Consecutive [getPage(pid)] calls: the results, oldest first, and the
    final state. *)
Fixpoint getPage_n `{Params} {D : Type} `{DiskManager D} (fuel : nat)
    (pid : PageId) (n : nat) (s : BufferManager D)
    : list (Res FrameId) * BufferManager D :=
  match n with
  | O => ([], s)
  | S n' =>
    let (r, s1) := getPage fuel pid s in
    let (rs, s2) := getPage_n fuel pid n' s1 in
    (r :: rs, s2)
  end.

(** ** The destructor (bufmgr.cpp) *)

Section Teardown.
Context `{Params} {D : Type} `{DiskManager D}.

#[local] Notation "x ← y ; z" := (bind y (fun x => z))
  (at level 20, y at level 100, z at level 200, only parsing) : bm_scope.
#[local] Notation "y ;; z" := (bind y (fun _ => z))
  (at level 100, z at level 200, only parsing, right associativity) : bm_scope.
#[local] Open Scope bm_scope.

(** The body of the [for] loop of [BufferManager::~BufferManager], run over
    the frame indices still to visit. *)
Fixpoint destructor_loop (idxs : list FrameId) : M (D := D) unit :=
  match idxs with
  | [] => ret tt
  | i :: rest =>
    frame ← get_frame i;
    when (valid frame && dirty frame) (
      disk_write_from (page_id frame) i;;
      modify_frame i (set_dirty false));;
    destructor_loop rest
  end.

(** [BufferManager::~BufferManager].  Deleting the policy object has no
    counterpart in the model.  An exception of [writePage] ends the loop and
    is modelled as leaving the destructor; a C++11 runtime ends the program
    at that point. *)
Definition BufferManager_destructor : M (D := D) unit :=
  destructor_loop (seq 0 BUF_SIZE).

(** The frames the destructor writes back, and the call it makes for each. *)
Definition unsaved (s : BufferManager D) (i : FrameId) : bool :=
  valid (frame_table s !!! i) && dirty (frame_table s !!! i).

Definition write_back (s : BufferManager D) (i : FrameId) : DiskCall :=
  CallWritePage (page_id (frame_table s !!! i)) (buf_pool s !!! i).

End Teardown.

(** ** Further notions of the proofs *)

(** The position of the clock hand [k] steps after position [h0]. *)
Definition pos `{Params} (h0 k : nat) : nat := ((h0 + k) mod BUF_SIZE)%nat.

(** After [k] steps from [h0]: every unpinned frame the hand has passed is
    valid and has lost its reference bit. *)
Definition swept `{Params} (ft : list Frame) (h0 k : nat) (c : ClockState) : Prop :=
  forall j, (j < k)%nat -> pin_count (ft !!! pos h0 j) <= 0 ->
    valid (ft !!! pos h0 j) = true /\ ref_table c !!! pos h0 j = false.

(** After [k] steps from [h0] in a sweep that began in [c0]: every unpinned
    frame the hand has passed had its reference bit set in [c0], and the
    bits of the frames not yet passed are those of [c0]. *)
Definition spared `{Params} (ft : list Frame) (h0 k : nat) (c0 c : ClockState) : Prop :=
  (forall j, (j < k)%nat -> pin_count (ft !!! pos h0 j) <= 0 ->
     ref_table c0 !!! pos h0 j = true) /\
  (forall i, (forall j, (j < k)%nat -> pos h0 j <> i) ->
     ref_table c !!! i = ref_table c0 !!! i).

(** The map once the page of frame [f], if it holds one, has left it. *)
Definition evicted {D : Type} (s : BufferManager D) (f : FrameId)
    : gmap PageId FrameId :=
  if valid (frame_table s !!! f)
  then delete (page_id (frame_table s !!! f)) (buf_map s)
  else buf_map s.

(** The CLOCK policy has one reference bit per frame, and the methods that
    keep it so. *)
Definition shaped `{Params} (pol : ReplacementPolicy) : Prop :=
  forall c, pol = ClockPol c -> length (ref_table c) = BUF_SIZE.

Definition keeps_shape `{Params} {D : Type} {A : Type}
    (m : BufferManager D -> Res A * BufferManager D) : Prop :=
  forall s, shaped (replacement_pol s) -> shaped (replacement_pol (m s).2).

(** ** Runs within the range of [int]

    [pin_count] is an [int].  [frame.pin_count++] on a hit of [getPage] is
    the one statement of the manager that can take it past INT_MAX; every
    other one sets it to 0 or to 1 or lowers a count that is not 0.  As long
    as no call leaves a pin count above INT_MAX, the integer of the model is
    the value the C++ object holds. *)

(** No pin count of the table is above INT_MAX. *)
Definition in_int {D : Type} (s : BufferManager D) : bool :=
  forallb (fun fr => pin_count fr <=? INT_MAX) (frame_table s).

(** The states reached by a run in which no increment overflowed: those of
    [reachable], with every call required to leave the pin counts within
    INT_MAX. *)
Inductive reachable_int {H : Params} {D : Type} `{DiskManager D}
    : BufferManager D -> Prop :=
| reachable_int_new disk rep_type rnd junk s :
    BufferManager_new disk rep_type rnd junk = inr s -> reachable_int s
| reachable_int_call s fuel c r s' :
    reachable_int s -> run_call fuel c s = (r, s') -> r <> OutOfFuel ->
    in_int s' = true -> reachable_int s'
| reachable_int_store s i data :
    reachable_int s -> reachable_int (set_buf_pool (<[i := data]> (buf_pool s)) s).

(** No call of the list ran out of fuel or left a pin count above
    INT_MAX. *)
Fixpoint calls_in_int `{Params} {D : Type} `{DiskManager D} (fuel : nat)
    (cs : list ApiCall) (s : BufferManager D) : bool :=
  match cs with
  | [] => true
  | c :: rest =>
    match run_call fuel c s with
    | (OutOfFuel, _) => false
    | (_, s') => in_int s' && calls_in_int fuel rest s'
    end
  end.

(** ** More concrete runs *)

(** The policy object of a manager, seen as CLOCK or as RANDOM. *)
Definition clock_of {D : Type} (s : BufferManager D) : ClockState :=
  match replacement_pol s with
  | ClockPol c => c
  | RandomPol r => mkClock (r_base r) 0 []
  end.

Definition random_of {D : Type} (s : BufferManager D) : RandomState :=
  match replacement_pol s with
  | RandomPol r => r
  | ClockPol c => mkRandom (c_base c) []
  end.

(** Sixteen allocations over [disk2]: pages [pg 1] .. [pg 16] fill the pool
    while [pg 0] is on disk only; then [pg 1], in frame 0, is released as
    dirty. *)
Definition fill16_over_disk2 : BufferManager SimpleDisk :=
  run_calls (H := params16) 64
    (replicate 16 (AllocatePage 1%N) ++ [ReleasePage (pg 1%N) true])
    (new_on params16 disk2 ClockT).

(** Two pages allocated and released, the second one as dirty. *)
Definition two_released : BufferManager SimpleDisk :=
  run_calls (H := params16) 64
    [AllocatePage 1%N; AllocatePage 1%N;
     ReleasePage (pg 0%N) false; ReleasePage (pg 1%N) true]
    (new16 ClockT).

(** [fill16_written] over a disk that has lost file 1: every write fails. *)
Definition file_lost : BufferManager SimpleDisk :=
  mkBufMgr (frame_table fill16_written) (buf_pool fill16_written)
    (buf_map fill16_written) (replacement_pol fill16_written)
    (mkDisk ∅ ∅) (disk_calls fill16_written) (rand fill16_written).

(** * Properties *)

Section ManagerFacts.
Context `{Params} {D : Type} `{DiskManager D}.

Implicit Types (s : BufferManager D) (p : PageId) (f : FrameId) (fr : Frame).

Lemma set_frame_table_id s : set_frame_table (frame_table s) s = s.
Proof. by destruct s. Qed.

Lemma BufferMap_contains_eq p s :
  BufferMap_contains p s = (Ok (bool_decide (is_Some (buf_map s !! p))), s).
Proof. reflexivity. Qed.

Lemma contains_Some p f s :
  buf_map s !! p = Some f -> bool_decide (is_Some (buf_map s !! p)) = true.
Proof. intros ->. apply bool_decide_eq_true. eauto. Qed.

Lemma contains_None p s :
  buf_map s !! p = None -> bool_decide (is_Some (buf_map s !! p)) = false.
Proof. intros ->. apply bool_decide_eq_false. by intros [? ?]. Qed.

Lemma reachable_run_calls fuel cs s :
  reachable s -> calls_return fuel cs s = true -> reachable (run_calls fuel cs s).
Proof.
  revert s. induction cs as [|c rest IH]; intros s Hs Hret; [done|].
  cbn in *. destruct (run_call fuel c s) as [r s'] eqn:Hrun. cbn.
  apply IH.
  - apply (reachable_call s fuel c r s' Hs Hrun). by destruct r.
  - by destruct r.
Qed.

(** ** releasePage *)

Lemma releasePage_absent p dirty_flag s :
  buf_map s !! p = None ->
  releasePage p dirty_flag s = (Throw (PageNotFoundBufMgr p), s).
Proof.
  intros Hp. unfold releasePage, bind.
  rewrite BufferMap_contains_eq, (contains_None _ _ Hp). reflexivity.
Qed.

Lemma releasePage_unpinned p dirty_flag s f :
  buf_map s !! p = Some f -> pin_count (frame_table s !!! f) = 0 ->
  releasePage p dirty_flag s = (Throw (PageNotPinnedBufMgr p), s).
Proof.
  intros Hp Hpin. unfold releasePage, bind.
  rewrite BufferMap_contains_eq, (contains_Some _ _ _ Hp). cbn.
  unfold BufferMap_get. rewrite Hp. cbn. rewrite Hpin. reflexivity.
Qed.

Lemma releasePage_pinned p dirty_flag s f fr :
  buf_map s !! p = Some f -> frame_table s !! f = Some fr ->
  pin_count fr <> 0 ->
  releasePage p dirty_flag s =
    (Ok tt,
     set_replacement_pol
       (if pin_count fr - 1 =? 0 then unpin f (replacement_pol s)
        else replacement_pol s)
       (set_frame_table (<[f := released dirty_flag fr]> (frame_table s)) s)).
Proof.
  intros Hp Hf Hpin. unfold releasePage, bind.
  rewrite BufferMap_contains_eq, (contains_Some _ _ _ Hp). cbn.
  unfold BufferMap_get. rewrite Hp. cbn.
  pose proof (lookup_lt_Some _ _ _ Hf) as Hlt.
  rewrite (list_lookup_total_correct _ _ _ Hf).
  destruct (pin_count fr =? 0) eqn:E; [apply Z.eqb_eq in E; contradiction|].
  destruct dirty_flag; cbn;
    rewrite !list_lookup_total_insert_eq by (rewrite ?length_insert; lia);
    rewrite ?list_insert_insert_eq, (list_lookup_total_correct _ _ _ Hf);
    unfold released, when, pol_update, modify; cbn;
    destruct (pin_count fr - 1 =? 0); reflexivity.
Qed.

Lemma releasePage_returns p dirty_flag s :
  (releasePage p dirty_flag s).1 <> OutOfFuel.
Proof.
  destruct (buf_map s !! p) as [f|] eqn:Hp.
  - unfold releasePage, bind.
    rewrite BufferMap_contains_eq, (contains_Some _ _ _ Hp). cbn.
    unfold BufferMap_get. rewrite Hp. cbn.
    destruct (pin_count (frame_table s !!! f) =? 0); [done|].
    destruct dirty_flag; cbn; unfold when, pol_update, modify;
      by destruct (pin_count _ =? 0).
  - by rewrite (releasePage_absent p dirty_flag s Hp).
Qed.

(** C7.  [releasePage(p, dirty_flag)], in a state whose map entry for [p]
    (if any) names a frame of the table: it throws PageNotFoundBufMgr
    exactly when [p] is absent from the map, throws PageNotPinnedBufMgr
    exactly when [p] is resident in a frame with [pin_count == 0], and
    leaves the state as it was whenever it throws.  Otherwise it returns
    normally; the frame keeps its page and validity, its dirty bit is set
    when [dirty_flag] is true and otherwise kept, its pin count drops by
    one, and the policy receives [unpin] exactly when the new count is 0. *)
Theorem releasePage_contract s p dirty_flag :
  (forall f, buf_map s !! p = Some f -> is_Some (frame_table s !! f)) ->
  ((exists q, (releasePage p dirty_flag s).1 = Throw (PageNotFoundBufMgr q))
     <-> buf_map s !! p = None) /\
  ((exists q, (releasePage p dirty_flag s).1 = Throw (PageNotPinnedBufMgr q))
     <-> exists f fr, buf_map s !! p = Some f /\ frame_table s !! f = Some fr
                      /\ pin_count fr = 0) /\
  (forall e, (releasePage p dirty_flag s).1 = Throw e ->
     (releasePage p dirty_flag s).2 = s) /\
  (forall f fr, buf_map s !! p = Some f -> frame_table s !! f = Some fr ->
     pin_count fr <> 0 ->
     releasePage p dirty_flag s =
       (Ok tt,
        set_replacement_pol
          (if pin_count fr - 1 =? 0 then unpin f (replacement_pol s)
           else replacement_pol s)
          (set_frame_table
             (<[f := mkFrame (page_id fr) (pin_count fr - 1) (valid fr)
                             (dirty_flag || dirty fr)]> (frame_table s)) s))).
Proof.
  intros Hrange.
  destruct (buf_map s !! p) as [f|] eqn:Hp.
  - destruct (Hrange f eq_refl) as [fr Hf].
    destruct (decide (pin_count fr = 0)) as [Hz|Hnz].
    + assert (Hz' : pin_count (frame_table s !!! f) = 0)
        by (by rewrite (list_lookup_total_correct _ _ _ Hf)).
      rewrite (releasePage_unpinned p dirty_flag s f Hp Hz'). cbn.
      repeat split; try done.
      * by intros [? ?].
      * eauto 6.
      * eauto.
      * intros ? ? [= <-] Hf'. congruence.
    + rewrite (releasePage_pinned p dirty_flag s f fr Hp Hf Hnz). cbn.
      repeat split; try done.
      * by intros [? ?].
      * by intros [? ?].
      * intros (f' & fr' & [= <-] & Hf' & Hz). congruence.
      * intros ? ? [= <-] Hf' _. by simplify_eq.
  - rewrite (releasePage_absent p dirty_flag s Hp). cbn.
    repeat split; try done.
    + eauto.
    + by intros [? ?].
    + by intros (? & ? & ? & _).
Qed.

(** ** getPage on a resident page *)

Lemma getPage_hit fuel p s f fr :
  buf_map s !! p = Some f -> frame_table s !! f = Some fr ->
  getPage fuel p s =
    (Ok f,
     set_frame_table
       (<[f := set_pin_count (pin_count fr + 1) fr]> (frame_table s)) s).
Proof.
  intros Hp Hf. unfold getPage, bind.
  rewrite BufferMap_contains_eq, (contains_Some _ _ _ Hp). cbn.
  unfold BufferMap_get. rewrite Hp. cbn.
  by rewrite (list_lookup_total_correct _ _ _ Hf).
Qed.

(** C8.  With [p] resident in frame [f], any number [n] of consecutive
    [getPage(p)] calls all return the pointer to slot [f]; together they
    raise the pin count of that frame by [n] (one per call) and change
    nothing else, in particular not the map.  Nothing is assumed about how
    many frames are pinned; the pin count is assumed to stay within
    [int]. *)
Theorem getPage_n_resident fuel p n s f fr :
  buf_map s !! p = Some f -> frame_table s !! f = Some fr ->
  pin_count fr + Z.of_nat n <= INT_MAX ->
  getPage_n fuel p n s =
    (replicate n (Ok f),
     set_frame_table
       (<[f := set_pin_count (pin_count fr + Z.of_nat n) fr]> (frame_table s))
       s).
Proof.
  revert s fr. induction n as [|n IH]; intros s fr Hp Hf Hmax.
  - cbn. rewrite Z.add_0_r.
    replace (set_pin_count (pin_count fr) fr) with fr by (by destruct fr).
    by rewrite list_insert_id, set_frame_table_id.
  - cbn [getPage_n]. rewrite (getPage_hit fuel p s f fr Hp Hf).
    pose proof (lookup_lt_Some _ _ _ Hf) as Hlt.
    rewrite (IH _ (set_pin_count (pin_count fr + 1) fr)); cbn.
    + rewrite list_insert_insert_eq.
      replace (pin_count fr + 1 + Z.of_nat n) with (pin_count fr + Z.of_nat (S n))
        by lia.
      reflexivity.
    + exact Hp.
    + by apply list_lookup_insert_eq.
    + lia.
Qed.

(** ** removeFile *)

Lemma removeFile_loop_cons fid i rest s :
  removeFile_loop fid (i :: rest) s =
    let frame := frame_table s !!! i in
    if targets fid frame then
      if 0 <? pin_count frame then (Throw (PagePinnedBufMgr (page_id frame)), s)
      else match buf_map s !! page_id frame with
           | None => (Throw (PageNotFoundBufMgr (page_id frame)), s)
           | Some _ => removeFile_loop fid rest (dropped i s)
           end
    else removeFile_loop fid rest s.
Proof.
  cbn [removeFile_loop]. unfold bind at 1. cbn. unfold targets.
  destruct (valid (frame_table s !!! i) && _) eqn:Ht; cbn; [|reflexivity].
  unfold bind at 1.
  destruct (0 <? pin_count (frame_table s !!! i)); cbn; [reflexivity|].
  unfold BufferMap_remove, bind. rewrite BufferMap_contains_eq.
  destruct (buf_map s !! page_id (frame_table s !!! i)) as [f|] eqn:Hm.
  - reflexivity.
  - reflexivity.
Qed.

Lemma free_freeFrame i pol :
  free (pol_base (freeFrame i pol)) = free (pol_base pol) ++ [i].
Proof. by destruct pol. Qed.

(** What the loop never touches, and what it only ever shrinks or grows. *)
Lemma removeFile_loop_frame fid idxs s r s' :
  removeFile_loop fid idxs s = (r, s') ->
  disk_mgr s' = disk_mgr s /\ disk_calls s' = disk_calls s /\
  (forall j, j ∉ idxs -> frame_table s' !!! j = frame_table s !!! j) /\
  (forall q, buf_map s !! q = None -> buf_map s' !! q = None) /\
  (forall x, x ∈ free (pol_base (replacement_pol s)) ->
             x ∈ free (pol_base (replacement_pol s'))).
Proof.
  revert s. induction idxs as [|i rest IH]; intros s Hrun.
  - cbn in Hrun. unfold ret in Hrun. by simplify_eq.
  - rewrite removeFile_loop_cons in Hrun. cbn zeta in Hrun.
    assert (Hskip : removeFile_loop fid rest s = (r, s') ->
      disk_mgr s' = disk_mgr s /\ disk_calls s' = disk_calls s /\
      (forall j, j ∉ i :: rest -> frame_table s' !!! j = frame_table s !!! j) /\
      (forall q, buf_map s !! q = None -> buf_map s' !! q = None) /\
      (forall x, x ∈ free (pol_base (replacement_pol s)) ->
                 x ∈ free (pol_base (replacement_pol s')))).
    { intros Hr. destruct (IH _ Hr) as (? & ? & Hfr & ? & ?).
      repeat split; try done.
      intros j Hj. apply Hfr. by apply not_elem_of_cons in Hj as [_ ?]. }
    destruct (targets fid (frame_table s !!! i)); [|by apply Hskip].
    destruct (0 <? pin_count (frame_table s !!! i)); [by simplify_eq|].
    destruct (buf_map s !! page_id (frame_table s !!! i)); [|by simplify_eq].
    destruct (IH _ Hrun) as (Hd & Hc & Hfr & Hm & Hfree).
    repeat split; try done.
    + intros j Hj. apply not_elem_of_cons in Hj as [Hne Hj].
      rewrite (Hfr j Hj). cbn. by rewrite list_lookup_total_insert_ne.
    + intros q Hq. apply Hm. cbn.
      rewrite lookup_delete. by case_decide.
    + intros x Hx. apply Hfree. cbn. rewrite free_freeFrame.
      apply elem_of_app. by left.
Qed.

Lemma targets_in_range fid i s :
  targets fid (frame_table s !!! i) = true -> (i < length (frame_table s))%nat.
Proof.
  intros Ht. destruct (decide (i < length (frame_table s))%nat); [done|].
  rewrite list_lookup_total_alt, lookup_ge_None_2 in Ht by lia. done.
Qed.

Lemma was_dropped_here fid i rest s r s' :
  i ∉ rest -> targets fid (frame_table s !!! i) = true ->
  removeFile_loop fid rest (dropped i s) = (r, s') ->
  was_dropped i (frame_table s !!! i) s'.
Proof.
  intros Hi Ht Hrun.
  destruct (removeFile_loop_frame _ _ _ _ _ Hrun) as (_ & _ & Hfr & Hm & Hfree).
  unfold was_dropped. rewrite (Hfr i Hi). cbn.
  rewrite list_lookup_total_insert_eq by (by eapply targets_in_range).
  repeat split; try done.
  - apply Hm. cbn. apply lookup_delete_eq.
  - apply Hfree. cbn. rewrite free_freeFrame. apply elem_of_app. right. by left.
Qed.

Lemma removeFile_loop_pinned fid idxs s pid s' :
  NoDup idxs ->
  removeFile_loop fid idxs s = (Throw (PagePinnedBufMgr pid), s') ->
  exists pre k post, idxs = pre ++ k :: post /\
    targets fid (frame_table s !!! k) = true /\
    0 < pin_count (frame_table s !!! k) /\
    page_id (frame_table s !!! k) = pid /\
    forall i, i ∈ pre -> targets fid (frame_table s !!! i) = true ->
      pin_count (frame_table s !!! i) <= 0 /\
      was_dropped i (frame_table s !!! i) s'.
Proof.
  revert s. induction idxs as [|i rest IH]; intros s Hnd Hrun.
  - cbn in Hrun. unfold ret in Hrun. by simplify_eq.
  - apply NoDup_cons in Hnd as [Hi Hnd].
    rewrite removeFile_loop_cons in Hrun. cbn zeta in Hrun.
    destruct (targets fid (frame_table s !!! i)) eqn:Ht.
    + destruct (0 <? pin_count (frame_table s !!! i)) eqn:Hpin.
      * simplify_eq. exists [], i, rest.
        split; [done|]. split; [done|]. split; [by apply Z.ltb_lt|].
        split; [done|]. by intros ? ?%elem_of_nil.
      * destruct (buf_map s !! page_id (frame_table s !!! i)) eqn:Hm;
          [|by simplify_eq].
        destruct (IH _ Hnd Hrun)
          as (pre & k & post & -> & Hk1 & Hk2 & Hk3 & Hpre).
        assert (Hother : forall j, j <> i ->
                  frame_table (dropped i s) !!! j = frame_table s !!! j).
        { intros j Hj. cbn. by rewrite list_lookup_total_insert_ne. }
        assert (Hik : k <> i).
        { intros ->. apply Hi, elem_of_app. right. by left. }
        rewrite Hother in Hk1, Hk2, Hk3 by done.
        exists (i :: pre), k, post.
        split; [done|]. split; [done|]. split; [done|]. split; [done|].
        intros j Hj Htj. apply elem_of_cons in Hj as [->|Hin].
        -- split; [by apply Z.ltb_ge in Hpin|].
           by eapply was_dropped_here.
        -- assert (j <> i).
           { intros ->. apply Hi, elem_of_app. by left. }
           rewrite <- (Hother j) in Htj by done.
           specialize (Hpre j Hin Htj). by rewrite Hother in Hpre.
    + destruct (IH _ Hnd Hrun)
        as (pre & k & post & -> & Hk1 & Hk2 & Hk3 & Hpre).
      exists (i :: pre), k, post.
      split; [done|]. split; [done|]. split; [done|]. split; [done|].
      intros j Hj Htj. apply elem_of_cons in Hj as [->|Hin]; [congruence|].
      by apply Hpre.
Qed.

Lemma seq_split_at n pre k post :
  seq 0 n = pre ++ k :: post -> (k < n)%nat /\ forall i, i ∈ pre <-> (i < k)%nat.
Proof.
  intros Heq.
  assert (Hk : k = length pre).
  { assert (Hl : seq 0 n !! length pre = Some k)
      by (rewrite Heq; apply list_lookup_middle; done).
    apply lookup_seq in Hl. lia. }
  assert (Hlen : length (seq 0 n) = (length pre + S (length post))%nat)
    by (rewrite Heq, length_app; done).
  rewrite length_seq in Hlen.
  assert (Hpre : pre = seq 0 k).
  { assert (Ht : take k (seq 0 n) = pre)
      by (rewrite Heq, Hk; apply take_app_length).
    rewrite <- Ht, take_seq. f_equal. lia. }
  split; [lia|]. intros i. rewrite Hpre, elem_of_seq. lia.
Qed.

(** X31.  When [removeFile(fid)] throws PagePinnedBufMgr, the page it names
    sits in a valid pinned frame [k] of the file, and [k] is the first such
    frame in index order: every valid frame of the file at a smaller index
    was unpinned.  Each of those frames has by then had its [valid], [dirty]
    and [pin_count] cleared by the loop, its page is gone from the map and
    its index is in the free list of the policy, so the state is no longer
    the one before the call.  The disk manager was not called.  Nothing is
    said of the [page_id] of those frames. *)
Theorem removeFile_pinned_partial fid s pid s' :
  removeFile fid s = (Throw (PagePinnedBufMgr pid), s') ->
  exists k, (k < BUF_SIZE)%nat /\
    valid (frame_table s !!! k) = true /\
    file_id (page_id (frame_table s !!! k)) = fid /\
    0 < pin_count (frame_table s !!! k) /\
    page_id (frame_table s !!! k) = pid /\
    (forall i, (i < k)%nat ->
       valid (frame_table s !!! i) = true ->
       file_id (page_id (frame_table s !!! i)) = fid ->
       pin_count (frame_table s !!! i) <= 0 /\
       valid (frame_table s' !!! i) = false /\
       dirty (frame_table s' !!! i) = false /\
       pin_count (frame_table s' !!! i) = 0 /\
       buf_map s' !! page_id (frame_table s !!! i) = None /\
       i ∈ free (pol_base (replacement_pol s')) /\
       s' <> s) /\
    disk_calls s' = disk_calls s /\ disk_mgr s' = disk_mgr s.
Proof.
  unfold removeFile, bind. intros Hrun.
  destruct (removeFile_loop fid (seq 0 BUF_SIZE) s) as [[[]| e |] s1] eqn:Hloop.
  - unfold call_disk in Hrun.
    destruct (disk_removeFile fid (disk_mgr s1)) as [[e|[]] d']; simplify_eq.
  - simplify_eq.
    destruct (removeFile_loop_frame _ _ _ _ _ Hloop) as (Hd & Hc & _).
    destruct (removeFile_loop_pinned _ _ _ _ _ (NoDup_seq 0 BUF_SIZE) Hloop)
      as (pre & k & post & Hsplit & Hk1 & Hk2 & Hk3 & Hpre).
    apply seq_split_at in Hsplit as [Hlt Hin].
    apply andb_true_iff in Hk1 as [Hv Hfile]. apply N.eqb_eq in Hfile.
    exists k. do 5 (split; [done|]). split; [|done].
    intros i Hi Hvi Hfi.
    assert (Hti : targets fid (frame_table s !!! i) = true)
      by (unfold targets; rewrite Hvi; by apply N.eqb_eq).
    destruct (Hpre i (proj2 (Hin i) Hi) Hti) as (? & Hvi' & ? & ? & ? & ?).
    do 6 (split; [done|]).
    intros Heq. rewrite Heq, Hvi in Hvi'. discriminate.
  - simplify_eq.
Qed.

End ManagerFacts.

(** ** The invariant of the reachable states *)

Section Invariant.
Context `{Params} {D : Type} `{DiskManager D}.
Hypothesis BUF_SIZE_pos : (0 < BUF_SIZE)%nat.

Implicit Types (s : BufferManager D) (p : PageId) (f i : FrameId) (fr : Frame).

Lemma unmapped_invalid s i fr :
  wf s -> frame_table s !! i = Some fr -> valid fr = false -> unmapped i s.
Proof.
  intros Hwf Hi Hv p Hp.
  destruct (wf_map s Hwf p i Hp) as (fr' & Hi' & Hv' & _). congruence.
Qed.

Lemma unmapped_delete s i fr :
  wf s -> frame_table s !! i = Some fr ->
  unmapped i (set_buf_map (delete (page_id fr) (buf_map s)) s).
Proof.
  intros Hwf Hi p. cbn. rewrite lookup_delete. case_decide; [done|].
  intros Hp. destruct (wf_map s Hwf p i Hp) as (fr' & Hi' & _ & Hpid). congruence.
Qed.

(** *** Elementary updates that keep the invariant *)

Lemma wf_set_disk s d c : wf s -> wf (set_disk d c s).
Proof. intros []. by constructor. Qed.

Lemma wf_set_rand s r : wf s -> wf (set_rand r s).
Proof. intros []. by constructor. Qed.

Lemma wf_set_buf_pool s bp : wf s -> wf (set_buf_pool bp s).
Proof. intros []. by constructor. Qed.

Lemma wf_delete s p : wf s -> wf (set_buf_map (delete p (buf_map s)) s).
Proof.
  intros []. constructor; cbn; try done.
  intros q f. rewrite lookup_delete. case_decide; [done|]. eauto.
Qed.

(** Replacing frame [i] by a frame with the same page and validity. *)
Lemma wf_frame_keep s i fr fr' :
  wf s -> frame_table s !! i = Some fr ->
  page_id fr' = page_id fr -> valid fr' = valid fr ->
  0 <= pin_count fr' ->
  (valid fr' = false -> pin_count fr' = 0 /\ dirty fr' = false) ->
  wf (set_frame_table (<[i := fr']> (frame_table s)) s).
Proof.
  intros [Hlen Hmap Hfr Hfree Hnd Hhand] Hi Hpid Hv Hpin Hinv.
  pose proof (lookup_lt_Some _ _ _ Hi) as Hlt.
  constructor; cbn; try done.
  - by rewrite length_insert.
  - intros p f Hp. destruct (Hmap p f Hp) as (fr0 & Hf & Hv0 & Hp0).
    destruct (decide (f = i)) as [->|Hne].
    + exists fr'. rewrite list_lookup_insert_eq by done. split; [done|].
      simplify_eq. split; congruence.
    + exists fr0. by rewrite list_lookup_insert_ne.
  - intros j frj. destruct (decide (j = i)) as [->|Hne].
    + rewrite list_lookup_insert_eq by done. intros [= <-]. done.
    + rewrite list_lookup_insert_ne by done. apply Hfr.
  - intros f Hf. destruct (Hfree f Hf) as (fr0 & Hf0 & Hv0).
    destruct (decide (f = i)) as [->|Hne].
    + exists fr'. rewrite list_lookup_insert_eq by done. split; [done|].
      simplify_eq. congruence.
    + exists fr0. by rewrite list_lookup_insert_ne.
Qed.

(** Invalidating a frame no key leads to. *)
Lemma wf_invalidate s i :
  wf s -> unmapped i s ->
  wf (set_frame_table (<[i := invalidate (frame_table s !!! i)]> (frame_table s)) s).
Proof.
  intros [Hlen Hmap Hfr Hfree Hnd Hhand] Hun.
  constructor; cbn; try done.
  - by rewrite length_insert.
  - intros p f Hp. destruct (Hmap p f Hp) as (fr0 & Hf & Hv0 & Hp0).
    exists fr0. rewrite list_lookup_insert_ne; [done|].
    intros ->. by apply (Hun p).
  - intros j frj. destruct (decide (j = i)) as [->|Hne].
    + intros Hj. pose proof (lookup_lt_Some _ _ _ Hj) as Hlt.
      rewrite length_insert in Hlt.
      rewrite list_lookup_insert_eq in Hj by done. by simplify_eq.
    + rewrite list_lookup_insert_ne by done. apply Hfr.
  - intros f Hf. destruct (Hfree f Hf) as (fr0 & Hf0 & Hv0).
    destruct (decide (f = i)) as [->|Hne].
    + pose proof (lookup_lt_Some _ _ _ Hf0) as Hlt.
      eexists. rewrite list_lookup_insert_eq by done. done.
    + exists fr0. by rewrite list_lookup_insert_ne.
Qed.

(** Installing a page in a frame that no key leads to and that is not in
    the free list. *)
Lemma wf_install s i p :
  wf s -> unmapped i s -> i ∉ free (pol_base (replacement_pol s)) ->
  wf (set_frame_table (<[i := install p (frame_table s !!! i)]> (frame_table s)) s).
Proof.
  intros [Hlen Hmap Hfr Hfree Hnd Hhand] Hun Hnotfree.
  constructor; cbn; try done.
  - by rewrite length_insert.
  - intros q f Hq. destruct (Hmap q f Hq) as (fr0 & Hf & Hv0 & Hp0).
    exists fr0. rewrite list_lookup_insert_ne; [done|].
    intros ->. by apply (Hun q).
  - intros j frj. destruct (decide (j = i)) as [->|Hne].
    + intros Hj. pose proof (lookup_lt_Some _ _ _ Hj) as Hlt.
      rewrite length_insert in Hlt.
      rewrite list_lookup_insert_eq in Hj by done. by simplify_eq.
    + rewrite list_lookup_insert_ne by done. apply Hfr.
  - intros f Hf. destruct (Hfree f Hf) as (fr0 & Hf0 & Hv0).
    exists fr0. rewrite list_lookup_insert_ne; [done|]. by intros ->.
Qed.

Lemma wf_insert s i p fr :
  wf s -> frame_table s !! i = Some fr -> valid fr = true -> page_id fr = p ->
  wf (set_buf_map (<[p := i]> (buf_map s)) s).
Proof.
  intros [Hlen Hmap Hfr Hfree Hnd Hhand] Hi Hv Hp.
  constructor; cbn; try done.
  intros q f. rewrite lookup_insert. case_decide.
  - intros [= <-]. subst. eauto.
  - apply Hmap.
Qed.

(** A policy whose free list lost entries at most. *)
Lemma wf_pol s pol' :
  wf s ->
  (forall x, x ∈ free (pol_base pol') -> x ∈ free (pol_base (replacement_pol s))) ->
  NoDup (free (pol_base pol')) -> hand_ok pol' ->
  wf (set_replacement_pol pol' s).
Proof.
  intros [Hlen Hmap Hfr Hfree Hnd Hhand] Hsub Hnd' Hh.
  constructor; cbn; try done. intros f Hf. by apply Hfree, Hsub.
Qed.

Lemma hand_ok_freeFrame i pol : hand_ok pol -> hand_ok (freeFrame i pol).
Proof. intros Hh c. destruct pol; cbn; intros [= <-]; cbn; by apply Hh. Qed.

Lemma hand_ok_unpin i pol : hand_ok pol -> hand_ok (unpin i pol).
Proof. intros Hh c. destruct pol; cbn; intros [= <-]; cbn; by apply Hh. Qed.

Lemma free_unpin i pol : free (pol_base (unpin i pol)) = free (pol_base pol).
Proof. by destruct pol. Qed.

Lemma wf_freeFrame s i fr :
  wf s -> frame_table s !! i = Some fr -> valid fr = false ->
  i ∉ free (pol_base (replacement_pol s)) ->
  wf (set_replacement_pol (freeFrame i (replacement_pol s)) s).
Proof.
  intros [Hlen Hmap Hfr Hfree Hnd Hhand] Hi Hv Hnot.
  constructor; cbn; try done.
  - intros f. rewrite free_freeFrame, elem_of_app, list_elem_of_singleton.
    intros [Hf | ->]; eauto.
  - rewrite free_freeFrame. apply NoDup_app. split; [done|]. split.
    + intros x Hx ->%list_elem_of_singleton. done.
    + apply NoDup_singleton.
  - by apply hand_ok_freeFrame.
Qed.

(** A valid frame is not in the free list. *)
Lemma valid_not_free s i fr :
  wf s -> frame_table s !! i = Some fr -> valid fr = true ->
  i ∉ free (pol_base (replacement_pol s)).
Proof.
  intros Hwf Hi Hv Hin.
  destruct (wf_free s Hwf i Hin) as (fr' & Hi' & Hv'). congruence.
Qed.

(** *** What [replace] returns *)

Lemma advanceClock_hand c : (clock_hand (advanceClock c) < BUF_SIZE)%nat.
Proof. cbn. apply Nat.mod_upper_bound. lia. Qed.

(** The loop of [Clock::replace] leaves the free list and [new_page_calls]
    alone, keeps the hand inside the table, and only ever returns a valid
    frame whose pin count is not positive. *)
Lemma Clock_replace_loop_spec fuel ft c fc r c' :
  Clock_replace_loop fuel ft c fc = (r, c') ->
  (clock_hand c < BUF_SIZE)%nat ->
  free (c_base c') = free (c_base c) /\
  new_page_calls (c_base c') = new_page_calls (c_base c) /\
  (clock_hand c' < BUF_SIZE)%nat /\
  forall f, r = Ok f ->
    (f < BUF_SIZE)%nat /\ pin_count (ft !!! f) <= 0 /\ valid (ft !!! f) = true.
Proof.
  revert c fc. induction fuel as [|fuel IH]; intros c fc Hrun Hhand.
  - cbn in Hrun. by simplify_eq.
  - cbn [Clock_replace_loop] in Hrun. cbn zeta in Hrun.
    destruct (0 <? pin_count (ft !!! clock_hand c)) eqn:Hpin.
    { destruct (IH _ _ Hrun (advanceClock_hand c)) as (? & ? & ? & ?). done. }
    apply Z.ltb_ge in Hpin.
    destruct (valid (ft !!! clock_hand c)) eqn:Hv.
    + destruct (ref_table c !!! clock_hand c : bool).
      * destruct (Z.of_nat BUF_SIZE <=? fc).
        -- simplify_eq. pose proof (advanceClock_hand (set_ref (clock_hand c) false c)).
           done.
        -- destruct (IH _ _ Hrun (advanceClock_hand _)) as (? & ? & ? & ?). done.
      * simplify_eq. cbn. split; [done|]. split; [done|].
        split; [apply Nat.mod_upper_bound; lia|].
        intros f [= <-]. by rewrite Hv.
    + destruct (Z.of_nat BUF_SIZE <=? fc).
      * by simplify_eq.
      * by apply (IH _ _ Hrun).
Qed.

Lemma Random_draw_loop_spec fuel ft rnd rand_num c rand_num' c' rnd' :
  Random_draw_loop fuel ft rnd rand_num c = Some (rand_num', c', rnd') ->
  (rand_num < BUF_SIZE)%nat -> (c <= BUF_SIZE / 2)%nat ->
  (rand_num' < BUF_SIZE)%nat /\ (c' <= BUF_SIZE / 2)%nat.
Proof.
  revert rnd rand_num c. induction fuel as [|fuel IH]; intros rnd rn c Hrun Hrn Hc.
  - cbn [Random_draw_loop] in Hrun.
    destruct (negb (pin_count (ft !!! rn) =? 0) && (c <? BUF_SIZE / 2)%nat);
      by simplify_eq.
  - cbn [Random_draw_loop] in Hrun.
    destruct (negb (pin_count (ft !!! rn) =? 0) && (c <? BUF_SIZE / 2)%nat) eqn:E;
      [|by simplify_eq].
    apply andb_true_iff in E as [_ Hlt]. apply Nat.ltb_lt in Hlt.
    cbn [std_rand] in Hrun. eapply IH; [exact Hrun| |lia].
    apply Nat.mod_upper_bound. lia.
Qed.

(** The draw loop ends within [BUF_SIZE/2] rounds. *)
Lemma Random_draw_loop_terminates fuel ft rnd rand_num c :
  (BUF_SIZE / 2 - c <= fuel)%nat ->
  is_Some (Random_draw_loop fuel ft rnd rand_num c).
Proof.
  revert rnd rand_num c. induction fuel as [|fuel IH]; intros rnd rn c Hfuel.
  - cbn [Random_draw_loop].
    destruct (negb (pin_count (ft !!! rn) =? 0)); cbn [andb]; [|by eauto].
    destruct (c <? BUF_SIZE / 2)%nat eqn:E; [|by eauto].
    apply Nat.ltb_lt in E. lia.
  - cbn [Random_draw_loop].
    destruct (negb (pin_count (ft !!! rn) =? 0) && (c <? BUF_SIZE / 2)%nat) eqn:E;
      [|by eauto].
    apply andb_true_iff in E as [_ Hlt]. apply Nat.ltb_lt in Hlt.
    cbn [std_rand]. apply IH. lia.
Qed.

Lemma Random_scan_spec ft idxs r res r' :
  Random_scan ft idxs r = (res, r') ->
  free (r_base r') = free (r_base r) /\
  new_page_calls (r_base r') = new_page_calls (r_base r) /\
  forall f, res = Ok f -> f ∈ idxs /\ pin_count (ft !!! f) = 0.
Proof.
  induction idxs as [|i rest IH]; cbn; intros Hrun.
  - by simplify_eq.
  - destruct (pin_count (ft !!! i) =? 0) eqn:E.
    + simplify_eq. split; [done|]. split; [done|].
      intros f [= <-]. split; [by left|by apply Z.eqb_eq].
    + destruct (IH Hrun) as (? & ? & Hf). split; [done|]. split; [done|].
      intros f Hres. destruct (Hf f Hres). split; [by right|done].
Qed.

(** [replace] either pops the front of the free list, or finds the free
    list empty, leaves it empty and returns an index of the table. *)
Lemma replace_spec fuel ft rnd pol r pol' rnd' :
  replace fuel ft rnd pol = (r, pol', rnd') -> hand_ok pol ->
  hand_ok pol' /\
  new_page_calls (pol_base pol') = new_page_calls (pol_base pol) /\
  ((exists f, free (pol_base pol) = f :: free (pol_base pol') /\ r = Ok f) \/
   (free (pol_base pol) = [] /\ free (pol_base pol') = [] /\
    forall f, r = Ok f -> (f < BUF_SIZE)%nat)).
Proof.
  intros Hrun Hh. destruct pol as [c|rs]; cbn in Hrun.
  - unfold Clock_replace in Hrun.
    destruct (free (c_base c)) as [|x rest] eqn:Hfree.
    + destruct (Clock_replace_loop fuel ft c 0) as [res c1] eqn:Hloop.
      simplify_eq.
      destruct (Clock_replace_loop_spec _ _ _ _ _ _ Hloop (Hh c eq_refl))
        as (Hf & Hn & Hhand & Hres).
      split; [by intros ? [= <-]|]. split; [done|]. right. cbn.
      rewrite Hf, Hfree. repeat split; try done. intros f Hf'.
      by destruct (Hres f Hf').
    + simplify_eq. split; [intros ? [= <-]; cbn; by apply Hh|].
      split; [done|]. left. cbn. rewrite Hfree. eauto.
  - unfold Random_replace in Hrun.
    destruct (free (r_base rs)) as [|x rest] eqn:Hfree.
    + cbn in Hrun.
      destruct (Random_draw_loop fuel ft _ _ 0) as [[[rn c] rnd1]|] eqn:Hloop.
      * apply Random_draw_loop_spec in Hloop as [Hrn Hc];
          [|apply Nat.mod_upper_bound; lia|lia].
        destruct (c =? BUF_SIZE)%nat.
        -- destruct (Random_scan ft (seq 0 BUF_SIZE) rs) as [res r1] eqn:Hscan.
           simplify_eq. apply Random_scan_spec in Hscan as (Hf & Hn & Hres).
           split; [done|]. split; [done|]. right. cbn. rewrite Hf, Hfree.
           repeat split; try done. intros f Hf'.
           destruct (Hres f Hf') as [Hin _]. apply elem_of_seq in Hin. lia.
        -- simplify_eq. split; [done|]. split; [done|]. right. cbn.
           rewrite Hfree. repeat split; try done. by intros f [= <-].
      * simplify_eq. split; [done|]. split; [done|]. right. cbn.
        rewrite Hfree. done.
    + simplify_eq. split; [done|]. split; [done|]. left. cbn. rewrite Hfree. eauto.
Qed.

(** [pol_replace] keeps the invariant, and the frame it hands out is in the
    table and no longer in the free list. *)
Lemma pol_replace_wf fuel s r s' :
  wf s -> pol_replace fuel s = (r, s') ->
  wf s' /\
  frame_table s' = frame_table s /\ buf_map s' = buf_map s /\
  forall f, r = Ok f ->
    (f < BUF_SIZE)%nat /\ f ∉ free (pol_base (replacement_pol s')).
Proof.
  intros Hwf Hrun. unfold pol_replace in Hrun.
  destruct (replace fuel (frame_table s) (rand s) (replacement_pol s))
    as [[res pol'] rnd'] eqn:Hrep.
  simplify_eq.
  destruct (replace_spec _ _ _ _ _ _ _ Hrep (wf_hand s Hwf)) as (Hh & _ & Hcase).
  pose proof (wf_free_nodup s Hwf) as Hnd.
  destruct Hcase as [(f & Hfree & ->) | (Hfree & Hfree' & Hres)].
  - rewrite Hfree in Hnd. apply NoDup_cons in Hnd as [Hnot Hnd].
    split.
    + apply wf_set_rand, wf_pol; try done.
      intros x Hx. rewrite Hfree. by right.
    + split; [done|]. split; [done|]. intros ? [= <-]. split; [|done].
      destruct (wf_free s Hwf f) as (fr & Hf & _); [rewrite Hfree; by left|].
      apply lookup_lt_Some in Hf. by rewrite (wf_length s Hwf) in Hf.
  - split.
    + apply wf_set_rand, wf_pol; try done.
      * rewrite Hfree'. by intros ? ?%elem_of_nil.
      * rewrite Hfree'. constructor.
    + split; [done|]. split; [done|]. intros f Hf. split; [by apply Hres|].
      cbn. rewrite Hfree'. by intros ?%elem_of_nil.
Qed.

Lemma wp_bind {A B} (m : M A) (k : A -> M B) Q s :
  wp m (fun a => wp (k a) Q) s -> wp (bind m k) Q s.
Proof. unfold wp, bind. by destruct (m s) as [[a|e|] s']. Qed.

Lemma wp_cut {A B} (m : M A) (k : A -> M B) (Q' : A -> BufferManager D -> Prop) Q s :
  wp m Q' s -> (forall a s', Q' a s' -> wp (k a) Q s') -> wp (bind m k) Q s.
Proof.
  intros Hm Hk. apply wp_bind. unfold wp in *.
  destruct (m s) as [[a|e|] s']; try done. by apply Hk.
Qed.

Lemma wp_ret {A} (a : A) Q s : Q a s -> wp (ret a) Q s.
Proof. done. Qed.

Lemma wp_throw {A} e (Q : A -> BufferManager D -> Prop) s :
  wf s -> wp (throw e) Q s.
Proof. done. Qed.

Lemma wp_modify g (Q : unit -> BufferManager D -> Prop) s :
  Q tt (g s) -> wp (modify g) Q s.
Proof. done. Qed.

Lemma wp_modify_frame i g (Q : unit -> BufferManager D -> Prop) s :
  Q tt (set_frame_table (<[i := g (frame_table s !!! i)]> (frame_table s)) s) ->
  wp (modify_frame i g) Q s.
Proof. done. Qed.

Lemma wp_pol_update g (Q : unit -> BufferManager D -> Prop) s :
  Q tt (set_replacement_pol (g (replacement_pol s)) s) ->
  wp (pol_update g) Q s.
Proof. done. Qed.

Lemma wp_get_frame i Q s : Q (frame_table s !!! i) s -> wp (get_frame i) Q s.
Proof. done. Qed.

Lemma wp_contains p Q s :
  Q (bool_decide (is_Some (buf_map s !! p))) s -> wp (BufferMap_contains p) Q s.
Proof. done. Qed.

Lemma wp_get p Q s :
  wf s -> (forall f, buf_map s !! p = Some f -> Q f s) -> wp (BufferMap_get p) Q s.
Proof.
  intros Hwf HQ. unfold wp, BufferMap_get.
  destruct (buf_map s !! p); [by apply HQ|done].
Qed.

Lemma wp_remove p (Q : unit -> BufferManager D -> Prop) s :
  wf s ->
  (is_Some (buf_map s !! p) -> Q tt (set_buf_map (delete p (buf_map s)) s)) ->
  wp (BufferMap_remove p) Q s.
Proof.
  intros Hwf HQ. unfold BufferMap_remove. apply wp_bind, wp_contains.
  case_bool_decide; cbn [negb]; [by apply wp_modify, HQ|by apply wp_throw].
Qed.

Lemma wp_insert p f (Q : unit -> BufferManager D -> Prop) s :
  wf s ->
  (buf_map s !! p = None -> Q tt (set_buf_map (<[p := f]> (buf_map s)) s)) ->
  wp (BufferMap_insert p f) Q s.
Proof.
  intros Hwf HQ. unfold BufferMap_insert. apply wp_bind, wp_contains.
  case_bool_decide as Hc; [by apply wp_throw|].
  apply wp_modify, HQ. destruct (buf_map s !! p) eqn:E; [|done].
  destruct Hc. eauto.
Qed.

Lemma wp_call_disk {A} c (op : D -> (DiskExn + A) * D) Q s :
  wf s -> (forall d a, Q a (set_disk d c s)) -> wp (call_disk c op) Q s.
Proof.
  intros Hwf HQ. unfold wp, call_disk.
  destruct (op (disk_mgr s)) as [[e|a] d']; [by apply wf_set_disk|apply HQ].
Qed.

Lemma wp_disk_write_from p i (Q : unit -> BufferManager D -> Prop) s :
  wf s ->
  (forall d, Q tt (set_disk d (CallWritePage p (buf_pool s !!! i)) s)) ->
  wp (disk_write_from p i) Q s.
Proof.
  intros Hwf HQ. unfold disk_write_from. apply wp_bind.
  change (wp (call_disk (CallWritePage p (buf_pool s !!! i))
                (disk_writePage p (buf_pool s !!! i))) Q s).
  apply wp_call_disk; [done|]. by intros d [].
Qed.

Lemma wp_getBufferState Q s :
  (forall st, Q st s) -> wp getBufferState Q s.
Proof. intros HQ. apply HQ. Qed.

Lemma wp_when b m (Q : unit -> BufferManager D -> Prop) s :
  (b = true -> wp m Q s) -> (b = false -> Q tt s) -> wp (when b m) Q s.
Proof. destruct b; cbn; auto. Qed.

Lemma wp_replace fuel Q s :
  wf s ->
  (forall s' f, wf s' -> frame_table s' = frame_table s ->
     buf_map s' = buf_map s -> (f < BUF_SIZE)%nat ->
     f ∉ free (pol_base (replacement_pol s')) -> Q f s') ->
  wp (pol_replace fuel) Q s.
Proof.
  intros Hwf HQ. unfold wp.
  destruct (pol_replace fuel s) as [r s'] eqn:Hrun.
  destruct (pol_replace_wf _ _ _ _ Hwf Hrun) as (Hwf' & Hft & Hmap & Hres).
  destruct r as [f| |]; try done.
  destruct (Hres f eq_refl). by apply HQ.
Qed.

Lemma pin_id f pol : pin f pol = pol.
Proof. by destruct pol as [[]|[]]. Qed.

Lemma set_replacement_pol_id s : set_replacement_pol (replacement_pol s) s = s.
Proof. by destruct s. Qed.

(** Frames reached through the map can have their pin count or dirty bit
    changed at will, as long as the count stays non-negative. *)
Lemma wf_touch s p f g :
  wf s -> buf_map s !! p = Some f ->
  (forall fr, page_id (g fr) = page_id fr /\ valid (g fr) = valid fr) ->
  (forall fr, 0 <= pin_count fr -> 0 <= pin_count (g fr)) ->
  wf (set_frame_table (<[f := g (frame_table s !!! f)]> (frame_table s)) s).
Proof.
  intros Hwf Hp Hg Hpin.
  destruct (wf_map s Hwf p f Hp) as (fr & Hf & Hv & _).
  rewrite (list_lookup_total_correct _ _ _ Hf).
  destruct (Hg fr) as [Hpid Hval].
  eapply wf_frame_keep; try done.
  - apply Hpin. by destruct (wf_frames s Hwf f fr Hf).
  - rewrite Hval, Hv. done.
Qed.

(** *** Every method keeps the invariant *)

Lemma releasePage_wf p dirty_flag s :
  wf s -> wp (releasePage p dirty_flag) (fun _ => wf) s.
Proof.
  intros Hwf. unfold releasePage.
  apply wp_bind, wp_contains.
  destruct (negb _); [by apply wp_throw|].
  apply wp_bind, wp_get; [done|]. intros f Hf.
  apply wp_bind, wp_get_frame.
  destruct (pin_count (frame_table s !!! f) =? 0) eqn:Hpin; [by apply wp_throw|].
  apply Z.eqb_neq in Hpin.
  destruct (wf_map s Hwf p f Hf) as (fr & Hfr & Hv & Hpid).
  rewrite (list_lookup_total_correct _ _ _ Hfr) in Hpin.
  pose proof (wf_frames s Hwf f fr Hfr) as [Hnn _].
  apply wp_cut with (Q' := fun _ s' =>
    wf s' /\ buf_map s' !! p = Some f /\
    pin_count (frame_table s' !!! f) = pin_count fr).
  { apply wp_when; intros _.
    - apply wp_modify_frame. split; [|split]; [| done |].
      + by eapply wf_touch.
      + cbn. rewrite list_lookup_total_insert_eq by (by eapply lookup_lt_Some).
        by rewrite (list_lookup_total_correct _ _ _ Hfr).
    - by rewrite (list_lookup_total_correct _ _ _ Hfr). }
  intros _ s1 (Hwf1 & Hf1 & Hpin1).
  destruct (wf_map s1 Hwf1 p f Hf1) as (fr1 & Hfr1 & Hv1 & Hpid1).
  apply wp_cut with (Q' := fun _ s' => wf s'); [|].
  { apply wp_modify_frame.
    rewrite (list_lookup_total_correct _ _ _ Hfr1) in *.
    eapply wf_frame_keep; try done. cbn. lia. cbn. congruence. }
  intros _ s2 Hwf2.
  apply wp_bind, wp_get_frame, wp_when; intros _; [|done].
  apply wp_pol_update, wf_pol; try done.
  - by rewrite free_unpin.
  - rewrite free_unpin. by apply wf_free_nodup.
  - apply hand_ok_unpin. exact (wf_hand s2 Hwf2).
Qed.

Lemma setDirty_wf p s : wf s -> wp (setDirty p) (fun _ => wf) s.
Proof.
  intros Hwf. unfold setDirty.
  apply wp_bind, wp_contains.
  destruct (negb _); [by apply wp_throw|].
  apply wp_bind, wp_get; [done|]. intros f Hf.
  apply wp_modify_frame. by eapply wf_touch.
Qed.

Lemma flushPage_wf p s : wf s -> wp (flushPage p) (fun _ => wf) s.
Proof.
  intros Hwf. unfold flushPage.
  apply wp_bind, wp_contains.
  destruct (negb _); [by apply wp_throw|].
  apply wp_bind, wp_get; [done|]. intros f Hf.
  apply wp_bind, wp_get_frame, wp_when; intros _; [|done].
  apply wp_bind, wp_disk_write_from; [done|]. intros d.
  apply wp_modify_frame.
  apply (wf_touch (set_disk d _ s) p f); try done.
  by apply wf_set_disk.
Qed.

Lemma createFile_wf fid s : wf s -> wp (createFile fid) (fun _ => wf) s.
Proof.
  intros Hwf. apply wp_call_disk; [done|]. intros. by apply wf_set_disk.
Qed.

Lemma wp_remove_present p f (Q : unit -> BufferManager D -> Prop) s :
  buf_map s !! p = Some f -> Q tt (set_buf_map (delete p (buf_map s)) s) ->
  wp (BufferMap_remove p) Q s.
Proof.
  intros Hp HQ. unfold BufferMap_remove. apply wp_bind, wp_contains.
  rewrite (contains_Some _ _ _ Hp). by apply wp_modify.
Qed.

(** Dropping a valid unpinned frame: its page leaves the map, the frame is
    invalidated and its index joins the free list. *)
Lemma wf_dropped_frame s f fr :
  wf s -> frame_table s !! f = Some fr -> valid fr = true ->
  wf (set_replacement_pol (freeFrame f (replacement_pol s))
        (set_frame_table (<[f := invalidate fr]> (frame_table s))
           (set_buf_map (delete (page_id fr) (buf_map s)) s))).
Proof.
  intros Hwf Hf Hv.
  pose proof (valid_not_free s f fr Hwf Hf Hv) as Hnot.
  pose proof (lookup_lt_Some _ _ _ Hf) as Hlt.
  pose proof (wf_invalidate _ f (wf_delete s (page_id fr) Hwf)
                (unmapped_delete s f fr Hwf Hf)) as Hwf2.
  cbn in Hwf2. rewrite (list_lookup_total_correct _ _ _ Hf) in Hwf2.
  eapply (wf_freeFrame _ f (invalidate fr)) in Hwf2; try done.
  cbn. by apply list_lookup_insert_eq.
Qed.

Lemma deallocatePage_wf p s : wf s -> wp (deallocatePage p) (fun _ => wf) s.
Proof.
  intros Hwf. unfold deallocatePage.
  apply wp_bind, wp_contains.
  apply wp_cut with (Q' := fun _ => wf).
  - apply wp_when; intros _; [|done].
    apply wp_bind, wp_get; [done|]. intros f Hf.
    apply wp_bind, wp_get_frame.
    destruct (0 <? pin_count (frame_table s !!! f)); [by apply wp_throw|].
    destruct (wf_map s Hwf p f Hf) as (fr & Hfr & Hv & <-).
    apply wp_bind, wp_modify_frame, wp_bind.
    apply (wp_remove_present _ f); [done|].
    apply wp_pol_update.
    rewrite (list_lookup_total_correct _ _ _ Hfr).
    exact (wf_dropped_frame s f fr Hwf Hfr Hv).
  - intros _ s' Hwf'. apply wp_call_disk; [done|]. intros. by apply wf_set_disk.
Qed.

Lemma removeFile_loop_wf fid idxs s :
  wf s -> wp (removeFile_loop fid idxs) (fun _ => wf) s.
Proof.
  revert s. induction idxs as [|i rest IH]; intros s Hwf; [done|].
  unfold wp. rewrite removeFile_loop_cons. cbn zeta.
  destruct (targets fid (frame_table s !!! i)) eqn:Ht; [|by apply IH].
  destruct (0 <? pin_count (frame_table s !!! i)); [done|].
  destruct (buf_map s !! page_id (frame_table s !!! i)); [|done].
  apply IH. unfold dropped.
  pose proof (targets_in_range _ _ _ Ht) as Hlt.
  apply list_lookup_lookup_total_lt in Hlt.
  apply (wf_dropped_frame s i _ Hwf Hlt).
  unfold targets in Ht. by apply andb_true_iff in Ht as [? _].
Qed.

Lemma removeFile_wf fid s : wf s -> wp (removeFile fid) (fun _ => wf) s.
Proof.
  intros Hwf. unfold removeFile.
  apply wp_cut with (Q' := fun _ => wf); [by apply removeFile_loop_wf|].
  intros _ s' Hwf'. apply wp_call_disk; [done|]. intros. by apply wf_set_disk.
Qed.

Lemma wf_filled {A} (a : A) s f p :
  vacant f s -> (f < BUF_SIZE)%nat ->
  wp (bind (modify_frame f (install p))
        (fun _ => bind (BufferMap_insert p f)
        (fun _ => bind (pol_update (pin f)) (fun _ => ret a))))
     (fun _ => wf) s.
Proof.
  intros (Hwf & Hun & Hnot) Hlt.
  apply wp_bind, wp_modify_frame.
  pose proof (wf_install s f p Hwf Hun Hnot) as Hwf1.
  apply wp_bind, wp_insert; [done|]. intros _.
  apply wp_bind, wp_pol_update, wp_ret.
  rewrite pin_id. cbn [replacement_pol set_buf_map].
  apply (wf_insert _ f p (install p (frame_table s !!! f))) in Hwf1;
    [exact Hwf1| |done|done].
  cbn. apply list_lookup_insert_eq. by rewrite (wf_length s Hwf).
Qed.

Lemma _allocateFrame_wp fuel s :
  wf s ->
  wp (_allocateFrame fuel) (fun f s' => vacant f s' /\ (f < BUF_SIZE)%nat) s.
Proof.
  intros Hwf. unfold _allocateFrame.
  apply wp_bind, wp_replace; [done|].
  intros s1 f Hwf1 _ _ Hlt Hnot.
  apply wp_bind, wp_get_frame.
  assert (Hf : frame_table s1 !! f = Some (frame_table s1 !!! f)).
  { apply list_lookup_lookup_total_lt. by rewrite (wf_length s1 Hwf1). }
  apply wp_cut with (Q' := fun _ s' => vacant f s').
  - apply wp_when; intros Hv.
    + apply wp_remove; [done|]. intros _. split; [by apply wf_delete|].
      split; [by apply unmapped_delete|done].
    + split; [done|]. split; [|done]. by eapply unmapped_invalid.
  - intros _ s2 (Hwf2 & Hun2 & Hnot2).
    apply wp_bind, wp_modify_frame, wp_ret.
    split; [|done]. split; [by apply wf_invalidate|]. done.
Qed.

Lemma allocatePage_wf fuel fid s :
  wf s -> wp (allocatePage fuel fid) (fun _ => wf) s.
Proof.
  intros Hwf. unfold allocatePage.
  apply wp_bind, wp_getBufferState. intros st.
  destruct (bs_unpinned st =? 0)%nat; [by apply wp_throw|].
  apply wp_bind, wp_call_disk; [done|]. intros d pid.
  eapply wp_cut; [apply _allocateFrame_wp; by apply wf_set_disk|].
  intros f s1 [Hvac Hlt]. by apply wf_filled.
Qed.

Lemma wp_read_catch pid i (Q : unit -> BufferManager D -> Prop) s :
  wf s ->
  (forall d data,
     Q tt (set_buf_pool (<[i := data]> (buf_pool (set_disk d (CallReadPage pid) s)))
             (set_disk d (CallReadPage pid) s))) ->
  wp (try_catch (disk_read_into pid i) (fun e =>
        match e with
        | DiskMgrExn InvalidFileIdDiskMgr => throw (InvalidPageIdBufMgr pid)
        | DiskMgrExn InvalidPageNumDiskMgr => throw (InvalidPageIdBufMgr pid)
        | _ => throw e
        end)) Q s.
Proof.
  intros Hwf HQ. unfold wp, try_catch, disk_read_into, bind, call_disk.
  destruct (disk_readPage pid (disk_mgr s)) as [[e|data] d'].
  - pose proof (wf_set_disk s d' (CallReadPage pid) Hwf). by destruct e.
  - apply HQ.
Qed.

Lemma getPage_wf fuel pid s : wf s -> wp (getPage fuel pid) (fun _ => wf) s.
Proof.
  intros Hwf. unfold getPage.
  apply wp_bind, wp_contains.
  destruct (bool_decide _).
  { apply wp_bind, wp_get; [done|]. intros f Hf.
    apply wp_bind, wp_modify_frame, wp_ret.
    apply (wf_touch s pid f
             (fun frame => set_pin_count (pin_count frame + 1) frame));
      try done.
    intros; cbn; lia. }
  apply wp_bind, wp_getBufferState. intros st.
  destruct (bs_unpinned st =? 0)%nat; [by apply wp_throw|].
  apply wp_bind, wp_replace; [done|].
  intros s1 f Hwf1 _ _ Hlt Hnot.
  apply wp_bind, wp_get_frame.
  assert (Hf : frame_table s1 !! f = Some (frame_table s1 !!! f)).
  { apply list_lookup_lookup_total_lt. by rewrite (wf_length s1 Hwf1). }
  set (frame := frame_table s1 !!! f) in *.
  (* write-back of a dirty evictee *)
  apply wp_cut with (Q' := fun _ s' =>
    wf s' /\ (f ∉ free (pol_base (replacement_pol s'))) /\
    exists fr, frame_table s' !! f = Some fr /\
               valid fr = valid frame /\ page_id fr = page_id frame).
  { apply wp_when; intros Hvd; [|by eauto 6].
    apply wp_bind, wp_disk_write_from; [done|]. intros d.
    apply wp_modify_frame. cbn [frame_table set_disk set_frame_table replacement_pol].
    fold frame. split; [|split; [done|]].
    - apply (wf_frame_keep (set_disk d _ s1) f frame); try done.
      + by apply wf_set_disk.
      + cbn. by destruct (wf_frames s1 Hwf1 f frame Hf).
      + cbn. apply andb_true_iff in Hvd as [Hv _]. by rewrite Hv.
    - eexists. split; [apply list_lookup_insert_eq; by eapply lookup_lt_Some|done]. }
  intros _ s2 (Hwf2 & Hnot2 & fr & Hfr & Hv & Hpid).
  (* the evictee leaves the map *)
  apply wp_cut with (Q' := fun _ s' => vacant f s').
  { apply wp_when; intros Hvalid.
    - apply wp_remove; [done|]. intros _. rewrite <- Hpid.
      split; [by apply wf_delete|]. split; [by apply unmapped_delete|done].
    - split; [done|]. split; [|done].
      apply (unmapped_invalid s2 f fr); congruence. }
  intros _ s3 (Hwf3 & Hun3 & Hnot3).
  (* read-in and installation *)
  apply wp_bind, wp_read_catch; [done|]. intros d data.
  apply wf_filled; [|done].
  split; [by apply wf_set_buf_pool, wf_set_disk|]. done.
Qed.

(** Every call of the interface keeps the invariant, whether it returns or
    throws. *)
Lemma run_call_wf fuel c s : wf s -> wp (run_call fuel c) (fun _ => wf) s.
Proof.
  intros Hwf. destruct c; cbn [run_call].
  - eapply wp_cut; [by apply allocatePage_wf|]. by intros.
  - eapply wp_cut; [by apply getPage_wf|]. by intros.
  - by apply releasePage_wf.
  - by apply setDirty_wf.
  - by apply flushPage_wf.
  - by apply deallocatePage_wf.
  - by apply createFile_wf.
  - by apply removeFile_wf.
Qed.

Lemma createFree_spec ft x :
  x ∈ createFree ft -> (x < BUF_SIZE)%nat /\ valid (ft !!! x) = false.
Proof.
  unfold createFree. intros [Hv Hin]%list_elem_of_filter.
  apply elem_of_seq in Hin. split; [lia|done].
Qed.

Lemma createFree_NoDup ft : NoDup (createFree ft).
Proof. apply NoDup_filter, NoDup_seq. Qed.

Lemma BufferManager_new_wf disk rep_type rnd junk s :
  BufferManager_new disk rep_type rnd junk = inr s -> wf s.
Proof.
  intros Hnew.
  assert (Hfree : forall x, x ∈ createFree (replicate BUF_SIZE Frame_new) ->
            exists fr, replicate BUF_SIZE Frame_new !! x = Some fr /\ valid fr = false).
  { intros x [Hlt _]%createFree_spec. exists Frame_new.
    split; [by apply lookup_replicate_2|done]. }
  assert (Hframes : forall i fr, replicate BUF_SIZE Frame_new !! i = Some fr ->
            0 <= pin_count fr /\ (valid fr = false -> pin_count fr = 0 /\ dirty fr = false)).
  { intros i fr [-> _]%lookup_replicate. done. }
  unfold BufferManager_new in Hnew.
  destruct rep_type; simplify_eq; constructor; cbn; try done.
  - apply length_replicate.
  - apply createFree_NoDup.
  - by intros c [= <-].
  - apply length_replicate.
  - apply createFree_NoDup.
Qed.

(** Every reachable state satisfies the invariant. *)
Lemma reachable_wf s : reachable s -> wf s.
Proof.
  induction 1 as [disk rt rnd junk s Hnew | s fuel c r s' _ IH Hrun Hr | s i data _ IH].
  - by eapply BufferManager_new_wf.
  - pose proof (run_call_wf fuel c s IH) as Hwp. unfold wp in Hwp.
    rewrite Hrun in Hwp. by destruct r.
  - by apply wf_set_buf_pool.
Qed.

(** For a positive [BUF_SIZE], in every state reachable through the
    interface (construction, then any calls of allocatePage, getPage,
    releasePage, setDirty, flushPage, deallocatePage, createFile and
    removeFile, returning or throwing), a frame with [valid == false] has
    [pin_count == 0] and [dirty == false].  Nothing is said of its
    [page_id]. *)
Theorem reachable_invalid_frame s i fr :
  reachable s -> frame_table s !! i = Some fr -> valid fr = false ->
  pin_count fr = 0 /\ dirty fr = false.
Proof.
  intros Hreach Hi Hv.
  by destruct (wf_frames s (reachable_wf s Hreach) i fr Hi) as [_ Hinv]; auto.
Qed.

(** In a reachable state the CLOCK policy never hands out a pinned frame:
    whether it pops the free list or stops its sweep, the frame returned by
    [Clock::replace] has [pin_count == 0]. *)
Lemma Clock_replace_unpinned s c fuel f c' :
  reachable s -> replacement_pol s = ClockPol c ->
  Clock_replace fuel (frame_table s) c = (Ok f, c') ->
  pin_count (frame_table s !!! f) = 0.
Proof.
  intros Hreach Hpol Hrun. pose proof (reachable_wf s Hreach) as Hwf.
  unfold Clock_replace in Hrun.
  destruct (free (c_base c)) as [|x rest] eqn:Hfree.
  - destruct (Clock_replace_loop_spec _ _ _ _ _ _ Hrun (wf_hand s Hwf c Hpol))
      as (_ & _ & _ & Hres).
    destruct (Hres f eq_refl) as (Hlt & Hpin & _).
    assert (Hf : frame_table s !! f = Some (frame_table s !!! f)).
    { apply list_lookup_lookup_total_lt. by rewrite (wf_length s Hwf). }
    destruct (wf_frames s Hwf f _ Hf) as [Hnn _]. lia.
  - simplify_eq.
    destruct (wf_free s Hwf f) as (fr & Hf & Hv).
    { rewrite Hpol. cbn. rewrite Hfree. by left. }
    rewrite (list_lookup_total_correct _ _ _ Hf).
    by destruct (wf_frames s Hwf f fr Hf) as [_ [? _]].
Qed.

End Invariant.

(** Random_replace never reaches its sequential scan: the draw loop stops
    with [c <= BUF_SIZE/2], which is never [BUF_SIZE].  So with an empty
    free list the method always returns the last frame drawn and never
    throws. *)
Lemma Random_replace_no_scan `{Params} fuel ft rnd r :
  (0 < BUF_SIZE)%nat -> free (r_base r) = [] ->
  (BUF_SIZE / 2 <= fuel)%nat ->
  exists f, (Random_replace fuel ft rnd r).1.1 = Ok f /\ (f < BUF_SIZE)%nat.
Proof.
  intros Hpos Hfree Hfuel. unfold Random_replace. rewrite Hfree.
  cbn [std_rand].
  destruct (Random_draw_loop_terminates Hpos fuel ft
              (mkRand (rand_seq rnd) (S (rand_pos rnd)))
              (rand_seq rnd (rand_pos rnd) mod BUF_SIZE)%nat 0) as [[[rn c] rnd'] Hloop];
    [lia|].
  rewrite Hloop.
  apply (Random_draw_loop_spec Hpos) in Hloop as [Hrn Hc];
    [|apply Nat.mod_upper_bound; lia|lia].
  assert (Hne : (c =? BUF_SIZE)%nat = false).
  { apply Nat.eqb_neq. pose proof (Nat.div_lt BUF_SIZE 2). lia. }
  rewrite Hne. cbn. eauto.
Qed.


(** Nor does the loop leave an unpinned invalid frame under the hand while
    [frames_checked] is below [BUF_SIZE]: that branch changes nothing, so
    the next iteration is the same. *)
Lemma Clock_replace_loop_invalid_frame `{Params} ft c frames_checked :
  pin_count (ft !!! clock_hand c) <= 0 ->
  valid (ft !!! clock_hand c) = false ->
  frames_checked < Z.of_nat BUF_SIZE ->
  forall fuel, (Clock_replace_loop fuel ft c frames_checked).1 = OutOfFuel.
Proof.
  intros Hpin Hv Hfc. induction fuel as [|fuel IH]; [done|].
  cbn [Clock_replace_loop]. cbn zeta.
  apply Z.ltb_ge in Hpin. rewrite Hpin, Hv.
  apply Z.leb_gt in Hfc. by rewrite Hfc.
Qed.

(** ** No method touches [new_page_calls] *)

Section Statistics.
Context `{Params} {D : Type} `{DiskManager D}.

Implicit Types (s : BufferManager D).

Lemma steady_ret {A} (a : A) : steady (ret (D := D) a).
Proof. done. Qed.

Lemma steady_throw {A} e : steady (throw (D := D) (A := A) e).
Proof. done. Qed.

Lemma steady_bind {A B} (m : M (D := D) A) (k : A -> M (D := D) B) :
  steady m -> (forall a, steady (k a)) -> steady (bind m k).
Proof.
  intros Hm Hk s. unfold bind. specialize (Hm s).
  destruct (m s) as [[a|e|] s1]; cbn in *; [|done|done].
  by rewrite Hk.
Qed.

Lemma steady_modify (g : BufferManager D -> BufferManager D) :
  (forall s, npc (g s) = npc s) -> steady (modify g).
Proof. intros Hg s. apply Hg. Qed.

Lemma steady_when b (m : M (D := D) unit) : steady m -> steady (when b m).
Proof. by destruct b. Qed.

Lemma steady_try_catch {A} (m : M (D := D) A) handler :
  steady m -> (forall e, steady (handler e)) -> steady (try_catch m handler).
Proof.
  intros Hm Hh s. unfold try_catch. specialize (Hm s).
  destruct (m s) as [[a|e|] s1]; cbn in *; [done| |done].
  by rewrite Hh.
Qed.

Lemma steady_call_disk {A} c (op : D -> (DiskExn + A) * D) :
  steady (call_disk c op).
Proof. intros s. unfold call_disk. by destruct (op (disk_mgr s)) as [[]]. Qed.

Lemma steady_BufferMap_get p : steady (BufferMap_get (D := D) p).
Proof. intros s. unfold BufferMap_get. by destruct (buf_map s !! p). Qed.

Lemma steady_BufferMap_insert p f : steady (BufferMap_insert (D := D) p f).
Proof.
  apply steady_bind; [done|]. intros []; [apply steady_throw|by apply steady_modify].
Qed.

Lemma steady_BufferMap_remove p : steady (BufferMap_remove (D := D) p).
Proof.
  apply steady_bind; [done|]. intros []; [by apply steady_modify|apply steady_throw].
Qed.

Lemma Clock_replace_loop_npc fuel ft c fc :
  new_page_calls (c_base (Clock_replace_loop fuel ft c fc).2)
  = new_page_calls (c_base c).
Proof.
  revert c fc. induction fuel as [|fuel IH]; intros c fc; [done|].
  cbn [Clock_replace_loop]. cbn zeta.
  destruct (0 <? pin_count (ft !!! clock_hand c)); [by rewrite IH|].
  destruct (valid (ft !!! clock_hand c)).
  - destruct (ref_table c !!! clock_hand c : bool); [|done].
    destruct (Z.of_nat BUF_SIZE <=? fc); [done|by rewrite IH].
  - destruct (Z.of_nat BUF_SIZE <=? fc); [done|by rewrite IH].
Qed.

Lemma replace_npc fuel ft rnd pol :
  new_page_calls (pol_base (replace fuel ft rnd pol).1.2)
  = new_page_calls (pol_base pol).
Proof.
  destruct pol as [c|r]; cbn [replace].
  - unfold Clock_replace. destruct (free (c_base c)); [|done].
    pose proof (Clock_replace_loop_npc fuel ft c 0) as Hnpc.
    by destruct (Clock_replace_loop fuel ft c 0).
  - unfold Random_replace. destruct (free (r_base r)); [|done].
    cbn [std_rand].
    destruct (Random_draw_loop _ _ _ _ _) as [[[rn c] rnd']|]; [|done].
    destruct (c =? BUF_SIZE)%nat; [|done].
    destruct (Random_scan ft (seq 0 BUF_SIZE) r) as [res r'] eqn:Hscan.
    by apply Random_scan_spec in Hscan as (_ & ? & _).
Qed.

Lemma steady_pol_replace fuel : steady (pol_replace (D := D) fuel).
Proof.
  intros s. unfold pol_replace.
  pose proof (replace_npc fuel (frame_table s) (rand s) (replacement_pol s)) as Hn.
  by destruct (replace _ _ _ _) as [[res pol'] rnd'].
Qed.

Lemma steady_pol_update g :
  (forall pol, new_page_calls (pol_base (g pol)) = new_page_calls (pol_base pol)) ->
  steady (pol_update (D := D) g).
Proof. intros Hg. apply steady_modify. intros s. apply Hg. Qed.

Lemma pin_npc f pol :
  new_page_calls (pol_base (pin f pol)) = new_page_calls (pol_base pol).
Proof. by destruct pol. Qed.

Lemma unpin_npc f pol :
  new_page_calls (pol_base (unpin f pol)) = new_page_calls (pol_base pol).
Proof. by destruct pol. Qed.

Lemma freeFrame_npc f pol :
  new_page_calls (pol_base (freeFrame f pol)) = new_page_calls (pol_base pol).
Proof. by destruct pol. Qed.

(** Breaks a method into its statements. *)
Ltac steady_step :=
  first
    [ apply steady_bind; [|intros ?]
    | apply steady_ret
    | apply steady_throw
    | apply steady_when
    | apply steady_try_catch; [|intros ?]
    | apply steady_call_disk
    | apply steady_BufferMap_get
    | apply steady_BufferMap_insert
    | apply steady_BufferMap_remove
    | apply steady_pol_replace
    | apply steady_pol_update; first [apply pin_npc|apply unpin_npc|apply freeFrame_npc]
    | apply steady_modify; done
    | done
    | match goal with
      | |- steady (if ?b then _ else _) => destruct b
      | |- steady (match ?e with _ => _ end) => destruct e
      end ].

Lemma removeFile_loop_steady fid idxs :
  steady (removeFile_loop (D := D) fid idxs).
Proof. induction idxs as [|i rest IH]; cbn [removeFile_loop]; repeat steady_step. Qed.

(** Whatever the call and whatever its outcome, [new_page_calls] is the
    same before and after: the only function that changes it,
    [incrementGetAllocCount], has no caller. *)
Lemma run_call_steady fuel c : steady (run_call (D := D) fuel c).
Proof.
  destruct c; cbn [run_call];
    unfold allocatePage, _allocateFrame, getPage, releasePage, setDirty,
      flushPage, deallocatePage, createFile, removeFile, disk_read_into,
      disk_write_from, getBufferState, get_frame, get_slot, modify_frame,
      BufferMap_contains;
    repeat steady_step; apply removeFile_loop_steady.
Qed.

End Statistics.

(** * The code at concrete inputs *)


Lemma new_on_reachable inv disk rep_type :
  rep_type <> OtherRepT ->
  reachable (H := params_with inv) (new_on (params_with inv) disk rep_type).
Proof.
  intros Hrt. apply (reachable_new disk rep_type rand_even 0). by destruct rep_type.
Qed.

Lemma fill16_reachable rep_type :
  rep_type <> OtherRepT -> reachable (H := params16) (fill16 rep_type).
Proof.
  intros Hrt. apply reachable_run_calls; [by apply new_on_reachable|].
  by destruct rep_type; vm_compute.
Qed.

Lemma fill16_released_reachable rep_type n dirty_flag :
  rep_type <> OtherRepT ->
  reachable (H := params16) (fill16_released rep_type n dirty_flag).
Proof.
  intros Hrt. apply reachable_run_calls; [by apply fill16_reachable|].
  cbn [calls_return run_call].
  pose proof (releasePage_returns (pg n) dirty_flag (fill16 rep_type)) as Hret.
  by destruct (releasePage (pg n) dirty_flag (fill16 rep_type)) as [[] ?].
Qed.

Lemma fill16_written_reachable : reachable (H := params16) fill16_written.
Proof.
  apply reachable_run_calls; [|by vm_compute].
  apply reachable_store. by apply fill16_reachable.
Qed.

Lemma two_deallocated_reachable inv :
  reachable (H := params_with inv) (two_deallocated (params_with inv)).
Proof.
  apply reachable_run_calls; [by apply new_on_reachable|]. by vm_compute.
Qed.

(** ** getPage whose read fails (C1) *)

(** In the full pool with frame 0 released, M2 holds. *)
Lemma fill16_released_M2 : M2 (fill16_released ClockT 0 false).
Proof.
  intros i fr Hi Hv.
  do 16 (destruct i as [|i];
         [vm_compute in Hi; injection Hi as <-; vm_compute; reflexivity|]).
  vm_compute in Hi. discriminate.
Qed.

(** C1, at a failing input.  The pool is full, frame 0 holds the unpinned
    clean page [pg 0] and M2 holds.  [getPage(pg 99)] asks for a page the
    disk does not have: CLOCK picks frame 0, [pg 0] is removed from the
    map, [readPage] throws InvalidPageNumDiskMgr and the method rethrows
    InvalidPageIdBufMgr.  Frame 0 is still valid and still holds [pg 0],
    which the map no longer knows: M2 is broken after the error.  From then
    on [getPage(pg 0)], for a page that is on disk, throws
    PageNotFoundBufMgr: the miss picks frame 0 again and fails to remove
    its page from the map. *)
Theorem getPage_failed_read_breaks_M2 :
  let s := fill16_released ClockT 0 false in
  let s' := (getPage (H := params16) 64 (pg 99) s).2 in
  reachable (H := params16) s /\ M2 s /\
  buf_map s !! pg 99 = None /\ buf_map s !! pg 0 = Some 0%nat /\
  (getPage (H := params16) 64 (pg 99) s).1 = Throw (InvalidPageIdBufMgr (pg 99)) /\
  frame_table s' !! 0%nat = Some (mkFrame (pg 0) 0 true false) /\
  buf_map s' !! pg 0 = None /\
  ~ M2 s' /\
  (getPage (H := params16) 64 (pg 0) s').1 = Throw (PageNotFoundBufMgr (pg 0)).
Proof.
  cbv zeta.
  split; [by apply fill16_released_reachable|].
  split; [exact fill16_released_M2|].
  do 5 (split; [by vm_compute|]).
  split; [|by vm_compute].
  intros HM2.
  specialize (HM2 0%nat (mkFrame (pg 0) 0 true false)).
  vm_compute in HM2. specialize (HM2 eq_refl eq_refl). discriminate.
Qed.

(** ** Random::replace hands out a pinned frame (C2) *)

(** C2, at a failing input.  The pool is full and only frame 1 is unpinned;
    [std::rand] returns 4, 6, 8, ..., 20, so the nine draws visit the pinned
    frames 4, 6, 8, 10, 12, 14, 0, 2, 4.  The loop gives up with
    [c = BUF_SIZE/2], the test [c == BUF_SIZE] fails, and [Random::replace]
    returns the frame drawn last, frame 4, whose pin count is 1.  Through
    the interface: [allocatePage(1)] in that state puts the new page in
    frame 4 and drops the pinned page [pg 4] from the pool. *)
Theorem Random_replace_returns_pinned :
  let s := fill16_released RandomT 1 false in
  let s' := (allocatePage (H := params16) 64 1%N s).2 in
  reachable (H := params16) s /\
  free (pol_base (replacement_pol s)) = [] /\
  pin_count (frame_table s !!! 1%nat) = 0 /\
  (pol_replace (H := params16) 64 s).1 = Ok 4%nat /\
  rand_pos (rand (pol_replace (H := params16) 64 s).2) = 9%nat /\
  frame_table s !! 4%nat = Some (mkFrame (pg 4) 1 true false) /\
  (allocatePage (H := params16) 64 1%N s).1 = Ok (4%nat, pg 16) /\
  buf_map s' !! pg 4 = None.
Proof.
  cbv zeta. split; [by apply fill16_released_reachable|]. by vm_compute.
Qed.

(** ** Clock::replace on a pool of pinned frames (C3) *)


(** ** allocatePage evicting a dirty page (C4) *)

(** C4, at a failing input.  The pool is full; frame 0 holds [pg 0], whose
    slot the client filled with the byte 7 before releasing it as dirty.
    [allocatePage(1)] takes frame 0 for the new page [pg 16].  The only
    disk call it makes is [allocatePage]: no [writePage] happens, the disk
    keeps the old empty contents of [pg 0], and the page is gone from the
    pool. *)
Theorem allocatePage_drops_dirty_page :
  let s := fill16_written in
  let s' := (allocatePage (H := params16) 64 1%N s).2 in
  reachable (H := params16) s /\
  frame_table s !! 0%nat = Some (mkFrame (pg 0) 0 true true) /\
  buf_pool s !! 0%nat = Some [Byte.x07] /\
  free (pol_base (replacement_pol s)) = [] /\
  (allocatePage (H := params16) 64 1%N s).1 = Ok (0%nat, pg 16) /\
  disk_calls s' = disk_calls s ++ [CallAllocatePage 1%N] /\
  sd_pages (disk_mgr s') !! pg 0 = Some [] /\
  frame_table s' !! 0%nat = Some (mkFrame (pg 16) 1 true false) /\
  buf_map s' !! pg 0 = None.
Proof.
  cbv zeta. split; [exact fill16_written_reachable|]. by vm_compute.
Qed.

(** ** Random::replace never scans (C5) *)

(** C5, at failing inputs.  With all sixteen frames pinned and the free
    list empty, [Random::replace] returns the frame drawn last, frame 4,
    instead of throwing InsufficientSpaceBufMgr.  With frame 1 as the only
    unpinned frame and nine draws that all hit pinned frames, it returns
    the pinned frame 4 instead of scanning the table and selecting
    frame 1. *)
Theorem Random_replace_never_scans :
  let s := fill16 RandomT in
  let t := fill16_released RandomT 1 false in
  free (pol_base (replacement_pol s)) = [] /\
  Forall (fun fr => 0 < pin_count fr) (frame_table s) /\
  (pol_replace (H := params16) 64 s).1 = Ok 4%nat /\
  free (pol_base (replacement_pol t)) = [] /\
  pin_count (frame_table t !!! 4%nat) = 1 /\
  pin_count (frame_table t !!! 1%nat) = 0 /\
  (pol_replace (H := params16) 64 t).1 = Ok 4%nat.
Proof.
  cbv zeta. split; [by vm_compute|]. split; [vm_compute; repeat constructor|].
  by vm_compute.
Qed.

(** ** The frame fields after deallocation (C6) *)

(** C6, at a failing input.  [deallocatePage] promises that the frame is
    reset, and [Frame::resetFrame] sets [page_id] to INVALID_PAGE_ID; the
    method clears [valid], [dirty] and [pin_count] by hand and leaves
    [page_id] as it was.  After two pages were allocated, released and
    deallocated, frames 0 and 1 are invalid and still carry the two
    different page identifiers [pg 0] and [pg 1]: whatever the value of
    INVALID_PAGE_ID is, the invariant of C6 does not hold in that reachable
    state. *)
Lemma invalid_frame_keeps_page_id :
  ~ exists inv : PageId,
      forall s : BufferManager SimpleDisk,
        reachable (H := params_with inv) s ->
        forall i fr, frame_table s !! i = Some fr -> valid fr = false ->
          page_id fr = INVALID_PAGE_ID (Params := params_with inv) /\
          pin_count fr = 0 /\ dirty fr = false.
Proof.
  intros [inv Hall].
  specialize (Hall _ (two_deallocated_reachable inv)).
  pose proof (Hall 0%nat (mkFrame (pg 0) 0 false false)) as H0.
  pose proof (Hall 1%nat (mkFrame (pg 1) 0 false false)) as H1.
  vm_compute in H0, H1.
  destruct (H0 eq_refl eq_refl) as [E0 _].
  destruct (H1 eq_refl eq_refl) as [E1 _].
  rewrite <- E1 in E0. discriminate.
Qed.

Lemma reachable_invalid_frame_witness :
  let s := two_deallocated params16 in
  (0 < BUF_SIZE (Params := params16))%nat /\
  reachable (H := params16) s /\
  frame_table s !! 0%nat = Some (mkFrame (pg 0) 0 false false) /\
  valid (mkFrame (pg 0) 0 false false) = false /\
  (pin_count (mkFrame (pg 0) 0 false false) = 0 /\
   dirty (mkFrame (pg 0) 0 false false) = false).
Proof.
  cbv zeta.
  assert (Hpos : (0 < BUF_SIZE (Params := params16))%nat) by (cbn; lia).
  assert (Hreach : reachable (H := params16) (two_deallocated params16))
    by apply two_deallocated_reachable.
  assert (Hf : frame_table (two_deallocated params16) !! 0%nat
               = Some (mkFrame (pg 0) 0 false false)) by (vm_compute; reflexivity).
  split; [exact Hpos|]. split; [exact Hreach|]. split; [exact Hf|].
  split; [reflexivity|].
  exact (reachable_invalid_frame (H := params16) Hpos
           (two_deallocated params16) 0%nat _ Hreach Hf eq_refl).
Defined.

(** ** removeFile stopping at a pinned page (C10) *)

Lemma two_of_three_released_reachable inv :
  reachable (H := params_with inv) (two_of_three_released (params_with inv)).
Proof.
  apply reachable_run_calls; [by apply new_on_reachable|]. by vm_compute.
Qed.

(** C10, at a failing input.  Three pages of file 1 sit in frames 0, 1 and
    2; [pg 0] was released dirty, [pg 1] clean, [pg 2] is still pinned.
    [removeFile(1)] throws PagePinnedBufMgr for [pg 2], the first pinned
    page of the file in index order.  Before the error frames 0 and 1 had
    [valid], [dirty] and [pin_count] cleared, their pages were taken out of
    the map and their indices pushed at the back of the free list, and the
    disk manager is not called: the failure is not atomic.  But the two frames
    were not reset as [removeFile] promises and [Frame::resetFrame] would
    do: they still hold [pg 0] and [pg 1], which cannot both be
    INVALID_PAGE_ID, whatever its value is. *)
Theorem removeFile_partial_keeps_page_id (inv : PageId) :
  let P := params_with inv in
  let s := two_of_three_released P in
  let s' := (removeFile (H := P) 1%N s).2 in
  reachable (H := P) s /\
  frame_table s !! 0%nat = Some (mkFrame (pg 0) 0 true true) /\
  frame_table s !! 1%nat = Some (mkFrame (pg 1) 0 true false) /\
  frame_table s !! 2%nat = Some (mkFrame (pg 2) 1 true false) /\
  (removeFile (H := P) 1%N s).1 = Throw (PagePinnedBufMgr (pg 2)) /\
  frame_table s' !! 0%nat = Some (mkFrame (pg 0) 0 false false) /\
  frame_table s' !! 1%nat = Some (mkFrame (pg 1) 0 false false) /\
  buf_map s' !! pg 0 = None /\ buf_map s' !! pg 1 = None /\
  buf_map s' !! pg 2 = Some 2%nat /\
  free (pol_base (replacement_pol s')) = seq 3 13 ++ [0%nat; 1%nat] /\
  disk_calls s' = disk_calls s /\
  ~ (page_id (frame_table s' !!! 0%nat) = INVALID_PAGE_ID (Params := P) /\
     page_id (frame_table s' !!! 1%nat) = INVALID_PAGE_ID (Params := P)).
Proof.
  cbv zeta. split; [by apply two_of_three_released_reachable|].
  do 11 (split; [by vm_compute|]).
  intros [E0 E1]. vm_compute in E0, E1. rewrite <- E1 in E0. discriminate.
Qed.

(** ** Witnesses of the general theorems *)

Lemma releasePage_contract_witness :
  let s := fill16 ClockT in
  let fr := mkFrame (pg 0) 1 true false in
  (forall f, buf_map s !! pg 0 = Some f -> is_Some (frame_table s !! f)) /\
  releasePage (pg 0) true s =
    (Ok tt,
     set_replacement_pol
       (if pin_count fr - 1 =? 0 then unpin 0%nat (replacement_pol s)
        else replacement_pol s)
       (set_frame_table
          (<[0%nat := mkFrame (page_id fr) (pin_count fr - 1) (valid fr)
                              (true || dirty fr)]> (frame_table s)) s)).
Proof.
  cbv zeta.
  assert (Hrange : forall f, buf_map (fill16 ClockT) !! pg 0 = Some f ->
                             is_Some (frame_table (fill16 ClockT) !! f)).
  { intros f Hf. vm_compute in Hf. injection Hf as <-. vm_compute. eauto. }
  assert (Hp : buf_map (fill16 ClockT) !! pg 0 = Some 0%nat)
    by (vm_compute; reflexivity).
  assert (Hf : frame_table (fill16 ClockT) !! 0%nat
               = Some (mkFrame (pg 0) 1 true false)) by (vm_compute; reflexivity).
  assert (Hne : pin_count (mkFrame (pg 0) 1 true false) <> 0) by discriminate.
  split; [exact Hrange|].
  exact (proj2 (proj2 (proj2
           (releasePage_contract (fill16 ClockT) (pg 0) true Hrange)))
           0%nat (mkFrame (pg 0) 1 true false) Hp Hf Hne).
Defined.

Lemma getPage_n_resident_witness :
  let s := fill16 ClockT in
  buf_map s !! pg 3 = Some 3%nat /\
  frame_table s !! 3%nat = Some (mkFrame (pg 3) 1 true false) /\
  1 + Z.of_nat 2 <= INT_MAX /\
  getPage_n (H := params16) 64 (pg 3) 2 s =
    ([Ok 3%nat; Ok 3%nat],
     set_frame_table
       (<[3%nat := mkFrame (pg 3) 3 true false]> (frame_table s)) s).
Proof.
  cbv zeta.
  assert (Hp : buf_map (fill16 ClockT) !! pg 3 = Some 3%nat) by (vm_compute; reflexivity).
  assert (Hf : frame_table (fill16 ClockT) !! 3%nat = Some (mkFrame (pg 3) 1 true false))
    by (vm_compute; reflexivity).
  assert (Hmax : 1 + Z.of_nat 2 <= INT_MAX) by (vm_compute; discriminate).
  split; [exact Hp|]. split; [exact Hf|]. split; [exact Hmax|].
  exact (getPage_n_resident (H := params16) 64 (pg 3) 2 (fill16 ClockT) 3%nat
           (mkFrame (pg 3) 1 true false) Hp Hf Hmax).
Defined.

Lemma removeFile_pinned_partial_witness :
  let s := fill16_released ClockT 0 false in
  let s' := (removeFile (H := params16) 1%N s).2 in
  removeFile (H := params16) 1%N s = (Throw (PagePinnedBufMgr (pg 1)), s') /\
  exists k, (k < 16)%nat /\
    page_id (frame_table s !!! k) = pg 1 /\
    disk_calls s' = disk_calls s.
Proof.
  cbv zeta.
  assert (Hrun : removeFile (H := params16) 1%N (fill16_released ClockT 0 false)
                 = (Throw (PagePinnedBufMgr (pg 1)),
                    (removeFile (H := params16) 1%N (fill16_released ClockT 0 false)).2))
    by (vm_compute; reflexivity).
  split; [exact Hrun|].
  destruct (removeFile_pinned_partial (H := params16) 1%N _ _ _ Hrun)
    as (k & Hk & _ & _ & _ & Hpid & _ & Hcalls & _).
  exists k. split; [exact Hk|]. split; [exact Hpid|exact Hcalls].
Defined.

(** ** new_page_calls is never incremented (C9) *)

(** C9, at failing inputs.  On a fresh manager with the RANDOM policy (whose
    constructor sets [new_page_calls] to 0) a successful [allocatePage]
    leaves the statistic at 0; so does a successful miss-fill by [getPage]
    of a page that is on disk and not in the pool.  ([run_call_steady]
    above is the general fact.) *)
Theorem new_page_calls_not_incremented :
  let s := new16 RandomT in
  let t := new_on params16 disk2 RandomT in
  rs_new_page_calls (getRepStats (H := params16) (replacement_pol s)) = 0 /\
  (allocatePage (H := params16) 64 1%N s).1 = Ok (0%nat, pg 0) /\
  rs_new_page_calls (getRepStats (H := params16)
    (replacement_pol (allocatePage (H := params16) 64 1%N s).2)) = 0 /\
  buf_map t !! pg 0 = None /\
  (getPage (H := params16) 64 (pg 0) t).1 = Ok 0%nat /\
  rs_new_page_calls (getRepStats (H := params16)
    (replacement_pol (getPage (H := params16) 64 (pg 0) t).2)) = 0.
Proof. cbv zeta. by vm_compute. Qed.

(** ** A frame lost by a failed getPage

    When the frame of a failed [getPage] came from the free list it is in
    no list afterwards.  Once the free list is used up the sweep of
    [Clock::replace] stops at it for good: with one frame unpinned the
    guard of [allocatePage] lets the call through, and the call never
    comes back. *)
Lemma leaked_frame_hangs_allocatePage (fuel : nat) :
  reachable (H := params16) leaked_frame /\
  (getBufferState (H := params16) leaked_frame).1
    = Ok (mkBufferState 16 15 15 1 0 (mkStats ClockT 0 0 0 0)) /\
  (allocatePage (H := params16) fuel 1%N leaked_frame).1 = OutOfFuel.
Proof.
  split.
  { apply reachable_run_calls; [by apply new_on_reachable|]. by vm_compute. }
  split; [by vm_compute|].
  unfold allocatePage, bind.
  assert (Hst : getBufferState (H := params16) leaked_frame
                = (Ok (mkBufferState 16 15 15 1 0 (mkStats ClockT 0 0 0 0)),
                   leaked_frame)) by (by vm_compute).
  rewrite Hst. cbn [bs_unpinned Nat.eqb].
  unfold call_disk.
  destruct (disk_allocatePage 1%N (disk_mgr leaked_frame)) as [[e|p] d'] eqn:Hd;
    [by vm_compute in Hd|].
  unfold _allocateFrame, bind, pol_replace.
  cbn [frame_table replacement_pol rand set_disk].
  assert (Hpol : exists c, replacement_pol leaked_frame = ClockPol c /\
                           free (c_base c) = [] /\ clock_hand c = 0%nat)
    by (vm_compute; eauto).
  destruct Hpol as (c & -> & Hfree & Hhand).
  cbn [replace]. unfold Clock_replace. rewrite Hfree.
  pose proof (Clock_replace_loop_invalid_frame (H := params16)
                (frame_table leaked_frame) c 0) as Hspin.
  rewrite Hhand in Hspin.
  specialize (Hspin ltac:(by vm_compute) ltac:(by vm_compute) ltac:(by vm_compute) fuel).
  destruct (Clock_replace_loop fuel (frame_table leaked_frame) c 0)
    as [r c'] eqn:E.
  cbn [fst] in Hspin. subst r. reflexivity.
Qed.

(** * More of the code *)

(** ** BufferMap *)

Section MapFacts.
Context `{Params} {D : Type} `{DiskManager D}.
Implicit Types (s : BufferManager D) (p q : PageId) (f : FrameId) (fr : Frame).

(** X1.  [BufferMap::insert] never overwrites.  On a key that is present it
    throws PageAlreadyLoadedBufMgr and changes nothing.  On an absent key it
    returns; afterwards [get] gives the frame just inserted, [contains] is
    true, every other key is as before, and putting the old map back gives
    the old state. *)
Theorem BufferMap_insert_contract s p f :
  match buf_map s !! p with
  | Some _ => BufferMap_insert p f s = (Throw (PageAlreadyLoadedBufMgr p), s)
  | None =>
    exists s', BufferMap_insert p f s = (Ok tt, s') /\
      BufferMap_get p s' = (Ok f, s') /\
      BufferMap_contains p s' = (Ok true, s') /\
      (forall q, q <> p -> buf_map s' !! q = buf_map s !! q) /\
      set_buf_map (buf_map s) s' = s
  end.
Proof.
  destruct (buf_map s !! p) as [g|] eqn:Hp.
  - unfold BufferMap_insert, bind. rewrite BufferMap_contains_eq.
    by rewrite (contains_Some _ _ _ Hp).
  - eexists. split.
    { unfold BufferMap_insert, bind. rewrite BufferMap_contains_eq.
      rewrite (contains_None _ _ Hp). reflexivity. }
    split; [|split; [|split]].
    + unfold BufferMap_get. cbn. by rewrite lookup_insert_eq.
    + rewrite BufferMap_contains_eq. cbn. by rewrite lookup_insert_eq.
    + intros q Hq. cbn. by rewrite lookup_insert_ne.
    + by destruct s.
Qed.

(** X2.  [BufferMap::remove] on an absent key throws PageNotFoundBufMgr and
    changes nothing.  On a present key it returns; afterwards [contains] is
    false, [get] throws PageNotFoundBufMgr, every other key is as before,
    and putting the old map back gives the old state. *)
Theorem BufferMap_remove_contract s p :
  match buf_map s !! p with
  | None => BufferMap_remove p s = (Throw (PageNotFoundBufMgr p), s)
  | Some _ =>
    exists s', BufferMap_remove p s = (Ok tt, s') /\
      BufferMap_get p s' = (Throw (PageNotFoundBufMgr p), s') /\
      BufferMap_contains p s' = (Ok false, s') /\
      (forall q, q <> p -> buf_map s' !! q = buf_map s !! q) /\
      set_buf_map (buf_map s) s' = s
  end.
Proof.
  destruct (buf_map s !! p) as [g|] eqn:Hp.
  - eexists. split.
    { unfold BufferMap_remove, bind. rewrite BufferMap_contains_eq.
      rewrite (contains_Some _ _ _ Hp). reflexivity. }
    split; [|split; [|split]].
    + unfold BufferMap_get. cbn. by rewrite lookup_delete_eq.
    + rewrite BufferMap_contains_eq. cbn. by rewrite lookup_delete_eq.
    + intros q Hq. cbn. by rewrite lookup_delete_ne.
    + by destruct s.
  - unfold BufferMap_remove, bind. rewrite BufferMap_contains_eq.
    by rewrite (contains_None _ _ Hp).
Qed.

End MapFacts.

(** ** The sweep of Clock::replace *)

Section ClockFacts.
Context `{Params}.
Hypothesis BUF_SIZE_pos : (0 < BUF_SIZE)%nat.

Lemma pos_lt h0 k : (pos h0 k < BUF_SIZE)%nat.
Proof. apply Nat.mod_upper_bound. lia. Qed.

Lemma pos_0 h0 : (h0 < BUF_SIZE)%nat -> pos h0 0 = h0.
Proof. intros. unfold pos. rewrite Nat.add_0_r. by apply Nat.mod_small. Qed.

Lemma pos_S h0 k : ((pos h0 k + 1) mod BUF_SIZE)%nat = pos h0 (S k).
Proof.
  unfold pos. rewrite Nat.Div0.add_mod_idemp_l. f_equal. lia.
Qed.

Lemma pos_wrap h0 k : (BUF_SIZE <= k)%nat -> pos h0 k = pos h0 (k - BUF_SIZE).
Proof.
  intros Hk. unfold pos.
  replace (h0 + k)%nat with (h0 + (k - BUF_SIZE) + 1 * BUF_SIZE)%nat by lia.
  apply Nat.Div0.mod_add.
Qed.

Lemma pos_cover h0 i :
  (h0 < BUF_SIZE)%nat -> (i < BUF_SIZE)%nat ->
  exists d, (d < BUF_SIZE)%nat /\ pos h0 d = i.
Proof.
  intros Hh Hi. destruct (decide (h0 <= i)%nat).
  - exists (i - h0)%nat. split; [lia|]. unfold pos.
    replace (h0 + (i - h0))%nat with i by lia. by apply Nat.mod_small.
  - exists (i + BUF_SIZE - h0)%nat. split; [lia|]. unfold pos.
    replace (h0 + (i + BUF_SIZE - h0))%nat with (i + 1 * BUF_SIZE)%nat by lia.
    rewrite Nat.Div0.mod_add. by apply Nat.mod_small.
Qed.

Lemma pos_inj h0 j k :
  (j < k)%nat -> (k < BUF_SIZE)%nat -> pos h0 j <> pos h0 k.
Proof.
  intros Hjk Hk Heq. unfold pos in Heq.
  pose proof (Nat.div_mod_eq (h0 + j) BUF_SIZE) as E1.
  pose proof (Nat.div_mod_eq (h0 + k) BUF_SIZE) as E2.
  rewrite Heq in E1.
  set (q1 := ((h0 + j) / BUF_SIZE)%nat) in *.
  set (q2 := ((h0 + k) / BUF_SIZE)%nat) in *.
  assert (Hd : (k - j = BUF_SIZE * q2 - BUF_SIZE * q1)%nat) by lia.
  destruct (decide (q2 <= q1)%nat) as [Hle|Hgt].
  - assert (BUF_SIZE * q2 <= BUF_SIZE * q1)%nat by (apply Nat.mul_le_mono_l; lia).
    lia.
  - assert (BUF_SIZE * (q1 + 1) <= BUF_SIZE * q2)%nat
      by (apply Nat.mul_le_mono_l; lia).
    lia.
Qed.

(** The loop never throws. *)
Lemma Clock_replace_loop_no_throw ft h0 fuel :
  forall k c fc,
    clock_hand c = pos h0 k -> length (ref_table c) = BUF_SIZE ->
    swept ft h0 k c -> 0 <= fc <= Z.of_nat k ->
    forall e, (Clock_replace_loop fuel ft c fc).1 <> Throw e.
Proof.
  induction fuel as [|fuel IH]; intros k c fc Hhand Hlen Hsw Hfc e; [done|].
  cbn [Clock_replace_loop]. cbn zeta.
  assert (Hk : pin_count (ft !!! clock_hand c) <= 0 ->
               (valid (ft !!! clock_hand c) = false \/
                ref_table c !!! clock_hand c = true) ->
               (Z.of_nat BUF_SIZE <=? fc) = false).
  { intros Hp Hcase. apply Z.leb_gt.
    destruct (decide (k < BUF_SIZE)%nat); [lia|]. exfalso.
    destruct (Hsw (k - BUF_SIZE)%nat) as [Hv Hr]; [lia| |].
    - rewrite <- pos_wrap by lia. by rewrite <- Hhand.
    - rewrite <- pos_wrap in Hv, Hr by lia. rewrite <- Hhand in Hv, Hr.
      destruct Hcase; congruence. }
  destruct (0 <? pin_count (ft !!! clock_hand c)) eqn:Hpin.
  - apply Z.ltb_lt in Hpin.
    apply (IH (S k)); cbn [clock_hand ref_table advanceClock set_ref].
    + rewrite Hhand. apply pos_S.
    + done.
    + intros j Hj Hp. destruct (decide (j = k)) as [->|Hne].
      * rewrite <- Hhand in Hp. lia.
      * apply Hsw; [lia|done].
    + pose proof (Z.mod_pos_bound (fc + 1) UINT32_MOD ltac:(done)).
      pose proof (Z.mod_le (fc + 1) UINT32_MOD ltac:(lia) ltac:(done)). lia.
  - apply Z.ltb_ge in Hpin.
    destruct (valid (ft !!! clock_hand c)) eqn:Hv.
    + destruct (ref_table c !!! clock_hand c : bool) eqn:Hr; [|done].
      rewrite (Hk Hpin (or_intror eq_refl)).
      assert (Hlt : (clock_hand c < length (ref_table c))%nat)
        by (rewrite Hlen, Hhand; apply pos_lt).
      apply (IH (S k)); cbn [clock_hand ref_table advanceClock set_ref].
      * rewrite Hhand. apply pos_S.
      * by rewrite length_insert.
      * intros j Hj Hp. cbn [ref_table advanceClock set_ref].
        destruct (decide (j = k)) as [->|Hne].
        -- rewrite <- Hhand. split; [done|].
           by rewrite list_lookup_total_insert_eq.
        -- destruct (Hsw j ltac:(lia) Hp) as [Hvj Hrj]. split; [done|].
           destruct (decide (clock_hand c = pos h0 j)) as [Heq|Hneq].
           ++ rewrite <- Heq. by rewrite list_lookup_total_insert_eq.
           ++ by rewrite list_lookup_total_insert_ne.
      * lia.
    + rewrite (Hk Hpin (or_introl eq_refl)). by apply (IH k).
Qed.

(** The loop returns within [d + BUF_SIZE + 1] iterations. *)
Lemma Clock_replace_loop_returns ft h0 d :
  (d < BUF_SIZE)%nat -> pin_count (ft !!! pos h0 d) <= 0 ->
  (forall i, (i < BUF_SIZE)%nat -> pin_count (ft !!! i) <= 0 ->
             valid (ft !!! i) = true) ->
  forall n k c fc fuel,
    (k + n = d + BUF_SIZE)%nat ->
    clock_hand c = pos h0 k -> length (ref_table c) = BUF_SIZE ->
    swept ft h0 k c -> 0 <= fc <= Z.of_nat k -> (n < fuel)%nat ->
    exists f c', Clock_replace_loop fuel ft c fc = (Ok f, c').
Proof.
  intros Hd Hu Hvalid.
  induction n as [|n IH]; intros k c fc fuel Hkn Hhand Hlen Hsw Hfc Hfuel;
    (destruct fuel as [|fuel]; [lia|]);
    cbn [Clock_replace_loop]; cbn zeta.
  - assert (Hhere : clock_hand c = pos h0 d).
    { rewrite Hhand, pos_wrap by lia. f_equal. lia. }
    rewrite Hhere. apply Z.ltb_ge in Hu. rewrite Hu.
    apply Z.ltb_ge in Hu.
    rewrite (Hvalid _ (pos_lt h0 d) Hu).
    destruct (Hsw d ltac:(lia) Hu) as [_ ->]. eauto.
  - assert (Hk : pin_count (ft !!! clock_hand c) <= 0 ->
                 ref_table c !!! clock_hand c = true ->
                 (Z.of_nat BUF_SIZE <=? fc) = false).
    { intros Hp Hr. apply Z.leb_gt.
      destruct (decide (k < BUF_SIZE)%nat); [lia|]. exfalso.
      destruct (Hsw (k - BUF_SIZE)%nat) as [_ Hr']; [lia| |].
      - rewrite <- pos_wrap by lia. by rewrite <- Hhand.
      - rewrite <- pos_wrap in Hr' by lia. rewrite <- Hhand in Hr'. congruence. }
    destruct (0 <? pin_count (ft !!! clock_hand c)) eqn:Hpin.
    + apply Z.ltb_lt in Hpin.
      apply (IH (S k)); cbn [clock_hand ref_table advanceClock set_ref];
        [lia| | | | |lia].
      * rewrite Hhand. apply pos_S.
      * done.
      * intros j Hj Hp. destruct (decide (j = k)) as [->|Hne].
        -- rewrite <- Hhand in Hp. lia.
        -- apply Hsw; [lia|done].
      * pose proof (Z.mod_pos_bound (fc + 1) UINT32_MOD ltac:(done)).
        pose proof (Z.mod_le (fc + 1) UINT32_MOD ltac:(lia) ltac:(done)). lia.
    + apply Z.ltb_ge in Hpin.
      assert (Hlt : (clock_hand c < BUF_SIZE)%nat)
        by (rewrite Hhand; apply pos_lt).
      rewrite (Hvalid _ Hlt Hpin).
      destruct (ref_table c !!! clock_hand c : bool) eqn:Hr; [|by eauto].
      rewrite (Hk Hpin eq_refl).
      apply (IH (S k)); cbn [clock_hand ref_table advanceClock set_ref];
        [lia| | | |lia|lia].
      * rewrite Hhand. apply pos_S.
      * by rewrite length_insert.
      * intros j Hj Hp. cbn [ref_table advanceClock set_ref].
        destruct (decide (j = k)) as [->|Hne].
        -- rewrite <- Hhand. split; [by apply Hvalid|].
           rewrite list_lookup_total_insert_eq; [done|lia].
        -- destruct (Hsw j ltac:(lia) Hp) as [Hvj Hrj]. split; [done|].
           destruct (decide (clock_hand c = pos h0 j)) as [Heq|Hneq].
           ++ rewrite <- Heq. rewrite list_lookup_total_insert_eq; [done|lia].
           ++ by rewrite list_lookup_total_insert_ne.
Qed.

(** What a successful sweep did. *)
Lemma Clock_replace_loop_effect ft fuel :
  forall c fc f c',
    Clock_replace_loop fuel ft c fc = (Ok f, c') ->
    clock_hand c' = ((f + 1) mod BUF_SIZE)%nat /\
    ref_table c' !!! f = false /\
    rep_calls (c_base c') = (rep_calls (c_base c) + 1) mod UINT64_MOD /\
    length (ref_table c') = length (ref_table c) /\
    (forall i, 0 < pin_count (ft !!! i) ->
       ref_table c' !!! i = ref_table c !!! i) /\
    (forall i, ref_table c' !!! i = true -> ref_table c !!! i = true).
Proof.
  induction fuel as [|fuel IH]; intros c fc f c' Hrun; [done|].
  cbn [Clock_replace_loop] in Hrun. cbn zeta in Hrun.
  destruct (0 <? pin_count (ft !!! clock_hand c)) eqn:Hpin.
  { by apply IH in Hrun. }
  apply Z.ltb_ge in Hpin.
  destruct (valid (ft !!! clock_hand c)).
  - destruct (ref_table c !!! clock_hand c : bool) eqn:Hr.
    + destruct (Z.of_nat BUF_SIZE <=? fc); [done|].
      apply IH in Hrun as (Hh & Hf & Hc & Hl & Hp & Ht).
      cbn [clock_hand ref_table c_base advanceClock set_ref] in *.
      split; [done|]. split; [done|]. split; [done|].
      split; [by rewrite Hl, length_insert|]. split.
      * intros i Hi. rewrite (Hp i Hi).
        apply list_lookup_total_insert_ne. intros Heq. rewrite <- Heq in Hi. lia.
      * intros i Hi. apply Ht in Hi.
        rewrite list_lookup_total_insert in Hi. by case_decide.
    + simplify_eq. cbn. done.
  - destruct (Z.of_nat BUF_SIZE <=? fc); [done|]. by apply IH in Hrun.
Qed.

(** Second chance. *)
Lemma Clock_replace_loop_second_chance ft h0 c0 fuel :
  (h0 < BUF_SIZE)%nat ->
  forall k c fc f c',
    Clock_replace_loop fuel ft c fc = (Ok f, c') ->
    clock_hand c = pos h0 k -> spared ft h0 k c0 c ->
    ref_table c0 !!! f = false \/
    (forall i, (i < BUF_SIZE)%nat -> pin_count (ft !!! i) <= 0 ->
               ref_table c0 !!! i = true).
Proof.
  intros Hh0.
  induction fuel as [|fuel IH]; intros k c fc f c' Hrun Hhand [Hold Hnew];
    [done|].
  cbn [Clock_replace_loop] in Hrun. cbn zeta in Hrun.
  assert (Hall : (BUF_SIZE <= k)%nat ->
            forall i, (i < BUF_SIZE)%nat -> pin_count (ft !!! i) <= 0 ->
                      ref_table c0 !!! i = true).
  { intros Hk i Hi Hp. destruct (pos_cover h0 i Hh0 Hi) as (d & Hd & <-).
    apply Hold; [lia|done]. }
  assert (Hhere : pin_count (ft !!! clock_hand c) <= 0 ->
            ref_table c0 !!! clock_hand c = ref_table c !!! clock_hand c \/
            (BUF_SIZE <= k)%nat).
  { intros Hp. destruct (decide (k < BUF_SIZE)%nat) as [Hk|Hk]; [left|right; lia].
    symmetry. apply Hnew. intros j Hj. rewrite Hhand. by apply pos_inj. }
  destruct (0 <? pin_count (ft !!! clock_hand c)) eqn:Hpin.
  { apply Z.ltb_lt in Hpin. apply (IH (S k)) in Hrun; [done| |].
    - cbn. rewrite Hhand. apply pos_S.
    - split.
      + intros j Hj Hp. destruct (decide (j = k)) as [->|Hne].
        * rewrite <- Hhand in Hp. lia.
        * apply Hold; [lia|done].
      + intros i Hi. cbn. apply Hnew. intros j Hj. apply Hi. lia. }
  apply Z.ltb_ge in Hpin.
  destruct (valid (ft !!! clock_hand c)).
  - destruct (ref_table c !!! clock_hand c : bool) eqn:Hr.
    + destruct (Z.of_nat BUF_SIZE <=? fc); [done|].
      apply (IH (S k)) in Hrun; [done| |].
      * cbn. rewrite Hhand. apply pos_S.
      * split.
        -- intros j Hj Hp. destruct (decide (j = k)) as [->|Hne].
           ++ rewrite <- Hhand.
              destruct (Hhere Hpin) as [->|Hk]; [done|].
              rewrite Hhand, pos_wrap by lia. apply Hold; [lia|].
              rewrite <- pos_wrap by lia. by rewrite <- Hhand.
           ++ apply Hold; [lia|done].
        -- intros i Hi. cbn [ref_table advanceClock set_ref].
           rewrite list_lookup_total_insert_ne.
           ++ apply Hnew. intros j Hj. apply Hi. lia.
           ++ rewrite Hhand. apply Hi. lia.
    + simplify_eq.
      destruct (Hhere Hpin) as [Heq|Hk]; [left; congruence|right; by apply Hall].
  - destruct (Z.of_nat BUF_SIZE <=? fc); [done|]. by apply (IH k) in Hrun.
Qed.

End ClockFacts.

Section ClockTheorems.
Context `{Params}.

(** X3.  The [throw InsufficientSpaceBufMgr] of [Clock::replace] is never
    executed.  With the hand inside the table and one reference bit per
    frame, whatever the frames hold and however long the loop runs, the call
    does not throw: [frames_checked] only counts pinned frames and is only
    tested at an unpinned frame, which the sweep reaches the first time with
    a count below [BUF_SIZE] and the second time with its reference bit
    clear. *)
Theorem Clock_replace_never_throws fuel ft c e :
  (clock_hand c < BUF_SIZE)%nat -> length (ref_table c) = BUF_SIZE ->
  (Clock_replace fuel ft c).1 <> Throw e.
Proof.
  intros Hhand Hlen. unfold Clock_replace.
  destruct (free (c_base c)); [|done].
  assert (Hpos : (0 < BUF_SIZE)%nat) by lia.
  apply (Clock_replace_loop_no_throw Hpos ft (clock_hand c) fuel 0%nat c 0).
  - by rewrite pos_0.
  - done.
  - intros j Hj. lia.
  - lia.
Qed.

(** X4.  The sweep of [Clock::replace] finds a victim within two turns of
    the hand.  When the free list is empty, some frame of the table is
    unpinned and every unpinned frame is valid, [2 * BUF_SIZE] iterations
    are enough for the call to return.  The frame returned is an unpinned
    valid frame of the table; the hand is left one past it, its reference
    bit is clear, [rep_calls] went up by one and the free list is still
    empty. *)
Theorem Clock_replace_finds_victim fuel ft c u :
  free (c_base c) = [] ->
  (clock_hand c < BUF_SIZE)%nat -> length (ref_table c) = BUF_SIZE ->
  (u < BUF_SIZE)%nat -> pin_count (ft !!! u) <= 0 ->
  (forall i, (i < BUF_SIZE)%nat -> pin_count (ft !!! i) <= 0 ->
             valid (ft !!! i) = true) ->
  (2 * BUF_SIZE <= fuel)%nat ->
  exists f c',
    Clock_replace fuel ft c = (Ok f, c') /\
    (f < BUF_SIZE)%nat /\ pin_count (ft !!! f) <= 0 /\ valid (ft !!! f) = true /\
    clock_hand c' = ((f + 1) mod BUF_SIZE)%nat /\
    ref_table c' !!! f = false /\
    rep_calls (c_base c') = (rep_calls (c_base c) + 1) mod UINT64_MOD /\
    free (c_base c') = [].
Proof.
  intros Hfree Hhand Hlen Hu Hup Hvalid Hfuel.
  assert (Hpos : (0 < BUF_SIZE)%nat) by lia.
  destruct (pos_cover Hpos (clock_hand c) u Hhand Hu) as (d & Hd & Hdu).
  rewrite <- Hdu in Hup.
  destruct (Clock_replace_loop_returns Hpos ft (clock_hand c) d Hd Hup Hvalid
              (d + BUF_SIZE)%nat 0%nat c 0 fuel) as (f & c' & Hrun).
  - lia.
  - by rewrite pos_0.
  - done.
  - intros j Hj. lia.
  - lia.
  - lia.
  - exists f, c'. unfold Clock_replace. rewrite Hfree.
    split; [done|].
    destruct (Clock_replace_loop_spec Hpos _ _ _ _ _ _ Hrun Hhand)
      as (Hf & _ & _ & Hres).
    destruct (Hres f eq_refl) as (? & ? & ?).
    destruct (Clock_replace_loop_effect Hpos ft fuel c 0 f c' Hrun)
      as (? & ? & ? & _).
    rewrite Hf, Hfree. done.
Qed.

(** X5.  The second chance of CLOCK.  When the sweep of [Clock::replace]
    returns frame [f], either the reference bit of [f] was clear when the
    call began, or the reference bit of every unpinned frame was set.  The
    sweep only clears bits, and it leaves the bits of pinned frames as they
    were. *)
Theorem Clock_replace_second_chance fuel ft c f c' :
  free (c_base c) = [] -> (clock_hand c < BUF_SIZE)%nat ->
  Clock_replace fuel ft c = (Ok f, c') ->
  (ref_table c !!! f = false \/
   forall i, (i < BUF_SIZE)%nat -> pin_count (ft !!! i) <= 0 ->
             ref_table c !!! i = true) /\
  (forall i, 0 < pin_count (ft !!! i) -> ref_table c' !!! i = ref_table c !!! i) /\
  (forall i, ref_table c' !!! i = true -> ref_table c !!! i = true).
Proof.
  intros Hfree Hhand Hrun. unfold Clock_replace in Hrun. rewrite Hfree in Hrun.
  assert (Hpos : (0 < BUF_SIZE)%nat) by lia.
  split.
  - apply (Clock_replace_loop_second_chance Hpos ft (clock_hand c) c fuel Hhand
             0%nat c 0 f c' Hrun).
    + by rewrite pos_0.
    + split; [intros j Hj; lia|done].
  - by destruct (Clock_replace_loop_effect Hpos ft fuel c 0 f c' Hrun)
      as (_ & _ & _ & _ & ? & ?).
Qed.

End ClockTheorems.

Lemma Clock_replace_never_throws_witness :
  let s := fill16_released ClockT 0 false in
  (clock_hand (clock_of s) < BUF_SIZE (Params := params16))%nat /\
  length (ref_table (clock_of s)) = BUF_SIZE (Params := params16) /\
  (Clock_replace (H := params16) 64 (frame_table s) (clock_of s)).1
    <> Throw InsufficientSpaceBufMgr.
Proof.
  cbv zeta.
  assert (Hhand : (clock_hand (clock_of (fill16_released ClockT 0 false))
                   < BUF_SIZE (Params := params16))%nat) by (vm_compute; lia).
  assert (Hlen : length (ref_table (clock_of (fill16_released ClockT 0 false)))
                 = BUF_SIZE (Params := params16)) by (vm_compute; reflexivity).
  split; [exact Hhand|]. split; [exact Hlen|].
  exact (Clock_replace_never_throws (H := params16) 64
           (frame_table (fill16_released ClockT 0 false))
           (clock_of (fill16_released ClockT 0 false))
           InsufficientSpaceBufMgr Hhand Hlen).
Defined.

Lemma fill16_released_unpinned_valid i :
  (i < BUF_SIZE (Params := params16))%nat ->
  pin_count (frame_table (fill16_released ClockT 0 false) !!! i) <= 0 ->
  valid (frame_table (fill16_released ClockT 0 false) !!! i) = true.
Proof.
  intros Hi _.
  do 16 (destruct i as [|i]; [vm_compute; reflexivity|]). cbn in Hi. lia.
Qed.

Lemma Clock_replace_finds_victim_witness :
  let s := fill16_released ClockT 0 false in
  free (c_base (clock_of s)) = [] /\
  (2 * BUF_SIZE (Params := params16) <= 64)%nat /\
  exists f c',
    Clock_replace (H := params16) 64 (frame_table s) (clock_of s) = (Ok f, c') /\
    (f < BUF_SIZE (Params := params16))%nat /\
    pin_count (frame_table s !!! f) <= 0 /\ valid (frame_table s !!! f) = true /\
    clock_hand c' = ((f + 1) mod BUF_SIZE (Params := params16))%nat /\
    ref_table c' !!! f = false /\
    rep_calls (c_base c') = (rep_calls (c_base (clock_of s)) + 1) mod UINT64_MOD /\
    free (c_base c') = [].
Proof.
  cbv zeta.
  assert (Hfree : free (c_base (clock_of (fill16_released ClockT 0 false))) = [])
    by (vm_compute; reflexivity).
  assert (Hfuel : (2 * BUF_SIZE (Params := params16) <= 64)%nat)
    by (vm_compute; lia).
  split; [exact Hfree|]. split; [exact Hfuel|].
  exact (Clock_replace_finds_victim (H := params16) 64
           (frame_table (fill16_released ClockT 0 false))
           (clock_of (fill16_released ClockT 0 false)) 0%nat Hfree
           ltac:(vm_compute; lia) ltac:(vm_compute; reflexivity)
           ltac:(vm_compute; lia) ltac:(vm_compute; discriminate)
           fill16_released_unpinned_valid Hfuel).
Defined.

Lemma Clock_replace_second_chance_witness :
  let s := fill16_released ClockT 0 false in
  let c := clock_of s in
  let c' := (Clock_replace (H := params16) 64 (frame_table s) c).2 in
  Clock_replace (H := params16) 64 (frame_table s) c = (Ok 0%nat, c') /\
  (ref_table c !!! 0%nat = false \/
   forall i, (i < BUF_SIZE (Params := params16))%nat ->
             pin_count (frame_table s !!! i) <= 0 -> ref_table c !!! i = true) /\
  (forall i, 0 < pin_count (frame_table s !!! i) ->
             ref_table c' !!! i = ref_table c !!! i) /\
  (forall i, ref_table c' !!! i = true -> ref_table c !!! i = true).
Proof.
  cbv zeta.
  assert (Hrun : Clock_replace (H := params16) 64
                   (frame_table (fill16_released ClockT 0 false))
                   (clock_of (fill16_released ClockT 0 false))
                 = (Ok 0%nat,
                    (Clock_replace (H := params16) 64
                       (frame_table (fill16_released ClockT 0 false))
                       (clock_of (fill16_released ClockT 0 false))).2))
    by (vm_compute; reflexivity).
  split; [exact Hrun|].
  exact (Clock_replace_second_chance (H := params16) 64
           (frame_table (fill16_released ClockT 0 false))
           (clock_of (fill16_released ClockT 0 false)) 0%nat _
           ltac:(vm_compute; reflexivity) ltac:(vm_compute; lia) Hrun).
Defined.

(** ** The draws of Random::replace *)

Section RandomFacts.
Context `{Params}.

(** The draw loop: what it consumed and where it stopped. *)
Lemma Random_draw_loop_trace fuel ft :
  forall rnd rand_num c rand_num' c' rnd',
    Random_draw_loop fuel ft rnd rand_num c = Some (rand_num', c', rnd') ->
    (c <= BUF_SIZE / 2)%nat ->
    rand_seq rnd' = rand_seq rnd /\
    (c <= c' <= BUF_SIZE / 2)%nat /\
    rand_pos rnd' = (rand_pos rnd + (c' - c))%nat /\
    (pin_count (ft !!! rand_num') = 0 \/ c' = (BUF_SIZE / 2)%nat) /\
    (c' = c -> rand_num' = rand_num) /\
    ((c < c')%nat ->
       pin_count (ft !!! rand_num) <> 0 /\
       rand_num' = (rand_seq rnd (rand_pos rnd' - 1) mod BUF_SIZE)%nat /\
       forall j, (rand_pos rnd <= j < rand_pos rnd' - 1)%nat ->
         pin_count (ft !!! (rand_seq rnd j mod BUF_SIZE)%nat) <> 0).
Proof.
  induction fuel as [|fuel IH]; intros rnd rn c rn' c' rnd' Hrun Hc;
    cbn [Random_draw_loop] in Hrun;
    destruct (negb (pin_count (ft !!! rn) =? 0) && (c <? BUF_SIZE / 2)%nat) eqn:E.
  - done.
  - simplify_eq. apply andb_false_iff in E.
    split; [done|]. split; [lia|]. split; [lia|]. split.
    + destruct E as [E|E].
      * left. apply negb_false_iff in E. by apply Z.eqb_eq.
      * right. apply Nat.ltb_ge in E. lia.
    + split; [done|lia].
  - apply andb_true_iff in E as [Ep Ec].
    apply negb_true_iff, Z.eqb_neq in Ep. apply Nat.ltb_lt in Ec.
    cbn [std_rand] in Hrun.
    apply IH in Hrun as (Hs & Hcc & Hp & Hstop & Heq & Hgt); [|lia].
    cbn [rand_seq rand_pos] in *.
    split; [done|]. split; [lia|]. split; [lia|]. split; [done|].
    split; [lia|]. intros _. split; [done|].
    destruct (decide (c' = S c)) as [->|Hne].
    + rewrite (Heq eq_refl). split.
      * f_equal. f_equal. lia.
      * intros j Hj. lia.
    + destruct (Hgt ltac:(lia)) as (Hfirst & Hlast & Hmid).
      split; [done|]. intros j Hj.
      destruct (decide (j = rand_pos rnd)) as [->|Hj']; [done|].
      apply Hmid. lia.
  - simplify_eq. apply andb_false_iff in E.
    split; [done|]. split; [lia|]. split; [lia|]. split.
    + destruct E as [E|E].
      * left. apply negb_false_iff in E. by apply Z.eqb_eq.
      * right. apply Nat.ltb_ge in E. lia.
    + split; [done|lia].
Qed.

(** The statistics update written out: [rep_calls], a 64-bit counter,
    goes up by one and starts over at 1 after its largest value; the entry
    of the chosen frame in [times_chosen] goes up by one; the free list and
    [new_page_calls] are not touched. *)
Lemma Random_select_stats i r :
  0 <= rep_calls (r_base r) < UINT64_MOD ->
  Random_select i r =
    mkRandom
      (mkBase (free (r_base r))
              (if rep_calls (r_base r) =? UINT64_MOD - 1 then 1
               else rep_calls (r_base r) + 1)
              (new_page_calls (r_base r)))
      (<[i := times_chosen r !!! i + 1]> (times_chosen r)).
Proof.
  intros Hr. unfold Random_select, set_rep_calls. do 2 f_equal.
  destruct (Z.eqb_spec (rep_calls (r_base r)) (UINT64_MOD - 1)) as [->|Hne].
  - reflexivity.
  - rewrite (Z.mod_small (rep_calls (r_base r) + 1)) by lia.
    destruct (Z.eqb_spec (rep_calls (r_base r) + 1) 0) as [E|_]; [lia|].
    by rewrite Z.mod_small by lia.
Qed.

(** X6.  What [Random::replace] does when the free list is empty.  It
    draws at most [BUF_SIZE/2 + 1] numbers from [std::rand] and returns the
    frame [f] of the first draw that hits a frame with [pin_count == 0];
    when none of them does it returns the frame of the last draw.  [n] is
    the number of draws that were rejected.  The call never throws.  Its
    statistics are updated: [rep_calls] becomes [rep_calls + 1], or 1 when
    it held the largest 64-bit value; [times_chosen[f]] goes up by one and
    no other entry changes; the free list stays empty and [new_page_calls]
    is not touched.  [times_chosen] is an array of [int]: the statement is
    about the calls in which no entry has reached INT_MAX. *)
Theorem Random_replace_draws fuel ft rnd r :
  (0 < BUF_SIZE)%nat -> free (r_base r) = [] -> (BUF_SIZE / 2 <= fuel)%nat ->
  0 <= rep_calls (r_base r) < UINT64_MOD ->
  (forall i, (i < BUF_SIZE)%nat -> times_chosen r !!! i < INT_MAX) ->
  exists n, (n <= BUF_SIZE / 2)%nat /\
    let f := (rand_seq rnd (rand_pos rnd + n) mod BUF_SIZE)%nat in
    Random_replace fuel ft rnd r
      = (Ok f,
         mkRandom
           (mkBase []
                   (if rep_calls (r_base r) =? UINT64_MOD - 1 then 1
                    else rep_calls (r_base r) + 1)
                   (new_page_calls (r_base r)))
           (<[f := times_chosen r !!! f + 1]> (times_chosen r)),
         mkRand (rand_seq rnd) (rand_pos rnd + n + 1)) /\
    times_chosen r !!! f + 1 <= INT_MAX /\
    (forall j, (j < n)%nat ->
       pin_count (ft !!! (rand_seq rnd (rand_pos rnd + j) mod BUF_SIZE)%nat) <> 0) /\
    (pin_count (ft !!! f) = 0 \/ n = (BUF_SIZE / 2)%nat).
Proof.
  intros Hpos Hfree Hfuel Hcalls Hchosen. unfold Random_replace. rewrite Hfree.
  cbn [std_rand].
  destruct (Random_draw_loop_terminates Hpos fuel ft
              (mkRand (rand_seq rnd) (S (rand_pos rnd)))
              (rand_seq rnd (rand_pos rnd) mod BUF_SIZE)%nat 0)
    as [[[rn c] rnd'] Hloop]; [lia|].
  rewrite Hloop.
  apply Random_draw_loop_trace in Hloop
    as (Hseq & Hc & Hp & Hstop & Hzero & Hsome); [|lia].
  cbn [rand_seq rand_pos] in *.
  assert (Hne : (c =? BUF_SIZE)%nat = false).
  { apply Nat.eqb_neq. pose proof (Nat.div_lt BUF_SIZE 2). lia. }
  rewrite Hne. exists c. split; [lia|]. cbn zeta.
  assert (Hrn : rn = (rand_seq rnd (rand_pos rnd + c) mod BUF_SIZE)%nat).
  { destruct (decide (c = 0)%nat) as [->|Hc0].
    - rewrite (Hzero eq_refl). f_equal. f_equal. lia.
    - destruct (Hsome ltac:(lia)) as (_ & -> & _). f_equal. f_equal. lia. }
  rewrite <- Hrn. split; [|split].
  - destruct rnd' as [sq ps]. cbn in Hseq, Hp. subst sq ps.
    rewrite (Random_select_stats rn r Hcalls), Hfree. do 2 f_equal. lia.
  - assert (Hlt : (rn < BUF_SIZE)%nat) by (rewrite Hrn; apply Nat.mod_upper_bound; lia).
    specialize (Hchosen rn Hlt). lia.
  - split; [|done]. intros j Hj.
    destruct (Hsome ltac:(lia)) as (Hfirst & _ & Hmid).
    destruct (decide (j = 0)%nat) as [->|Hj0].
    + by rewrite Nat.add_0_r.
    + apply Hmid. lia.
Qed.

End RandomFacts.

Lemma Random_replace_draws_witness :
  let s := fill16_released RandomT 1 false in
  (0 < BUF_SIZE (Params := params16))%nat /\
  free (r_base (random_of s)) = [] /\
  (BUF_SIZE (Params := params16) / 2 <= 64)%nat /\
  0 <= rep_calls (r_base (random_of s)) < UINT64_MOD /\
  (forall i, (i < BUF_SIZE (Params := params16))%nat ->
     times_chosen (random_of s) !!! i < INT_MAX) /\
  exists n, (n <= BUF_SIZE (Params := params16) / 2)%nat /\
    let f := (rand_seq (rand s) (rand_pos (rand s) + n)
              mod BUF_SIZE (Params := params16))%nat in
    Random_replace (H := params16) 64 (frame_table s) (rand s) (random_of s)
      = (Ok f,
         mkRandom
           (mkBase []
                   (if rep_calls (r_base (random_of s)) =? UINT64_MOD - 1 then 1
                    else rep_calls (r_base (random_of s)) + 1)
                   (new_page_calls (r_base (random_of s))))
           (<[f := times_chosen (random_of s) !!! f + 1]>
              (times_chosen (random_of s))),
         mkRand (rand_seq (rand s)) (rand_pos (rand s) + n + 1)) /\
    times_chosen (random_of s) !!! f + 1 <= INT_MAX /\
    (forall j, (j < n)%nat ->
       pin_count (frame_table s !!! (rand_seq (rand s) (rand_pos (rand s) + j)
                                     mod BUF_SIZE (Params := params16))%nat) <> 0) /\
    (pin_count (frame_table s !!! f) = 0 \/
     n = (BUF_SIZE (Params := params16) / 2)%nat).
Proof.
  cbv zeta.
  assert (Hpos : (0 < BUF_SIZE (Params := params16))%nat) by (vm_compute; lia).
  assert (Hfree : free (r_base (random_of (fill16_released RandomT 1 false))) = [])
    by (vm_compute; reflexivity).
  assert (Hfuel : (BUF_SIZE (Params := params16) / 2 <= 64)%nat)
    by (vm_compute; lia).
  assert (Hcalls : 0 <= rep_calls (r_base (random_of
                           (fill16_released RandomT 1 false))) < UINT64_MOD)
    by (vm_compute; split; [intros E; discriminate E|reflexivity]).
  assert (Hchosen : forall i, (i < BUF_SIZE (Params := params16))%nat ->
            times_chosen (random_of (fill16_released RandomT 1 false)) !!! i
            < INT_MAX).
  { intros i Hi. do 16 (destruct i as [|i]; [by vm_compute|]). cbn in Hi; lia. }
  split; [exact Hpos|]. split; [exact Hfree|]. split; [exact Hfuel|].
  split; [exact Hcalls|]. split; [exact Hchosen|].
  exact (Random_replace_draws (H := params16) 64
           (frame_table (fill16_released RandomT 1 false))
           (rand (fill16_released RandomT 1 false))
           (random_of (fill16_released RandomT 1 false))
           Hpos Hfree Hfuel Hcalls Hchosen).
Defined.

(** ** The counters, the constructor and the contracts of the methods *)

Section Counting.
Context `{Params} {D : Type} `{DiskManager D}.
Implicit Types (s : BufferManager D) (p q : PageId) (f : FrameId) (fr : Frame).

Lemma filter_all {A} (P : A -> Prop) `{!forall x, Decision (P x)} (l : list A) :
  Forall P l -> filter P l = l.
Proof.
  induction 1 as [|x l Hx _ IH]; [done|].
  rewrite filter_cons. case_decide; [by rewrite IH|done].
Qed.

Lemma filter_none {A} (P : A -> Prop) `{!forall x, Decision (P x)} (l : list A) :
  Forall (fun x => ~ P x) l -> filter P l = [].
Proof.
  induction 1 as [|x l Hx _ IH]; [done|].
  rewrite filter_cons. by case_decide.
Qed.

Lemma filter_ext_in {A} (P Q : A -> Prop)
    `{!forall x, Decision (P x)} `{!forall x, Decision (Q x)} (l : list A) :
  Forall (fun x => P x <-> Q x) l -> filter P l = filter Q l.
Proof.
  induction 1 as [|x l Hx _ IH]; [done|].
  rewrite !filter_cons, IH. repeat case_decide; tauto.
Qed.

Lemma filter_length_mono {A} (P Q : A -> Prop)
    `{!forall x, Decision (P x)} `{!forall x, Decision (Q x)} (l : list A) :
  Forall (fun x => P x -> Q x) l ->
  (length (filter P l) <= length (filter Q l))%nat.
Proof.
  induction 1 as [|x l Hx _ IH]; [done|].
  rewrite !filter_cons. repeat case_decide; cbn; try lia. tauto.
Qed.

Lemma filter_length_lt {A} (P : A -> Prop) `{!forall x, Decision (P x)}
    (l : list A) i x :
  l !! i = Some x -> ~ P x -> (length (filter P l) < length l)%nat.
Proof.
  revert i. induction l as [|y l IH]; intros i Hi Hx; [done|].
  rewrite filter_cons. pose proof (length_filter P l).
  destruct i as [|i]; cbn in Hi.
  - simplify_eq. case_decide; [done|]. cbn. lia.
  - specialize (IH i Hi Hx). case_decide; cbn; lia.
Qed.

Lemma count_frames_le (P : Frame -> bool) ft : (count_frames P ft <= BUF_SIZE)%nat.
Proof.
  unfold count_frames.
  pose proof (length_filter (fun x => P x = true) (take BUF_SIZE ft)).
  rewrite length_take in *. lia.
Qed.

Lemma take_Forall_total (P : Frame -> Prop) ft :
  (BUF_SIZE <= length ft)%nat ->
  (forall i, (i < BUF_SIZE)%nat -> P (ft !!! i)) ->
  Forall P (take BUF_SIZE ft).
Proof.
  intros Hlen Hall. apply Forall_lookup. intros i x Hi.
  pose proof (lookup_lt_Some _ _ _ Hi) as Hlt. rewrite length_take in Hlt.
  rewrite lookup_take_lt in Hi by lia.
  rewrite <- (list_lookup_total_correct _ _ _ Hi). apply Hall. lia.
Qed.


Lemma count_frames_none (P : Frame -> bool) ft :
  (BUF_SIZE <= length ft)%nat ->
  (forall i, (i < BUF_SIZE)%nat -> P (ft !!! i) = false) ->
  count_frames P ft = 0%nat.
Proof.
  intros Hlen Hall. unfold count_frames.
  rewrite filter_none; [done|].
  apply (take_Forall_total (fun fr => P fr <> true)); [done|].
  intros i Hi. rewrite (Hall i Hi). done.
Qed.

Lemma count_frames_lt (P : Frame -> bool) ft i :
  (i < BUF_SIZE)%nat -> (i < length ft)%nat -> P (ft !!! i) = false ->
  (count_frames P ft < BUF_SIZE)%nat.
Proof.
  intros Hi Hlen HP. unfold count_frames.
  assert (Hl : take BUF_SIZE ft !! i = Some (ft !!! i)).
  { rewrite lookup_take_lt by done. by apply list_lookup_lookup_total_lt. }
  pose proof (filter_length_lt (fun x => P x = true) _ i _ Hl) as Hlt.
  rewrite length_take in Hlt. rewrite HP in Hlt.
  specialize (Hlt ltac:(done)). lia.
Qed.

Lemma count_frames_mono (P Q : Frame -> bool) ft :
  (forall i fr, ft !! i = Some fr -> P fr = true -> Q fr = true) ->
  (count_frames P ft <= count_frames Q ft)%nat.
Proof.
  intros HPQ. unfold count_frames. apply filter_length_mono.
  apply Forall_lookup. intros i x Hi.
  pose proof (lookup_lt_Some _ _ _ Hi) as Hlt. rewrite length_take in Hlt.
  rewrite lookup_take_lt in Hi by lia. by apply (HPQ i).
Qed.

End Counting.

Section StateFacts.
Context `{Params} {D : Type} `{DiskManager D}.
Hypothesis BUF_SIZE_pos : (0 < BUF_SIZE)%nat.
Implicit Types (s : BufferManager D) (p q : PageId) (f : FrameId) (fr : Frame).

(** X7.  In a reachable state [getBufferState] changes nothing, and its
    counters are consistent: [total] is [BUF_SIZE], pinned and unpinned add
    up to [BUF_SIZE], a pinned frame and a dirty frame are valid frames, so
    neither count exceeds [valid], which is at most [BUF_SIZE].
    [getNumUnpinned] returns the [unpinned] counter. *)
Theorem getBufferState_counts s :
  reachable s ->
  exists st, getBufferState s = (Ok st, s) /\
    getNumUnpinned s = (Ok (bs_unpinned st), s) /\
    bs_total st = BUF_SIZE /\
    (bs_pinned st + bs_unpinned st = BUF_SIZE)%nat /\
    (bs_pinned st <= bs_valid st)%nat /\
    (bs_dirty st <= bs_valid st)%nat /\
    (bs_valid st <= BUF_SIZE)%nat /\
    replace_stats st = getRepStats (replacement_pol s).
Proof.
  intros Hreach. pose proof (reachable_wf BUF_SIZE_pos s Hreach) as Hwf.
  eexists. split; [reflexivity|]. cbn.
  split; [done|]. split; [done|].
  pose proof (count_frames_le (fun x => 0 <? pin_count x) (frame_table s)).
  split; [lia|]. split; [|split; [|split; [apply count_frames_le|done]]].
  - apply count_frames_mono. intros i fr Hi Hp. apply Z.ltb_lt in Hp.
    destruct (wf_frames s Hwf i fr Hi) as [_ Hinv].
    destruct (valid fr); [done|]. destruct Hinv; [done|lia].
  - apply count_frames_mono. intros i fr Hi Hd.
    destruct (wf_frames s Hwf i fr Hi) as [_ Hinv].
    destruct (valid fr); [done|]. destruct Hinv; [done|congruence].
Qed.


End StateFacts.

Section Contracts.
Context `{Params} {D : Type} `{DiskManager D}.
Implicit Types (s : BufferManager D) (p q : PageId) (f : FrameId) (fr : Frame).

Lemma createFree_fresh : createFree (replicate BUF_SIZE Frame_new) = seq 0 BUF_SIZE.
Proof.
  unfold createFree. apply filter_all. apply Forall_forall. intros i Hi.
  apply elem_of_seq in Hi. by rewrite lookup_total_replicate_2 by lia.
Qed.

(** X9.  The constructor.  An unknown policy type gives
    InvalidPolicyBufMgr and no object.  Otherwise every frame is reset
    (invalid, unpinned, clean, holding INVALID_PAGE_ID), the map is empty,
    the free list holds all frame indices in increasing order, no disk call
    was made, and [getBufferState] reports [BUF_SIZE] unpinned frames and
    no valid, pinned or dirty one, with a hand at 0 and no reference bit
    set.  [new_page_calls] reads 0 for RANDOM and the indeterminate start
    value for CLOCK. *)
Theorem BufferManager_new_state (disk : D) rep_type rnd junk :
  match BufferManager_new disk rep_type rnd junk with
  | inl e => rep_type = OtherRepT /\ e = InvalidPolicyBufMgr
  | inr s =>
    rep_type <> OtherRepT /\
    frame_table s = replicate BUF_SIZE (mkFrame INVALID_PAGE_ID 0 false false) /\
    buf_map s = ∅ /\
    free (pol_base (replacement_pol s)) = seq 0 BUF_SIZE /\
    disk_mgr s = disk /\ disk_calls s = [] /\ rand s = rnd /\
    getBufferState s
      = (Ok (mkBufferState BUF_SIZE 0 0 BUF_SIZE 0
               (mkStats rep_type 0
                  (match rep_type with ClockT => junk | _ => 0 end) 0 0)), s)
  end.
Proof.
  assert (Hc : forall P : Frame -> bool, P Frame_new = false ->
            count_frames P (replicate BUF_SIZE Frame_new) = 0%nat).
  { intros P HP. apply count_frames_none; [by rewrite length_replicate|].
    intros i Hi. by rewrite lookup_total_replicate_2. }
  assert (Hbits : length (filter (fun b : bool => b = true)
                    (take BUF_SIZE (replicate BUF_SIZE false))) = 0%nat).
  { rewrite filter_none; [done|]. apply Forall_take, Forall_replicate. done. }
  destruct rep_type; cbn [BufferManager_new]; [| |done].
  - split; [done|]. split; [done|]. split; [done|].
    split; [apply createFree_fresh|]. do 3 (split; [done|]).
    unfold getBufferState.
    cbn [frame_table replacement_pol getRepStats Clock_new c_base rep_calls
         new_page_calls clock_hand ref_table].
    rewrite !Hc by done. rewrite Hbits, Nat.sub_0_r. done.
  - split; [done|]. split; [done|]. split; [done|].
    split; [apply createFree_fresh|]. do 3 (split; [done|]).
    unfold getBufferState.
    cbn [frame_table replacement_pol getRepStats Random_new r_base rep_calls
         new_page_calls].
    rewrite !Hc by done. rewrite Nat.sub_0_r. done.
Qed.

Lemma setDirty_present s p f :
  buf_map s !! p = Some f ->
  setDirty p s =
    (Ok tt, set_frame_table
              (<[f := set_dirty true (frame_table s !!! f)]> (frame_table s)) s).
Proof.
  intros Hp. unfold setDirty, bind at 1. rewrite BufferMap_contains_eq.
  rewrite (contains_Some _ _ _ Hp). cbn [negb].
  unfold bind at 1, BufferMap_get at 1. by rewrite Hp.
Qed.

Lemma flushPage_present s p f :
  buf_map s !! p = Some f ->
  flushPage p s =
    when (dirty (frame_table s !!! f))
      (bind (disk_write_from p f) (fun _ => modify_frame f (set_dirty false))) s.
Proof.
  intros Hp. unfold flushPage, bind at 1. rewrite BufferMap_contains_eq.
  rewrite (contains_Some _ _ _ Hp). cbn [negb].
  unfold bind at 1, BufferMap_get at 1. by rewrite Hp.
Qed.

Lemma flushPage_dirty s p f d' :
  buf_map s !! p = Some f -> dirty (frame_table s !!! f) = true ->
  disk_writePage p (buf_pool s !!! f) (disk_mgr s) = (inr tt, d') ->
  flushPage p s =
    (Ok tt, set_frame_table
              (<[f := set_dirty false (frame_table s !!! f)]> (frame_table s))
              (set_disk d' (CallWritePage p (buf_pool s !!! f)) s)).
Proof.
  intros Hp Hd Hw. rewrite (flushPage_present s p f Hp), Hd. cbn [when].
  unfold disk_write_from, bind, get_slot, call_disk. by rewrite Hw.
Qed.

(** X10.  [flushPage]: an unknown page gives PageNotFoundBufMgr and no
    change; a resident clean page gives no disk call and no change; a
    resident dirty page is written once, with the bytes of its slot, and its
    frame is clean afterwards; when that write throws, the exception goes
    to the caller and the frame stays dirty. *)
Theorem flushPage_contract s p :
  match buf_map s !! p with
  | None => flushPage p s = (Throw (PageNotFoundBufMgr p), s)
  | Some f =>
    let fr := frame_table s !!! f in
    let data := buf_pool s !!! f in
    if dirty fr then
      match disk_writePage p data (disk_mgr s) with
      | (inl e, d') =>
        flushPage p s = (Throw (DiskMgrExn e), set_disk d' (CallWritePage p data) s)
      | (inr _, d') =>
        flushPage p s =
          (Ok tt, set_frame_table (<[f := set_dirty false fr]> (frame_table s))
                    (set_disk d' (CallWritePage p data) s))
      end
    else flushPage p s = (Ok tt, s)
  end.
Proof.
  destruct (buf_map s !! p) as [f|] eqn:Hp.
  - cbv zeta. pose proof (flushPage_present s p f Hp) as Hrun.
    destruct (dirty (frame_table s !!! f)) eqn:Hd; cbn [when] in Hrun; [|done].
    unfold disk_write_from, bind, get_slot, call_disk in Hrun.
    destruct (disk_writePage p (buf_pool s !!! f) (disk_mgr s)) as [[e|[]] d'];
      done.
  - unfold flushPage, bind. rewrite BufferMap_contains_eq.
    by rewrite (contains_None _ _ Hp).
Qed.

(** X11.  [setDirty] then [flushPage] on a resident page, with a disk that
    accepts the write: the page is written once with the bytes of its slot
    and the frame ends clean; nothing else changed.  A second [flushPage]
    then makes no disk call and changes nothing. *)
Theorem setDirty_flushPage s p f d' :
  buf_map s !! p = Some f -> (f < length (frame_table s))%nat ->
  disk_writePage p (buf_pool s !!! f) (disk_mgr s) = (inr tt, d') ->
  let s' :=
    set_frame_table
      (<[f := set_dirty false (frame_table s !!! f)]> (frame_table s))
      (set_disk d' (CallWritePage p (buf_pool s !!! f)) s) in
  bind (setDirty p) (fun _ => flushPage p) s = (Ok tt, s') /\
  flushPage p s' = (Ok tt, s').
Proof.
  intros Hp Hf Hw. cbv zeta. split.
  - unfold bind at 1. rewrite (setDirty_present s p f Hp).
    rewrite (flushPage_dirty _ p f d'); cbn [buf_map frame_table buf_pool
      disk_mgr set_frame_table]; try done.
    + rewrite list_lookup_total_insert_eq by done.
      by rewrite list_insert_insert_eq.
    + by rewrite list_lookup_total_insert_eq.
  - rewrite (flushPage_present _ p f) by done.
    cbn [frame_table set_frame_table].
    by rewrite list_lookup_total_insert_eq by done.
Qed.

Lemma deallocatePage_present s p f :
  buf_map s !! p = Some f ->
  deallocatePage p s =
    if 0 <? pin_count (frame_table s !!! f)
    then (Throw (PagePinnedBufMgr p), s)
    else call_disk (CallDeallocatePage p) (disk_deallocatePage p)
           (mkBufMgr (<[f := invalidate (frame_table s !!! f)]> (frame_table s))
              (buf_pool s) (delete p (buf_map s))
              (freeFrame f (replacement_pol s)) (disk_mgr s) (disk_calls s)
              (rand s)).
Proof.
  intros Hp. unfold deallocatePage, bind at 1. rewrite BufferMap_contains_eq.
  rewrite (contains_Some _ _ _ Hp). cbn [when].
  unfold bind at 1. unfold bind at 1, BufferMap_get at 1. rewrite Hp.
  unfold bind at 1, get_frame at 1.
  destruct (0 <? pin_count (frame_table s !!! f)); [done|].
  unfold bind at 1, modify_frame at 1, modify at 1.
  unfold bind at 1, BufferMap_remove at 1, bind at 1.
  rewrite BufferMap_contains_eq. cbn [buf_map set_frame_table].
  rewrite (contains_Some _ _ _ Hp). cbn [negb]. done.
Qed.

(** X12.  [deallocatePage]: a page that is not in the pool only costs the
    call to the disk manager.  A resident pinned page gives PagePinnedBufMgr
    before anything is changed, and the disk manager is not called.  A
    resident unpinned page loses its map entry, its frame is invalidated
    (the page identifier stays in the frame) and goes to the back of the
    free list; the disk manager is called afterwards, and when it throws the
    page has left the pool all the same. *)
Theorem deallocatePage_contract s p :
  match buf_map s !! p with
  | None =>
    deallocatePage p s
      = call_disk (CallDeallocatePage p) (disk_deallocatePage p) s
  | Some f =>
    let fr := frame_table s !!! f in
    if 0 <? pin_count fr then deallocatePage p s = (Throw (PagePinnedBufMgr p), s)
    else
      let s1 :=
        mkBufMgr (<[f := mkFrame (page_id fr) 0 false false]> (frame_table s))
          (buf_pool s) (delete p (buf_map s))
          (freeFrame f (replacement_pol s)) (disk_mgr s) (disk_calls s)
          (rand s) in
      free (pol_base (replacement_pol s1))
        = free (pol_base (replacement_pol s)) ++ [f] /\
      match disk_deallocatePage p (disk_mgr s) with
      | (inl e, d') =>
        deallocatePage p s
          = (Throw (DiskMgrExn e), set_disk d' (CallDeallocatePage p) s1)
      | (inr _, d') =>
        deallocatePage p s = (Ok tt, set_disk d' (CallDeallocatePage p) s1)
      end
  end.
Proof.
  destruct (buf_map s !! p) as [f|] eqn:Hp.
  - cbv zeta. rewrite (deallocatePage_present s p f Hp).
    destruct (0 <? pin_count (frame_table s !!! f)); [done|].
    split; [apply free_freeFrame|].
    unfold call_disk. cbn [disk_mgr].
    destruct (disk_deallocatePage p (disk_mgr s)) as [[e|[]] d']; done.
  - unfold deallocatePage, bind at 1. rewrite BufferMap_contains_eq.
    rewrite (contains_None _ _ Hp). done.
Qed.

(** X13.  A hit followed by a clean release is the identity: on a
    resident page whose frame is already pinned, [getPage] then
    [releasePage(p, false)] returns and leaves the object exactly as it
    was. *)
Theorem getPage_releasePage s fuel p f fr :
  buf_map s !! p = Some f -> frame_table s !! f = Some fr ->
  0 < pin_count fr < INT_MAX ->
  bind (getPage fuel p) (fun _ => releasePage p false) s = (Ok tt, s).
Proof.
  intros Hp Hf Hpin. unfold bind at 1.
  rewrite (getPage_hit fuel p s f fr Hp Hf).
  pose proof (lookup_lt_Some _ _ _ Hf) as Hlt.
  rewrite (releasePage_pinned p false _ f (set_pin_count (pin_count fr + 1) fr));
    cbn [buf_map frame_table set_frame_table pin_count set_pin_count
         replacement_pol]; try done.
  - replace (pin_count fr + 1 - 1 =? 0) with false
      by (symmetry; apply Z.eqb_neq; lia).
    rewrite list_insert_insert_eq. unfold released. cbn.
    replace (pin_count fr + 1 - 1) with (pin_count fr) by lia.
    replace (mkFrame (page_id fr) (pin_count fr) (valid fr) (dirty fr))
      with fr by (by destruct fr).
    rewrite list_insert_id by done. by destruct s.
  - by apply list_lookup_insert_eq.
  - lia.
Qed.

End Contracts.

Ltac state_fields :=
  cbn [frame_table buf_pool buf_map replacement_pol disk_mgr disk_calls rand
       set_frame_table set_buf_pool set_buf_map set_replacement_pol set_disk
       set_rand].

Lemma BufferManager_eq {D : Type} (s t : BufferManager D) :
  frame_table s = frame_table t -> buf_pool s = buf_pool t ->
  buf_map s = buf_map t -> replacement_pol s = replacement_pol t ->
  disk_mgr s = disk_mgr t -> disk_calls s = disk_calls t -> rand s = rand t ->
  s = t.
Proof. destruct s, t. cbn. by intros -> -> -> -> -> -> ->. Qed.

Section Fills.
Context `{Params} {D : Type} `{DiskManager D}.
Hypothesis BUF_SIZE_pos : (0 < BUF_SIZE)%nat.
Implicit Types (s : BufferManager D) (p q : PageId) (f : FrameId) (fr : Frame).

(** The guard of [getPage] and [allocatePage] lets the call through as soon
    as one frame of the table is not pinned. *)
Lemma guard_open s i :
  (i < BUF_SIZE)%nat -> (i < length (frame_table s))%nat ->
  pin_count (frame_table s !!! i) <= 0 ->
  exists st, getBufferState s = (Ok st, s) /\ (bs_unpinned st =? 0)%nat = false.
Proof.
  intros Hi Hlen Hpin. eexists. split; [reflexivity|]. cbn [bs_unpinned].
  apply Nat.eqb_neq.
  pose proof (count_frames_lt (fun x => 0 <? pin_count x) (frame_table s) i Hi Hlen)
    as Hlt.
  cbv beta in Hlt. specialize (Hlt ltac:(by apply Z.ltb_ge)). lia.
Qed.

Lemma free_front_frame s f rest :
  wf s -> free (pol_base (replacement_pol s)) = f :: rest ->
  (f < BUF_SIZE)%nat /\ (f < length (frame_table s))%nat /\
  valid (frame_table s !!! f) = false /\ pin_count (frame_table s !!! f) = 0.
Proof.
  intros Hwf Hfree.
  destruct (wf_free s Hwf f) as (fr & Hf & Hv); [rewrite Hfree; by left|].
  pose proof (lookup_lt_Some _ _ _ Hf) as Hlt.
  rewrite (list_lookup_total_correct _ _ _ Hf).
  destruct (wf_frames s Hwf f fr Hf) as [_ Hinv].
  rewrite (wf_length s Hwf) in Hlt |- *. by destruct (Hinv Hv).
Qed.

Lemma replace_free_front fuel ft rnd pol f rest :
  free (pol_base pol) = f :: rest ->
  replace fuel ft rnd pol = (Ok f, pol_map_base (set_free rest) pol, rnd).
Proof.
  intros Hfree. destruct pol as [c|r]; cbn in Hfree |- *.
  - unfold Clock_replace. by rewrite Hfree.
  - unfold Random_replace. by rewrite Hfree.
Qed.

(** X14.  [allocatePage] with a free frame.  In a reachable state whose
    free list is not empty the guard lets the call through; when the disk
    manager allocates a page that is not in the pool, the call returns the
    front of the free list and the new page: the frame holds the page,
    valid, clean and pinned once, the map sends the page to the frame, the
    free list lost its front, and the one disk call is [allocatePage].  The
    slot of the frame keeps the bytes it had. *)
Theorem allocatePage_free_frame fuel s fid f rest pid d' :
  reachable s ->
  free (pol_base (replacement_pol s)) = f :: rest ->
  disk_allocatePage fid (disk_mgr s) = (inr pid, d') ->
  buf_map s !! pid = None ->
  allocatePage fuel fid s =
    (Ok (f, pid),
     mkBufMgr (<[f := mkFrame pid 1 true false]> (frame_table s)) (buf_pool s)
       (<[pid := f]> (buf_map s))
       (pol_map_base (set_free rest) (replacement_pol s))
       d' (disk_calls s ++ [CallAllocatePage fid]) (rand s)).
Proof.
  intros Hreach Hfree Hdisk Hpid.
  pose proof (reachable_wf BUF_SIZE_pos s Hreach) as Hwf.
  destruct (free_front_frame s f rest Hwf Hfree) as (HfB & Hflen & Hv & Hpin).
  destruct (guard_open s f HfB Hflen ltac:(lia)) as (st & Hst & Hguard).
  unfold allocatePage, bind at 1. rewrite Hst, Hguard.
  unfold bind at 1, call_disk at 1. rewrite Hdisk.
  unfold bind at 1, _allocateFrame at 1, bind at 1, pol_replace at 1.
  state_fields.
  rewrite (replace_free_front fuel _ _ _ f rest Hfree).
  unfold bind at 1, get_frame at 1. state_fields. rewrite Hv. cbn [when].
  unfold bind at 1, ret at 1. unfold bind at 1, modify_frame at 1, modify at 1.
  unfold ret at 1. unfold bind at 1, modify_frame at 1, modify at 1.
  unfold bind at 1, BufferMap_insert at 1, bind at 1.
  rewrite BufferMap_contains_eq. state_fields.
  rewrite (contains_None _ _ Hpid).
  unfold modify at 1. unfold bind at 1, pol_update at 1, modify at 1. unfold ret.
  state_fields. rewrite pin_id.
  rewrite list_lookup_total_insert_eq by done.
  rewrite list_insert_insert_eq. reflexivity.
Qed.

(** X15.  A miss filled from the free list.  In a reachable state whose
    free list is not empty, [getPage] of a page that is not resident and
    that the disk can read returns the front of the free list: the slot
    holds the bytes read, the frame holds the page, valid, clean and pinned
    once, the map sends the page to the frame, the free list lost its
    front, and the one disk call is [readPage]. *)
Theorem getPage_miss_free_frame fuel s pid f rest data d' :
  reachable s ->
  free (pol_base (replacement_pol s)) = f :: rest ->
  buf_map s !! pid = None ->
  disk_readPage pid (disk_mgr s) = (inr data, d') ->
  getPage fuel pid s =
    (Ok f,
     mkBufMgr (<[f := mkFrame pid 1 true false]> (frame_table s))
       (<[f := data]> (buf_pool s)) (<[pid := f]> (buf_map s))
       (pol_map_base (set_free rest) (replacement_pol s))
       d' (disk_calls s ++ [CallReadPage pid]) (rand s)).
Proof.
  intros Hreach Hfree Hpid Hdisk.
  pose proof (reachable_wf BUF_SIZE_pos s Hreach) as Hwf.
  destruct (free_front_frame s f rest Hwf Hfree) as (HfB & Hflen & Hv & Hpin).
  destruct (guard_open s f HfB Hflen ltac:(lia)) as (st & Hst & Hguard).
  unfold getPage, bind at 1. rewrite BufferMap_contains_eq.
  rewrite (contains_None _ _ Hpid).
  unfold bind at 1. rewrite Hst, Hguard.
  unfold bind at 1, pol_replace at 1.
  rewrite (replace_free_front fuel _ _ _ f rest Hfree).
  unfold bind at 1, get_frame at 1. state_fields. rewrite Hv.
  cbn [andb when]. unfold bind at 1, ret at 1. unfold bind at 1, ret at 1.
  unfold bind at 1, try_catch at 1, disk_read_into at 1, bind at 1,
    call_disk at 1.
  state_fields. rewrite Hdisk. unfold modify at 1.
  unfold bind at 1, modify_frame at 1, modify at 1.
  unfold bind at 1, BufferMap_insert at 1, bind at 1.
  rewrite BufferMap_contains_eq. state_fields.
  rewrite (contains_None _ _ Hpid).
  unfold modify at 1. unfold bind at 1, pol_update at 1, modify at 1. unfold ret.
  state_fields. rewrite pin_id.
  replace (install pid (frame_table s !!! f)) with (mkFrame pid 1 true false)
    by done.
  reflexivity.
Qed.

(** X16.  A failed read loses a free frame.  In a reachable state whose
    free list is not empty, when [readPage] throws during a miss, [getPage]
    throws InvalidPageIdBufMgr (for InvalidFileIdDiskMgr and
    InvalidPageNumDiskMgr) or the exception of the disk.  The frame taken
    from the free list is not put back: afterwards it is invalid, no map
    entry leads to it and it is not in the free list.  Nothing else
    changed. *)
Theorem getPage_failed_read_loses_frame fuel s pid f rest e d' :
  reachable s ->
  free (pol_base (replacement_pol s)) = f :: rest ->
  buf_map s !! pid = None ->
  disk_readPage pid (disk_mgr s) = (inl e, d') ->
  let s' :=
    mkBufMgr (frame_table s) (buf_pool s) (buf_map s)
      (pol_map_base (set_free rest) (replacement_pol s))
      d' (disk_calls s ++ [CallReadPage pid]) (rand s) in
  getPage fuel pid s =
    (Throw (match e with
            | InvalidFileIdDiskMgr | InvalidPageNumDiskMgr => InvalidPageIdBufMgr pid
            | _ => DiskMgrExn e
            end), s') /\
  (f ∉ free (pol_base (replacement_pol s'))) /\
  valid (frame_table s' !!! f) = false /\
  (forall q, buf_map s' !! q <> Some f).
Proof.
  intros Hreach Hfree Hpid Hdisk. cbv zeta.
  pose proof (reachable_wf BUF_SIZE_pos s Hreach) as Hwf.
  destruct (free_front_frame s f rest Hwf Hfree) as (HfB & Hflen & Hv & Hpin).
  destruct (guard_open s f HfB Hflen ltac:(lia)) as (st & Hst & Hguard).
  split; [|split; [|split]].
  - unfold getPage, bind at 1. rewrite BufferMap_contains_eq.
    rewrite (contains_None _ _ Hpid).
    unfold bind at 1. rewrite Hst, Hguard.
    unfold bind at 1, pol_replace at 1.
    rewrite (replace_free_front fuel _ _ _ f rest Hfree).
    unfold bind at 1, get_frame at 1. state_fields. rewrite Hv.
    cbn [andb when]. unfold bind at 1, ret at 1. unfold bind at 1, ret at 1.
    unfold bind at 1, try_catch at 1, disk_read_into at 1, bind at 1,
      call_disk at 1.
    state_fields. rewrite Hdisk. by destruct e.
  - state_fields.
    pose proof (wf_free_nodup s Hwf) as Hnd. rewrite Hfree in Hnd.
    apply NoDup_cons in Hnd as [Hnot _].
    by destruct (replacement_pol s).
  - done.
  - intros q Hq. state_fields.
    destruct (wf_map s Hwf q f Hq) as (fr & Hf & Hvf & _).
    rewrite (list_lookup_total_correct _ _ _ Hf) in Hv. congruence.
Qed.

Lemma replace_in_range fuel s f pol' rnd' :
  wf s ->
  replace fuel (frame_table s) (rand s) (replacement_pol s) = (Ok f, pol', rnd') ->
  (f < BUF_SIZE)%nat.
Proof.
  intros Hwf Hrep.
  destruct (replace_spec BUF_SIZE_pos _ _ _ _ _ _ _ Hrep (wf_hand s Hwf))
    as (_ & _ & [(g & Hg & [= <-])|(_ & _ & Hres)]).
  - destruct (wf_free s Hwf f) as (fr & Hf & _); [rewrite Hg; by left|].
    apply lookup_lt_Some in Hf. by rewrite (wf_length s Hwf) in Hf.
  - by apply Hres.
Qed.

(** X17.  A miss that evicts.  In a reachable state, when the policy hands
    out a valid unpinned frame whose page is in the map, [getPage] of a page
    that is not resident writes the old page back first if and only if the
    frame is dirty, with the bytes of the slot, then reads the new page into
    the slot.  The old page leaves the map, the new one enters it, the frame
    ends valid, clean and pinned once, and the disk calls are the write (if
    any) followed by the read. *)
Theorem getPage_evicts fuel s pid f pol' rnd' d1 data d2 :
  reachable s ->
  buf_map s !! pid = None ->
  replace fuel (frame_table s) (rand s) (replacement_pol s) = (Ok f, pol', rnd') ->
  let fr := frame_table s !!! f in
  let wb := CallWritePage (page_id fr) (buf_pool s !!! f) in
  valid fr = true -> pin_count fr = 0 ->
  is_Some (buf_map s !! page_id fr) ->
  (dirty fr = true ->
     disk_writePage (page_id fr) (buf_pool s !!! f) (disk_mgr s) = (inr tt, d1)) ->
  (dirty fr = false -> d1 = disk_mgr s) ->
  disk_readPage pid d1 = (inr data, d2) ->
  getPage fuel pid s =
    (Ok f,
     mkBufMgr (<[f := mkFrame pid 1 true false]> (frame_table s))
       (<[f := data]> (buf_pool s))
       (<[pid := f]> (delete (page_id fr) (buf_map s)))
       pol' d2
       (disk_calls s ++ (if dirty fr then [wb] else []) ++ [CallReadPage pid])
       rnd').
Proof.
  intros Hreach Hpid Hrep. cbv zeta. intros Hv Hpin Hmapped Hwrite Hclean Hread.
  pose proof (reachable_wf BUF_SIZE_pos s Hreach) as Hwf.
  pose proof (replace_in_range _ _ _ _ _ Hwf Hrep) as HfB.
  assert (Hflen : (f < length (frame_table s))%nat)
    by (by rewrite (wf_length s Hwf)).
  destruct (guard_open s f HfB Hflen ltac:(lia)) as (st & Hst & Hguard).
  assert (Hne : page_id (frame_table s !!! f) <> pid).
  { intros Heq. rewrite Heq, Hpid in Hmapped. by destruct Hmapped. }
  unfold getPage, bind at 1. rewrite BufferMap_contains_eq.
  rewrite (contains_None _ _ Hpid).
  unfold bind at 1. rewrite Hst, Hguard.
  unfold bind at 1, pol_replace at 1. rewrite Hrep.
  unfold bind at 1, get_frame at 1. state_fields. rewrite Hv. cbn [andb].
  destruct (dirty (frame_table s !!! f)) eqn:Hd; cbn [when].
  - unfold bind at 1. unfold bind at 1, disk_write_from at 1, bind at 1,
      get_slot at 1, call_disk at 1.
    state_fields. rewrite (Hwrite eq_refl).
    unfold modify_frame at 1, modify at 1.
    unfold bind at 1, BufferMap_remove at 1, bind at 1.
    rewrite BufferMap_contains_eq. state_fields.
    rewrite bool_decide_true by done. cbn [negb]. unfold modify at 1.
    unfold bind at 1, try_catch at 1, disk_read_into at 1, bind at 1,
      call_disk at 1.
    state_fields. rewrite Hread. unfold modify at 1.
    unfold bind at 1, modify_frame at 1, modify at 1.
    unfold bind at 1, BufferMap_insert at 1, bind at 1.
    rewrite BufferMap_contains_eq. state_fields.
    rewrite bool_decide_false
      by (rewrite lookup_delete_ne by done; rewrite Hpid; by intros [? ?]).
    unfold modify at 1. unfold bind at 1, pol_update at 1, modify at 1.
    unfold ret. state_fields. rewrite pin_id.
    rewrite list_lookup_total_insert_eq by done.
    f_equal. apply BufferManager_eq; state_fields; try done.
    + by rewrite list_insert_insert_eq.
    + by rewrite <- app_assoc.
  - rewrite (Hclean eq_refl) in Hread. unfold bind at 1, ret at 1.
    unfold bind at 1, BufferMap_remove at 1, bind at 1.
    rewrite BufferMap_contains_eq. state_fields.
    rewrite bool_decide_true by done. cbn [negb]. unfold modify at 1.
    unfold bind at 1, try_catch at 1, disk_read_into at 1, bind at 1,
      call_disk at 1.
    state_fields. rewrite Hread. unfold modify at 1.
    unfold bind at 1, modify_frame at 1, modify at 1.
    unfold bind at 1, BufferMap_insert at 1, bind at 1.
    rewrite BufferMap_contains_eq. state_fields.
    rewrite bool_decide_false
      by (rewrite lookup_delete_ne by done; rewrite Hpid; by intros [? ?]).
    unfold modify at 1. unfold bind at 1, pol_update at 1, modify at 1.
    unfold ret. state_fields. rewrite pin_id. reflexivity.
Qed.

(** X18.  A failed write-back loses nothing.  When the victim of a miss
    is valid, dirty and unpinned and [writePage] throws, [getPage] passes the
    exception on; the frame table, the slots and the map are exactly as
    before, so the old page is still resident and still dirty.  Only the
    state of the policy and of the disk moved on. *)
Theorem getPage_failed_write_back fuel s pid f pol' rnd' e d1 :
  buf_map s !! pid = None ->
  replace fuel (frame_table s) (rand s) (replacement_pol s) = (Ok f, pol', rnd') ->
  (f < BUF_SIZE)%nat -> (f < length (frame_table s))%nat ->
  let fr := frame_table s !!! f in
  valid fr = true -> dirty fr = true -> pin_count fr = 0 ->
  disk_writePage (page_id fr) (buf_pool s !!! f) (disk_mgr s) = (inl e, d1) ->
  getPage fuel pid s =
    (Throw (DiskMgrExn e),
     mkBufMgr (frame_table s) (buf_pool s) (buf_map s) pol' d1
       (disk_calls s ++ [CallWritePage (page_id fr) (buf_pool s !!! f)]) rnd').
Proof.
  intros Hpid Hrep HfB Hflen. cbv zeta. intros Hv Hd Hpin Hwrite.
  destruct (guard_open s f HfB Hflen ltac:(lia)) as (st & Hst & Hguard).
  unfold getPage, bind at 1. rewrite BufferMap_contains_eq.
  rewrite (contains_None _ _ Hpid).
  unfold bind at 1. rewrite Hst, Hguard.
  unfold bind at 1, pol_replace at 1. rewrite Hrep.
  unfold bind at 1, get_frame at 1. state_fields. rewrite Hv, Hd.
  cbn [andb when].
  unfold bind at 1. unfold bind at 1, disk_write_from at 1, bind at 1,
    get_slot at 1, call_disk at 1.
  state_fields. rewrite Hwrite. reflexivity.
Qed.

End Fills.

(** ** The map and the free list in reachable states *)

Section ReachableFacts.
Context `{Params} {D : Type} `{DiskManager D}.
Hypothesis BUF_SIZE_pos : (0 < BUF_SIZE)%nat.
Implicit Types (s : BufferManager D) (p q : PageId) (f : FrameId) (fr : Frame).

Lemma wf_map_total s p f :
  wf s -> buf_map s !! p = Some f ->
  (f < BUF_SIZE)%nat /\ valid (frame_table s !!! f) = true /\
  page_id (frame_table s !!! f) = p.
Proof.
  intros Hwf Hp. destruct (wf_map s Hwf p f Hp) as (fr & Hf & Hv & Hpid).
  pose proof (lookup_lt_Some _ _ _ Hf) as Hlt.
  rewrite (wf_length s Hwf) in Hlt.
  by rewrite (list_lookup_total_correct _ _ _ Hf).
Qed.

Lemma wf_map_inj s p q f :
  wf s -> buf_map s !! p = Some f -> buf_map s !! q = Some f -> p = q.
Proof.
  intros Hwf Hp Hq.
  destruct (wf_map_total s p f Hwf Hp) as (_ & _ & <-).
  by destruct (wf_map_total s q f Hwf Hq) as (_ & _ & <-).
Qed.

Lemma wf_free_total s f :
  wf s -> f ∈ free (pol_base (replacement_pol s)) ->
  (f < BUF_SIZE)%nat /\ valid (frame_table s !!! f) = false /\
  pin_count (frame_table s !!! f) = 0 /\ dirty (frame_table s !!! f) = false /\
  forall q, buf_map s !! q <> Some f.
Proof.
  intros Hwf Hin. destruct (wf_free s Hwf f Hin) as (fr & Hf & Hv).
  pose proof (lookup_lt_Some _ _ _ Hf) as Hlt.
  rewrite (wf_length s Hwf) in Hlt.
  destruct (wf_frames s Hwf f fr Hf) as [_ Hinv]. destruct (Hinv Hv).
  rewrite (list_lookup_total_correct _ _ _ Hf).
  do 4 (split; [done|]). intros q Hq.
  destruct (wf_map s Hwf q f Hq) as (fr' & Hf' & Hv' & _). congruence.
Qed.

(** X19.  M1 in every reachable state: a map entry leads to a frame of the
    table that is valid and holds that page; that frame is not in the free
    list, and no other page leads to it. *)
Theorem reachable_map_sound s p f :
  reachable s -> buf_map s !! p = Some f ->
  (f < BUF_SIZE)%nat /\
  valid (frame_table s !!! f) = true /\ page_id (frame_table s !!! f) = p /\
  (f ∉ free (pol_base (replacement_pol s))) /\
  forall q, buf_map s !! q = Some f -> q = p.
Proof.
  intros Hreach Hp. pose proof (reachable_wf BUF_SIZE_pos s Hreach) as Hwf.
  destruct (wf_map_total s p f Hwf Hp) as (Hlt & Hv & Hpid).
  do 3 (split; [done|]). split.
  - intros Hin. destruct (wf_free_total s f Hwf Hin) as (_ & Hv' & _). congruence.
  - intros q Hq. by apply (wf_map_inj s q p f).
Qed.

(** X20.  The free list in every reachable state: it has no duplicates,
    and each of its members is a frame of the table that is invalid,
    unpinned and clean and to which no map entry leads. *)
Theorem reachable_free_list s :
  reachable s ->
  NoDup (free (pol_base (replacement_pol s))) /\
  forall f, f ∈ free (pol_base (replacement_pol s)) ->
    (f < BUF_SIZE)%nat /\ valid (frame_table s !!! f) = false /\
    pin_count (frame_table s !!! f) = 0 /\ dirty (frame_table s !!! f) = false /\
    forall q, buf_map s !! q <> Some f.
Proof.
  intros Hreach. pose proof (reachable_wf BUF_SIZE_pos s Hreach) as Hwf.
  split; [apply (wf_free_nodup s Hwf)|]. intros f. by apply wf_free_total.
Qed.

(** A run within [int] is a run. *)
Lemma reachable_int_reachable s : reachable_int s -> reachable s.
Proof.
  induction 1 as [disk rt rnd junk s Hnew | s fuel c r s' _ IH Hrun Hr _ | s i data _ IH].
  - by eapply reachable_new.
  - by eapply reachable_call.
  - by apply reachable_store.
Qed.

Lemma in_int_bound s i :
  in_int s = true -> pin_count (frame_table s !!! i) <= INT_MAX.
Proof.
  unfold in_int. rewrite forallb_forall. intros Hall.
  destruct (frame_table s !! i) as [fr|] eqn:Hi.
  - rewrite (list_lookup_total_correct _ _ _ Hi). apply Z.leb_le, Hall.
    apply list_elem_of_In. by eapply list_elem_of_lookup_2.
  - by rewrite list_lookup_total_alt, Hi.
Qed.

(** At the end of a run within [int] the pin counts are within INT_MAX. *)
Lemma reachable_int_in_int s : reachable_int s -> in_int s = true.
Proof.
  induction 1 as [disk rt rnd junk s Hnew | s fuel c r s' _ _ _ _ Hin | s i data _ IH];
    [|done|done].
  assert (Hft : frame_table s = replicate BUF_SIZE Frame_new)
    by (destruct rt; cbn in Hnew; by simplify_eq).
  unfold in_int. rewrite Hft. apply forallb_forall.
  by intros fr [-> _]%list_elem_of_In%elem_of_replicate.
Qed.

Lemma reachable_int_run_calls fuel cs s :
  reachable_int s -> calls_in_int fuel cs s = true ->
  reachable_int (run_calls fuel cs s).
Proof.
  revert s. induction cs as [|c rest IH]; intros s Hs Hret; [done|].
  cbn in *. destruct (run_call fuel c s) as [r s'] eqn:Hrun. cbn.
  assert (Hr : r <> OutOfFuel /\ in_int s' = true /\ calls_in_int fuel rest s' = true).
  { destruct r; [| |done]; by apply andb_true_iff in Hret as [? ?]. }
  destruct Hr as (Hr & Hin & Hrest). apply IH; [|done].
  by apply (reachable_int_call s fuel c r s').
Qed.

(** X21.  In every state reached by a run in which no pin count, an
    [int], went past INT_MAX, the frame table has [BUF_SIZE] entries, every
    pin count is between 0 and INT_MAX, and the hand of the CLOCK policy
    points into the table. *)
Theorem reachable_frame_table s :
  reachable_int s ->
  length (frame_table s) = BUF_SIZE /\
  (forall i, 0 <= pin_count (frame_table s !!! i) <= INT_MAX) /\
  (forall c, replacement_pol s = ClockPol c -> (clock_hand c < BUF_SIZE)%nat).
Proof.
  intros Hint. pose proof (reachable_int_reachable s Hint) as Hreach.
  pose proof (reachable_wf BUF_SIZE_pos s Hreach) as Hwf.
  split; [apply (wf_length s Hwf)|]. split; [|apply (wf_hand s Hwf)].
  intros i. split; [|by apply in_int_bound, reachable_int_in_int].
  destruct (frame_table s !! i) as [fr|] eqn:Hi.
  - rewrite (list_lookup_total_correct _ _ _ Hi).
    by destruct (wf_frames s Hwf i fr Hi).
  - by rewrite list_lookup_total_alt, Hi.
Qed.

(** X22.  M3 in every reachable state: the pages in the map and the frames
    in the free list together never exceed [BUF_SIZE]; in particular the
    map holds at most [BUF_SIZE] pages. *)
Theorem reachable_pool_capacity s :
  reachable s ->
  (size (buf_map s) + length (free (pol_base (replacement_pol s))) <= BUF_SIZE)%nat.
Proof.
  intros Hreach. pose proof (reachable_wf BUF_SIZE_pos s Hreach) as Hwf.
  set (used := (map_to_list (buf_map s)).*2).
  set (fl := free (pol_base (replacement_pol s))).
  assert (Hused : forall f, f ∈ used -> exists p, buf_map s !! p = Some f).
  { intros f Hf. apply list_elem_of_fmap in Hf as ([p g] & -> & Hpg).
    apply elem_of_map_to_list in Hpg. by exists p. }
  assert (Hnd : NoDup (used ++ fl)).
  { apply NoDup_app. split; [|split].
    - apply NoDup_fmap_2_strong; [|apply NoDup_map_to_list].
      intros [p f] [q g] Hp Hq Heq. cbn in Heq. subst g.
      apply elem_of_map_to_list in Hp, Hq.
      by rewrite (wf_map_inj s p q f Hwf Hp Hq).
    - intros f Hf Hin. destruct (Hused f Hf) as [p Hp].
      by destruct (wf_free_total s f Hwf Hin) as (_ & _ & _ & _ & Hno);
        apply (Hno p).
    - apply (wf_free_nodup s Hwf). }
  assert (Hsub : used ++ fl ⊆+ seq 0 BUF_SIZE).
  { apply NoDup_submseteq; [done|]. intros f Hf. apply elem_of_seq.
    apply elem_of_app in Hf as [Hf|Hf].
    - destruct (Hused f Hf) as [p Hp].
      destruct (wf_map_total s p f Hwf Hp). lia.
    - destruct (wf_free_total s f Hwf Hf). lia. }
  apply submseteq_length in Hsub.
  rewrite length_app, length_seq in Hsub. unfold used in Hsub.
  rewrite length_fmap, length_map_to_list in Hsub. done.
Qed.

End ReachableFacts.

(** ** M2, and what a filled frame looks like *)

Section M2Facts.
Context `{Params} {D : Type} `{DiskManager D}.
Implicit Types (s t : BufferManager D) (p q : PageId) (f : FrameId) (fr : Frame).

Lemma M2_ext s t :
  frame_table t = frame_table s -> buf_map t = buf_map s -> M2 s -> M2 t.
Proof. unfold M2. by intros -> ->. Qed.

Lemma M2_touch s t f fr' :
  M2 s -> buf_map t = buf_map s ->
  frame_table t = <[f := fr']> (frame_table s) ->
  page_id fr' = page_id (frame_table s !!! f) ->
  valid fr' = valid (frame_table s !!! f) ->
  M2 t.
Proof.
  intros HM2 Hm Hft Hpid Hv i fr Hi Hvi. rewrite Hm. rewrite Hft in Hi.
  apply list_lookup_insert_Some in Hi as [(-> & <- & Hlt)|[Hne Hi]].
  - rewrite Hpid. apply HM2; [by apply list_lookup_lookup_total_lt|].
    by rewrite <- Hv.
  - by apply HM2.
Qed.

Lemma M2_drop s t f p :
  M2 s -> buf_map s !! p = Some f ->
  frame_table t = <[f := invalidate (frame_table s !!! f)]> (frame_table s) ->
  buf_map t = delete p (buf_map s) ->
  M2 t.
Proof.
  intros HM2 Hp Hft Hm i fr Hi Hvi. rewrite Hm. rewrite Hft in Hi.
  apply list_lookup_insert_Some in Hi as [(-> & <- & Hlt)|[Hne Hi]]; [done|].
  specialize (HM2 i fr Hi Hvi).
  rewrite lookup_delete_ne; [done|]. intros Heq. rewrite <- Heq in HM2.
  congruence.
Qed.

(** The state after a frame was filled with page [pid]. *)
Lemma M2_fill s t f pid fr' :
  M2 s -> (f < length (frame_table s))%nat ->
  frame_table t = <[f := fr']> (frame_table s) ->
  page_id fr' = pid ->
  let old := frame_table s !!! f in
  let m1 := if valid old then delete (page_id old) (buf_map s) else buf_map s in
  m1 !! pid = None ->
  buf_map t = <[pid := f]> m1 ->
  M2 t.
Proof.
  intros HM2 Hlt Hft Hpid. cbv zeta. intros Hfresh Hm i fr Hi Hvi.
  rewrite Hm. rewrite Hft in Hi.
  apply list_lookup_insert_Some in Hi as [(-> & <- & _)|[Hne Hi]].
  - rewrite Hpid. apply lookup_insert_eq.
  - pose proof (HM2 i fr Hi Hvi) as Hmi.
    assert (Hm1 : (if valid (frame_table s !!! f)
                   then delete (page_id (frame_table s !!! f)) (buf_map s)
                   else buf_map s) !! page_id fr = Some i).
    { destruct (valid (frame_table s !!! f)) eqn:Hv; [|done].
      rewrite lookup_delete_ne; [done|]. intros Heq.
      assert (Hf : buf_map s !! page_id (frame_table s !!! f) = Some f).
      { apply HM2; [by apply list_lookup_lookup_total_lt|done]. }
      rewrite Heq in Hf. congruence. }
    rewrite lookup_insert_ne; [done|]. intros Heq. rewrite <- Heq in Hm1.
    congruence.
Qed.

End M2Facts.

Section Inversion.
Context `{Params} {D : Type} `{DiskManager D}.
Implicit Types (s t : BufferManager D) (p q : PageId) (f : FrameId) (fr : Frame).

Lemma BufferMap_remove_inv p s r s' :
  BufferMap_remove p s = (r, s') ->
  (r = Ok tt /\ is_Some (buf_map s !! p) /\
   s' = set_buf_map (delete p (buf_map s)) s) \/
  (r = Throw (PageNotFoundBufMgr p) /\ buf_map s !! p = None /\ s' = s).
Proof.
  unfold BufferMap_remove, bind. rewrite BufferMap_contains_eq.
  destruct (buf_map s !! p) as [f|] eqn:Hp.
  - rewrite bool_decide_true by eauto. cbn. intros [= <- <-]. left. eauto.
  - rewrite bool_decide_false by (by intros [? ?]). cbn. intros [= <- <-].
    by right.
Qed.

Lemma BufferMap_insert_inv p f s r s' :
  BufferMap_insert p f s = (r, s') ->
  (r = Ok tt /\ buf_map s !! p = None /\
   s' = set_buf_map (<[p := f]> (buf_map s)) s) \/
  (r = Throw (PageAlreadyLoadedBufMgr p) /\ is_Some (buf_map s !! p) /\ s' = s).
Proof.
  unfold BufferMap_insert, bind. rewrite BufferMap_contains_eq.
  destruct (buf_map s !! p) as [g|] eqn:Hp.
  - rewrite bool_decide_true by eauto. cbn. intros [= <- <-]. right. eauto.
  - rewrite bool_decide_false by (by intros [? ?]). cbn. intros [= <- <-].
    by left.
Qed.

Lemma _allocateFrame_inv fuel s f s1 :
  _allocateFrame fuel s = (Ok f, s1) ->
  exists pol' rnd',
    replace fuel (frame_table s) (rand s) (replacement_pol s) = (Ok f, pol', rnd') /\
    (valid (frame_table s !!! f) = true ->
       is_Some (buf_map s !! page_id (frame_table s !!! f))) /\
    s1 = mkBufMgr (<[f := invalidate (frame_table s !!! f)]> (frame_table s))
           (buf_pool s) (evicted s f) pol' (disk_mgr s) (disk_calls s) rnd'.
Proof.
  unfold _allocateFrame, bind at 1, pol_replace at 1.
  destruct (replace fuel (frame_table s) (rand s) (replacement_pol s))
    as [[[g| |] pol'] rnd'] eqn:Hrep; [|done|done].
  unfold bind at 1, get_frame at 1. state_fields.
  unfold bind at 1. unfold evicted.
  destruct (valid (frame_table s !!! g)) eqn:Hv; cbn [when].
  - destruct (BufferMap_remove _ _) as [r s2] eqn:Hrm.
    apply BufferMap_remove_inv in Hrm
      as [(-> & Hsome & ->)|(-> & _ & _)]; [|done].
    revert Hsome. state_fields. intros Hsome.
    unfold bind, modify_frame, modify, ret. intros [= <- <-].
    exists pol', rnd'. split; [done|]. split; [done|].
    apply BufferManager_eq; state_fields; rewrite ?Hv; done.
  - unfold ret at 1. unfold bind, modify_frame, modify, ret. intros [= <- <-].
    exists pol', rnd'. split; [done|]. split; [by rewrite Hv|].
    apply BufferManager_eq; state_fields; rewrite ?Hv; done.
Qed.

Lemma allocatePage_inv fuel fid s f pid s' :
  allocatePage fuel fid s = (Ok (f, pid), s') ->
  exists d' pol' rnd',
    (count_frames (fun x => (0 <? pin_count x)%Z) (frame_table s) < BUF_SIZE)%nat /\
    disk_allocatePage fid (disk_mgr s) = (inr pid, d') /\
    replace fuel (frame_table s) (rand s) (replacement_pol s) = (Ok f, pol', rnd') /\
    (valid (frame_table s !!! f) = true ->
       is_Some (buf_map s !! page_id (frame_table s !!! f))) /\
    evicted s f !! pid = None /\
    s' = mkBufMgr (<[f := mkFrame pid 1 true false]> (frame_table s))
           (buf_pool s) (<[pid := f]> (evicted s f)) pol' d'
           (disk_calls s ++ [CallAllocatePage fid]) rnd'.
Proof.
  unfold allocatePage, bind at 1, getBufferState at 1. cbn [bs_unpinned].
  pose proof (count_frames_le (fun x => 0 <? pin_count x) (frame_table s)) as Hle.
  destruct (_ =? 0)%nat eqn:Hguard; [done|]. apply Nat.eqb_neq in Hguard.
  unfold bind at 1, call_disk at 1.
  destruct (disk_allocatePage fid (disk_mgr s)) as [[e|pid'] d'] eqn:Hdisk;
    [done|].
  unfold bind at 1.
  destruct (_allocateFrame fuel _) as [[g| |] s1] eqn:Hframe; [|done|done].
  apply _allocateFrame_inv in Hframe as (pol' & rnd' & Hrep & Hsome & ->).
  revert Hrep Hsome. unfold evicted. state_fields. intros Hrep Hsome.
  unfold bind at 1, modify_frame at 1, modify at 1. unfold bind at 1.
  destruct (BufferMap_insert _ _ _) as [r s2] eqn:Hins.
  apply BufferMap_insert_inv in Hins as [(-> & Hfresh & ->)|(-> & _ & _)];
    [|done].
  revert Hfresh. state_fields. intros Hfresh.
  unfold bind, pol_update, modify, ret. intros [= <- <- <-].
  exists d', pol', rnd'. split; [lia|]. do 4 (split; [done|]).
  apply BufferManager_eq; state_fields; try done.
  - by rewrite list_insert_insert_eq.
  - by rewrite pin_id.
Qed.

Lemma getPage_miss_inv fuel pid s f s' :
  buf_map s !! pid = None ->
  getPage fuel pid s = (Ok f, s') ->
  let old := frame_table s !!! f in
  let wb := valid old && dirty old in
  exists pol' rnd' d1 data d2,
    (count_frames (fun x => (0 <? pin_count x)%Z) (frame_table s) < BUF_SIZE)%nat /\
    replace fuel (frame_table s) (rand s) (replacement_pol s) = (Ok f, pol', rnd') /\
    (if wb
     then disk_writePage (page_id old) (buf_pool s !!! f) (disk_mgr s) = (inr tt, d1)
     else d1 = disk_mgr s) /\
    disk_readPage pid d1 = (inr data, d2) /\
    (valid old = true -> is_Some (buf_map s !! page_id old)) /\
    s' = mkBufMgr (<[f := mkFrame pid 1 true false]> (frame_table s))
           (<[f := data]> (buf_pool s)) (<[pid := f]> (evicted s f)) pol' d2
           (disk_calls s ++
            (if wb then [CallWritePage (page_id old) (buf_pool s !!! f)] else [])
            ++ [CallReadPage pid]) rnd'.
Proof.
  intros Hpid. cbv zeta.
  unfold getPage, bind at 1. rewrite BufferMap_contains_eq.
  rewrite (contains_None _ _ Hpid).
  unfold bind at 1, getBufferState at 1. cbn [bs_unpinned].
  pose proof (count_frames_le (fun x => 0 <? pin_count x) (frame_table s)) as Hle.
  destruct (_ =? 0)%nat eqn:Hguard; [done|]. apply Nat.eqb_neq in Hguard.
  unfold bind at 1, pol_replace at 1.
  destruct (replace fuel (frame_table s) (rand s) (replacement_pol s))
    as [[[g| |] pol'] rnd'] eqn:Hrep; [|done|done].
  unfold bind at 1, get_frame at 1. state_fields.
  assert (Htail : forall s1 : BufferManager D,
    buf_map s1 !! pid = None ->
    bind (try_catch (disk_read_into pid g) (fun e =>
            match e with
            | DiskMgrExn InvalidFileIdDiskMgr => throw (InvalidPageIdBufMgr pid)
            | DiskMgrExn InvalidPageNumDiskMgr => throw (InvalidPageIdBufMgr pid)
            | _ => throw e
            end))
      (fun _ => bind (modify_frame g (install pid))
      (fun _ => bind (BufferMap_insert pid g)
      (fun _ => bind (pol_update (pin g)) (fun _ => ret g)))) s1 = (Ok f, s') ->
    exists data d2, disk_readPage pid (disk_mgr s1) = (inr data, d2) /\ g = f /\
      s' = mkBufMgr (<[g := install pid (frame_table s1 !!! g)]> (frame_table s1))
             (<[g := data]> (buf_pool s1)) (<[pid := g]> (buf_map s1))
             (replacement_pol s1) d2 (disk_calls s1 ++ [CallReadPage pid])
             (rand s1)).
  { intros s1 Hfresh.
    unfold bind at 1, try_catch at 1, disk_read_into at 1, bind at 1,
      call_disk at 1.
    destruct (disk_readPage pid (disk_mgr s1)) as [[e|data] d2] eqn:Hread.
    { by destruct e. }
    unfold modify at 1. unfold bind at 1, modify_frame at 1, modify at 1.
    unfold bind at 1, BufferMap_insert at 1, bind at 1.
    rewrite BufferMap_contains_eq. state_fields.
    rewrite (contains_None _ _ Hfresh).
    unfold modify at 1. unfold bind, pol_update, modify, ret.
    intros [= <- <-]. exists data, d2. split; [done|]. split; [done|].
    apply BufferManager_eq; state_fields; try done. by rewrite pin_id. }
  unfold evicted.
  destruct (valid (frame_table s !!! g)) eqn:Hv; cbn [andb].
  - destruct (dirty (frame_table s !!! g)) eqn:Hd; cbn [when].
    + unfold bind at 1. unfold bind at 1, disk_write_from at 1, bind at 1,
        get_slot at 1, call_disk at 1.
      state_fields.
      destruct (disk_writePage _ _ (disk_mgr s)) as [[e|[]] d1] eqn:Hwrite;
        [done|].
      unfold modify_frame at 1, modify at 1. unfold bind at 1.
      destruct (BufferMap_remove _ _) as [r s2] eqn:Hrm.
      apply BufferMap_remove_inv in Hrm
        as [(-> & Hsome & ->)|(-> & _ & _)]; [|done].
      revert Hsome. state_fields. intros Hsome Hrun.
      apply Htail in Hrun as (data & d2 & Hread & <- & ->).
      * revert Hread. state_fields. intros Hread. rewrite ?Hv, ?Hd. cbn [andb].
        exists pol', rnd', d1, data, d2. split; [lia|].
        do 4 (split; [done|]).
        apply BufferManager_eq; state_fields; try done.
        -- destruct (decide (g < length (frame_table s))%nat).
           ++ rewrite list_lookup_total_insert_eq by done.
              by rewrite list_insert_insert_eq.
           ++ by rewrite !list_insert_ge by (rewrite ?length_insert; lia).
        -- by rewrite <- app_assoc.
      * state_fields. rewrite lookup_delete. by case_decide.
    + unfold bind at 1, ret at 1. unfold bind at 1.
      destruct (BufferMap_remove _ _) as [r s2] eqn:Hrm.
      apply BufferMap_remove_inv in Hrm
        as [(-> & Hsome & ->)|(-> & _ & _)]; [|done].
      revert Hsome. state_fields. intros Hsome Hrun.
      apply Htail in Hrun as (data & d2 & Hread & <- & ->).
      * revert Hread. state_fields. intros Hread. rewrite ?Hv, ?Hd. cbn [andb].
        exists pol', rnd', (disk_mgr s), data, d2. split; [lia|].
        do 4 (split; [done|]).
        apply BufferManager_eq; state_fields; done.
      * state_fields. rewrite lookup_delete. by case_decide.
  - cbn [when]. unfold bind at 1, ret at 1. unfold bind at 1, ret at 1.
    intros Hrun.
    apply Htail in Hrun as (data & d2 & Hread & <- & ->).
    + revert Hread. state_fields. intros Hread. rewrite ?Hv. cbn [andb].
      exists pol', rnd', (disk_mgr s), data, d2. split; [lia|].
      do 3 (split; [done|]). split; [done|].
      apply BufferManager_eq; state_fields; done.
    + done.
Qed.

End Inversion.

Section Preservation.
Context `{Params} {D : Type} `{DiskManager D}.
Hypothesis BUF_SIZE_pos : (0 < BUF_SIZE)%nat.
Implicit Types (s t : BufferManager D) (p q : PageId) (f : FrameId) (fr : Frame).

Lemma call_disk_M2 {A} c (op : D -> (DiskExn + A) * D) s r s' :
  M2 s -> call_disk c op s = (r, s') -> M2 s'.
Proof.
  intros HM2. unfold call_disk.
  destruct (op (disk_mgr s)) as [[e|a] d']; intros [= <- <-];
    by apply (M2_ext s).
Qed.

Lemma removeFile_loop_M2 fid idxs : forall s r s',
  M2 s -> removeFile_loop fid idxs s = (r, s') -> M2 s'.
Proof.
  induction idxs as [|i rest IH]; intros s r s' HM2 Hrun.
  - cbn in Hrun. unfold ret in Hrun. by simplify_eq.
  - rewrite removeFile_loop_cons in Hrun. cbn zeta in Hrun.
    destruct (targets fid (frame_table s !!! i)) eqn:Ht; [|by eapply IH].
    destruct (0 <? pin_count (frame_table s !!! i)); [by simplify_eq|].
    destruct (buf_map s !! page_id (frame_table s !!! i)) eqn:Hm;
      [|by simplify_eq].
    eapply IH; [|exact Hrun].
    pose proof (targets_in_range fid i s Ht) as Hlt.
    apply andb_true_iff in Ht as [Hv _].
    apply (M2_drop s _ i (page_id (frame_table s !!! i))); try done.
    apply HM2; [by apply list_lookup_lookup_total_lt|done].
Qed.

(** X23.  M2 is kept by every call that does not fail while filling a
    frame.  From a reachable state in which every valid frame is found in
    the map under its page: after [allocatePage] or [getPage] returned
    normally, and after [releasePage], [setDirty], [flushPage],
    [deallocatePage], [createFile] or [removeFile] returned or threw, every
    valid frame is again found in the map under its page. *)
Theorem M2_preserved fuel c s r s' :
  reachable s -> M2 s -> run_call fuel c s = (r, s') ->
  match c with
  | AllocatePage _ | GetPage _ => r = Ok tt
  | _ => True
  end ->
  M2 s'.
Proof.
  intros Hreach HM2 Hrun Hc.
  pose proof (reachable_wf BUF_SIZE_pos s Hreach) as Hwf.
  destruct c as [fid|pid|p d|p|p|p|fid|fid]; cbn [run_call] in Hrun.
  - (* allocatePage *)
    subst r. unfold bind in Hrun.
    destruct (allocatePage fuel fid s) as [[[f pid]| |] s1] eqn:Hal;
      [|done|done].
    unfold ret in Hrun. simplify_eq.
    apply allocatePage_inv in Hal
      as (d' & pol' & rnd' & _ & _ & Hrep & _ & Hfresh & ->).
    pose proof (replace_in_range BUF_SIZE_pos _ _ _ _ _ Hwf Hrep) as Hlt.
    rewrite <- (wf_length s Hwf) in Hlt.
    by apply (M2_fill s _ f pid (mkFrame pid 1 true false)).
  - (* getPage *)
    subst r. unfold bind in Hrun.
    destruct (getPage fuel pid s) as [[f| |] s1] eqn:Hget; [|done|done].
    unfold ret in Hrun. simplify_eq.
    destruct (buf_map s !! pid) as [g|] eqn:Hpid.
    + destruct (wf_map s Hwf pid g Hpid) as (fr & Hg & _).
      rewrite (getPage_hit fuel pid s g fr Hpid Hg) in Hget. simplify_eq.
      apply (M2_touch s _ f (set_pin_count (pin_count fr + 1) fr)); try done;
        by rewrite (list_lookup_total_correct _ _ _ Hg).
    + apply getPage_miss_inv in Hget
        as (pol' & rnd' & d1 & data & d2 & _ & Hrep & _ & _ & _ & ->);
        [|done].
      pose proof (replace_in_range BUF_SIZE_pos _ _ _ _ _ Hwf Hrep) as Hlt.
      rewrite <- (wf_length s Hwf) in Hlt.
      apply (M2_fill s _ f pid (mkFrame pid 1 true false)); try done.
      unfold evicted. destruct (valid _); [|done].
      rewrite lookup_delete. by case_decide.
  - (* releasePage *)
    destruct (buf_map s !! p) as [g|] eqn:Hp.
    + destruct (wf_map s Hwf p g Hp) as (fr & Hg & _).
      destruct (decide (pin_count fr = 0)) as [Hz|Hnz].
      * rewrite (releasePage_unpinned p d s g Hp) in Hrun
          by (by rewrite (list_lookup_total_correct _ _ _ Hg)).
        by simplify_eq.
      * rewrite (releasePage_pinned p d s g fr Hp Hg Hnz) in Hrun.
        simplify_eq.
        apply (M2_touch s _ g (released d fr)); try done;
          by rewrite (list_lookup_total_correct _ _ _ Hg).
    + rewrite (releasePage_absent p d s Hp) in Hrun. by simplify_eq.
  - (* setDirty *)
    destruct (buf_map s !! p) as [g|] eqn:Hp.
    + rewrite (setDirty_present s p g Hp) in Hrun. simplify_eq.
      by apply (M2_touch s _ g (set_dirty true (frame_table s !!! g))).
    + unfold setDirty, bind in Hrun. rewrite BufferMap_contains_eq in Hrun.
      rewrite (contains_None _ _ Hp) in Hrun. cbn in Hrun.
      unfold throw in Hrun. by simplify_eq.
  - (* flushPage *)
    destruct (buf_map s !! p) as [g|] eqn:Hp.
    + rewrite (flushPage_present s p g Hp) in Hrun.
      destruct (dirty (frame_table s !!! g)); cbn [when] in Hrun;
        [|unfold ret in Hrun; by simplify_eq].
      unfold disk_write_from, bind, get_slot, call_disk in Hrun.
      destruct (disk_writePage _ _ _) as [[e|[]] d'].
      * simplify_eq. by apply (M2_ext s).
      * unfold modify_frame, modify in Hrun. simplify_eq.
        by apply (M2_touch s _ g (set_dirty false (frame_table s !!! g))).
    + unfold flushPage, bind in Hrun. rewrite BufferMap_contains_eq in Hrun.
      rewrite (contains_None _ _ Hp) in Hrun. cbn in Hrun.
      unfold throw in Hrun. by simplify_eq.
  - (* deallocatePage *)
    destruct (buf_map s !! p) as [g|] eqn:Hp.
    + rewrite (deallocatePage_present s p g Hp) in Hrun.
      destruct (0 <? pin_count (frame_table s !!! g)); [by simplify_eq|].
      eapply call_disk_M2; [|exact Hrun].
      by apply (M2_drop s _ g p).
    + unfold deallocatePage, bind at 1 in Hrun.
      rewrite BufferMap_contains_eq in Hrun.
      rewrite (contains_None _ _ Hp) in Hrun. cbn [when] in Hrun.
      unfold ret at 1 in Hrun. by eapply call_disk_M2.
  - (* createFile *)
    by eapply call_disk_M2.
  - (* removeFile *)
    unfold removeFile, bind in Hrun.
    destruct (removeFile_loop fid (seq 0 BUF_SIZE) s) as [[[]|e|] s1] eqn:Hloop;
      pose proof (removeFile_loop_M2 _ _ _ _ _ HM2 Hloop) as HM2';
      [|by simplify_eq|by simplify_eq].
    by eapply call_disk_M2.
Qed.

(** X24.  What a normal return of [getPage] guarantees, from any state
    reached by a run within [int], when the pin count of a resident page
    asked for is below INT_MAX, so that the increment of the hit does not
    overflow: the returned frame is in the table and the map sends the page
    to it; on a hit the frame is as before with its pin count raised by
    one, on a miss it holds the page, valid, clean and pinned once; the pin
    count of the frame is then between 1 and INT_MAX and the state is again
    one of a run within [int]; no other frame changed; and the page asked
    for is the only key the map may have gained. *)
Theorem getPage_returns fuel pid s f s' :
  reachable_int s ->
  (forall g, buf_map s !! pid = Some g ->
     pin_count (frame_table s !!! g) < INT_MAX) ->
  getPage fuel pid s = (Ok f, s') ->
  (f < BUF_SIZE)%nat /\ buf_map s' !! pid = Some f /\
  frame_table s' !!! f =
    match buf_map s !! pid with
    | Some _ =>
      set_pin_count (pin_count (frame_table s !!! f) + 1) (frame_table s !!! f)
    | None => mkFrame pid 1 true false
    end /\
  1 <= pin_count (frame_table s' !!! f) <= INT_MAX /\
  reachable_int s' /\
  (forall i, i <> f -> frame_table s' !!! i = frame_table s !!! i) /\
  (forall q g, buf_map s' !! q = Some g -> q = pid \/ buf_map s !! q = Some g).
Proof.
  intros Hint Hbound Hget.
  pose proof (reachable_int_reachable s Hint) as Hreach.
  pose proof (reachable_wf BUF_SIZE_pos s Hreach) as Hwf.
  assert (Hfr : frame_table s' !!! f =
    match buf_map s !! pid with
    | Some _ =>
      set_pin_count (pin_count (frame_table s !!! f) + 1) (frame_table s !!! f)
    | None => mkFrame pid 1 true false
    end /\
    (f < BUF_SIZE)%nat /\ buf_map s' !! pid = Some f /\
    (forall i, i <> f -> frame_table s' !!! i = frame_table s !!! i) /\
    (forall q g, buf_map s' !! q = Some g -> q = pid \/ buf_map s !! q = Some g));
    [|destruct Hfr as (Hfr & Hlt & Hmap & Hother & Hkeys);
      assert (Hpin : 1 <= pin_count (frame_table s' !!! f) <= INT_MAX);
      [|do 4 (split; [done|]); split; [|done]]].
  3: { apply (reachable_int_call s fuel (GetPage pid) (Ok tt) s' Hint);
         [by cbn [run_call]; unfold bind; rewrite Hget|done|].
       unfold in_int. apply forallb_forall. intros fr Hin.
       apply list_elem_of_In, list_elem_of_lookup_1 in Hin as [i Hi].
       apply Z.leb_le. rewrite <- (list_lookup_total_correct _ _ _ Hi).
       destruct (decide (i = f)) as [->|Hne]; [lia|].
       rewrite (Hother i Hne). by apply in_int_bound, reachable_int_in_int. }
  2: { rewrite Hfr. destruct (buf_map s !! pid) as [g|] eqn:Hpid; [|cbn; done].
       destruct (wf_map s Hwf pid g Hpid) as (fr & Hg & _).
       assert (g = f) as ->.
       { rewrite (getPage_hit fuel pid s g fr Hpid Hg) in Hget. by simplify_eq. }
       specialize (Hbound f eq_refl).
       pose proof (wf_frames s Hwf f fr Hg) as [Hnn _].
       rewrite (list_lookup_total_correct _ _ _ Hg) in *. cbn. lia. }
  destruct (buf_map s !! pid) as [g|] eqn:Hpid.
  - destruct (wf_map s Hwf pid g Hpid) as (fr & Hg & _).
    rewrite (getPage_hit fuel pid s g fr Hpid Hg) in Hget. simplify_eq.
    pose proof (lookup_lt_Some _ _ _ Hg) as Hlt.
    state_fields. rewrite (list_lookup_total_correct _ _ _ Hg).
    split; [by rewrite list_lookup_total_insert_eq|].
    split; [by rewrite <- (wf_length s Hwf)|]. split; [done|]. split.
    + intros i Hi. by rewrite list_lookup_total_insert_ne.
    + intros q g Hq. by right.
  - apply getPage_miss_inv in Hget
      as (pol' & rnd' & d1 & data & d2 & _ & Hrep & _ & _ & _ & ->); [|done].
    pose proof (replace_in_range BUF_SIZE_pos _ _ _ _ _ Hwf Hrep) as Hlt.
    state_fields.
    split; [rewrite list_lookup_total_insert_eq;
            [done|by rewrite (wf_length s Hwf)]|].
    split; [done|]. split; [apply lookup_insert_eq|].
    split.
    + intros i Hi. by rewrite list_lookup_total_insert_ne.
    + intros q g Hq. destruct (decide (q = pid)) as [->|Hne]; [by left|right].
      rewrite lookup_insert_ne in Hq by done. unfold evicted in Hq.
      destruct (valid _); [|done].
      rewrite lookup_delete in Hq. by case_decide.
Qed.

(** X25.  What a normal return of [allocatePage] guarantees, from any
    reachable state: the page returned is the one the disk manager
    allocated, and that allocation is the only disk call made; the returned
    frame is in the table, holds the page, valid, clean and pinned once, and
    the map sends the page to it; no other frame changed, the new page is
    the only key the map may have gained, and no slot was written. *)
Theorem allocatePage_returns fuel fid s f pid s' :
  reachable s -> allocatePage fuel fid s = (Ok (f, pid), s') ->
  (f < BUF_SIZE)%nat /\
  disk_allocatePage fid (disk_mgr s) = (inr pid, disk_mgr s') /\
  disk_calls s' = disk_calls s ++ [CallAllocatePage fid] /\
  buf_map s' !! pid = Some f /\
  frame_table s' !!! f = mkFrame pid 1 true false /\
  (forall i, i <> f -> frame_table s' !!! i = frame_table s !!! i) /\
  (forall q g, buf_map s' !! q = Some g -> q = pid \/ buf_map s !! q = Some g) /\
  buf_pool s' = buf_pool s.
Proof.
  intros Hreach Hal.
  pose proof (reachable_wf BUF_SIZE_pos s Hreach) as Hwf.
  apply allocatePage_inv in Hal
    as (d' & pol' & rnd' & _ & Hdisk & Hrep & _ & Hfresh & ->).
  pose proof (replace_in_range BUF_SIZE_pos _ _ _ _ _ Hwf Hrep) as Hlt.
  state_fields. do 3 (split; [done|]). split; [apply lookup_insert_eq|].
  split; [rewrite list_lookup_total_insert_eq;
          [done|by rewrite (wf_length s Hwf)]|].
  split; [|split; [|done]].
  - intros i Hi. by rewrite list_lookup_total_insert_ne.
  - intros q g Hq. destruct (decide (q = pid)) as [->|Hne]; [by left|right].
    rewrite lookup_insert_ne in Hq by done. unfold evicted in Hq.
    destruct (valid _); [|done].
    rewrite lookup_delete in Hq. by case_decide.
Qed.

End Preservation.

(** ** removeFile without pinned pages *)

Section RemoveFile.
Context `{Params} {D : Type} `{DiskManager D}.
Implicit Types (s t : BufferManager D) (p q : PageId) (f : FrameId) (fr : Frame).

Lemma removeFile_loop_ok fid idxs : forall s,
  NoDup idxs ->
  (forall i, i ∈ idxs -> targets fid (frame_table s !!! i) = true ->
     pin_count (frame_table s !!! i) <= 0 /\
     buf_map s !! page_id (frame_table s !!! i) = Some i) ->
  exists s', removeFile_loop fid idxs s = (Ok tt, s') /\
    (forall j, frame_table s' !!! j =
       if bool_decide (j ∈ idxs) && targets fid (frame_table s !!! j)
       then invalidate (frame_table s !!! j) else frame_table s !!! j) /\
    (forall q, buf_map s' !! q = None \/ buf_map s' !! q = buf_map s !! q) /\
    (forall i, i ∈ idxs -> targets fid (frame_table s !!! i) = true ->
       buf_map s' !! page_id (frame_table s !!! i) = None) /\
    (forall q, (forall i, i ∈ idxs -> targets fid (frame_table s !!! i) = true ->
                  page_id (frame_table s !!! i) <> q) ->
       buf_map s' !! q = buf_map s !! q) /\
    free (pol_base (replacement_pol s')) =
      free (pol_base (replacement_pol s)) ++
      filter (fun i => targets fid (frame_table s !!! i) = true) idxs /\
    disk_mgr s' = disk_mgr s /\ disk_calls s' = disk_calls s /\
    buf_pool s' = buf_pool s.
Proof.
  induction idxs as [|i rest IH]; intros s Hnd Hok.
  - exists s. cbn. rewrite app_nil_r. split; [done|]. split; [done|].
    split; [by right|]. split; [by intros ? ?%elem_of_nil|]. done.
  - apply NoDup_cons in Hnd as [Hi Hnd].
    rewrite removeFile_loop_cons. cbn zeta. rewrite filter_cons.
    assert (Hcons : forall j, j <> i ->
              bool_decide (j ∈ i :: rest) = bool_decide (j ∈ rest)).
    { intros j Hj. apply bool_decide_ext. rewrite elem_of_cons. tauto. }
    destruct (targets fid (frame_table s !!! i)) eqn:Ht.
    + destruct (Hok i ltac:(by left) Ht) as [Hpin Hmap].
      apply Z.ltb_ge in Hpin. rewrite Hpin, Hmap.
      rewrite decide_True by done.
      pose proof (targets_in_range fid i s Ht) as Hlt.
      assert (Hft : forall j, j <> i ->
                frame_table (dropped i s) !!! j = frame_table s !!! j).
      { intros j Hj. cbn. by rewrite list_lookup_total_insert_ne. }
      assert (Hrest : forall j, j ∈ rest -> j <> i) by (by intros j Hj ->).
      destruct (IH (dropped i s) Hnd) as (s' & Hrun & Hfr & Hsub & Hgone & Hkeep
                                          & Hfree & Hd & Hc & Hbp).
      { intros j Hj Htj. rewrite (Hft j (Hrest j Hj)) in Htj |- *.
        destruct (Hok j ltac:(by right) Htj) as [Hpj Hmj]. split; [done|].
        cbn. rewrite lookup_delete_ne; [done|]. intros Heq.
        rewrite Heq in Hmap. specialize (Hrest j Hj). congruence. }
      exists s'. split; [done|]. split; [|split; [|split; [|split; [|split]]]].
      * intros j. rewrite (Hfr j). destruct (decide (j = i)) as [->|Hne].
        -- rewrite (bool_decide_false (i ∈ rest)) by done.
           rewrite bool_decide_true by (by left). cbn [andb]. rewrite Ht.
           cbn. by rewrite list_lookup_total_insert_eq.
        -- by rewrite (Hcons j Hne), (Hft j Hne).
      * intros q. destruct (Hsub q) as [Hn|He]; [by left|].
        rewrite He. cbn. rewrite lookup_delete. case_decide; [by left|by right].
      * intros j Hj Htj. apply elem_of_cons in Hj as [->|Hj].
        -- destruct (Hsub (page_id (frame_table s !!! i))) as [Hn|He]; [done|].
           rewrite He. cbn. apply lookup_delete_eq.
        -- specialize (Hgone j Hj). rewrite (Hft j (Hrest j Hj)) in Hgone.
           by apply Hgone.
      * intros q Hq. rewrite Hkeep.
        -- cbn. apply lookup_delete_ne. apply Hq; [by left|done].
        -- intros j Hj Htj. rewrite (Hft j (Hrest j Hj)) in Htj |- *.
           apply Hq; [by right|done].
      * rewrite Hfree. cbn [dropped replacement_pol set_replacement_pol].
        rewrite free_freeFrame, <- app_assoc. cbn [app]. do 2 f_equal.
        apply filter_ext_in, Forall_forall. intros j Hj.
        by rewrite (Hft j (Hrest j Hj)).
      * done.
    + rewrite decide_False by done.
      destruct (IH s Hnd) as (s' & Hrun & Hfr & Hsub & Hgone & Hkeep
                              & Hrestf).
      { intros j Hj. apply Hok. by right. }
      exists s'. split; [done|]. split; [|split; [done|split; [|split]]].
      * intros j. rewrite (Hfr j). destruct (decide (j = i)) as [->|Hne].
        -- rewrite (bool_decide_false (i ∈ rest)) by done.
           by rewrite Ht, !andb_false_r.
        -- by rewrite (Hcons j Hne).
      * intros j Hj Htj. apply elem_of_cons in Hj as [->|Hj]; [congruence|].
        by apply Hgone.
      * intros q Hq. apply Hkeep. intros j Hj. apply Hq. by right.
      * done.
Qed.

End RemoveFile.

Section RemoveFileReachable.
Context `{Params} {D : Type} `{DiskManager D}.
Hypothesis BUF_SIZE_pos : (0 < BUF_SIZE)%nat.
Implicit Types (s t : BufferManager D) (p q : PageId) (f : FrameId) (fr : Frame).

(** X26.  [removeFile] when no page of the file is pinned.  From a
    reachable state in which every valid frame is found in the map under its
    page, with a disk that accepts the removal, the call returns: exactly
    the valid frames of the file are invalidated, the map has lost exactly
    the pages of the file, those frames joined the free list in index order,
    and the one disk call is [removeFile], made after the pool was
    cleaned. *)
Theorem removeFile_unpinned fid s d' :
  reachable s -> M2 s ->
  (forall i, targets fid (frame_table s !!! i) = true ->
     pin_count (frame_table s !!! i) = 0) ->
  disk_removeFile fid (disk_mgr s) = (inr tt, d') ->
  exists s', removeFile fid s = (Ok tt, s') /\
    (forall i, frame_table s' !!! i =
       if targets fid (frame_table s !!! i)
       then invalidate (frame_table s !!! i) else frame_table s !!! i) /\
    (forall q, buf_map s' !! q =
       if (file_id q =? fid)%N then None else buf_map s !! q) /\
    free (pol_base (replacement_pol s')) =
      free (pol_base (replacement_pol s)) ++
      filter (fun i => targets fid (frame_table s !!! i) = true) (seq 0 BUF_SIZE) /\
    disk_calls s' = disk_calls s ++ [CallRemoveFile fid] /\ disk_mgr s' = d' /\
    buf_pool s' = buf_pool s.
Proof.
  intros Hreach HM2 Hpins Hdisk.
  pose proof (reachable_wf BUF_SIZE_pos s Hreach) as Hwf.
  destruct (removeFile_loop_ok fid (seq 0 BUF_SIZE) s (NoDup_seq 0 BUF_SIZE))
    as (s1 & Hrun & Hfr & Hsub & Hgone & Hkeep & Hfree & Hd & Hc & Hbp).
  { intros i _ Ht. split; [by rewrite (Hpins i Ht)|].
    pose proof (targets_in_range fid i s Ht) as Hlt.
    apply andb_true_iff in Ht as [Hv _].
    apply HM2; [by apply list_lookup_lookup_total_lt|done]. }
  eexists. split.
  { unfold removeFile, bind. rewrite Hrun. unfold call_disk.
    rewrite Hd, Hdisk. reflexivity. }
  state_fields. split; [|split; [|split; [done|split; [by rewrite Hc|done]]]].
  - intros i. rewrite (Hfr i).
    destruct (targets fid (frame_table s !!! i)) eqn:Ht;
      [|by rewrite andb_false_r].
    pose proof (targets_in_range fid i s Ht) as Hlt.
    rewrite (wf_length s Hwf) in Hlt.
    by rewrite bool_decide_true by (apply elem_of_seq; lia).
  - intros q. destruct (file_id q =? fid)%N eqn:Hfile.
    + destruct (buf_map s !! q) as [f|] eqn:Hq.
      * destruct (wf_map_total s q f Hwf Hq) as (Hlt & Hv & Hpid).
        rewrite <- Hpid. apply Hgone; [apply elem_of_seq; lia|].
        unfold targets. by rewrite Hv, Hpid, Hfile.
      * destruct (Hsub q) as [Hn|He]; congruence.
    + apply Hkeep. intros i _ Ht Heq.
      apply andb_true_iff in Ht as [_ Hf]. rewrite Heq in Hf. congruence.
Qed.

End RemoveFileReachable.

(** ** The destructor *)

Section TeardownFacts.
Context `{Params} {D : Type} `{DiskManager D}.
Implicit Types (s : BufferManager D) (p q : PageId) (f : FrameId) (fr : Frame).

Lemma unsaved_in_range s i : unsaved s i = true -> (i < length (frame_table s))%nat.
Proof.
  intros Hu. destruct (decide (i < length (frame_table s))%nat); [done|].
  unfold unsaved in Hu.
  rewrite list_lookup_total_alt, lookup_ge_None_2 in Hu by lia. done.
Qed.

Lemma destructor_loop_cons i rest s :
  destructor_loop (i :: rest) s =
    if unsaved s i then
      match disk_writePage (page_id (frame_table s !!! i)) (buf_pool s !!! i)
              (disk_mgr s) with
      | (inl e, d') => (Throw (DiskMgrExn e), set_disk d' (write_back s i) s)
      | (inr _, d') =>
        destructor_loop rest
          (set_frame_table
             (<[i := set_dirty false (frame_table s !!! i)]> (frame_table s))
             (set_disk d' (write_back s i) s))
      end
    else destructor_loop rest s.
Proof.
  cbn [destructor_loop]. unfold bind at 1, get_frame at 1. unfold unsaved.
  destruct (valid (frame_table s !!! i) && dirty (frame_table s !!! i));
    cbn [when]; [|done].
  unfold bind at 1. unfold bind at 1, disk_write_from at 1, bind at 1,
    get_slot at 1, call_disk at 1.
  unfold write_back.
  destruct (disk_writePage _ _ (disk_mgr s)) as [[e|[]] d']; done.
Qed.

Lemma destructor_loop_ok idxs : forall s s',
  NoDup idxs ->
  destructor_loop idxs s = (Ok tt, s') ->
  disk_calls s' = disk_calls s ++ map (write_back s) (filter (fun i => unsaved s i = true) idxs) /\
  (forall j, frame_table s' !!! j =
     if bool_decide (j ∈ idxs) && unsaved s j
     then set_dirty false (frame_table s !!! j) else frame_table s !!! j) /\
  length (frame_table s') = length (frame_table s) /\
  buf_pool s' = buf_pool s /\ buf_map s' = buf_map s /\
  replacement_pol s' = replacement_pol s /\ rand s' = rand s.
Proof.
  induction idxs as [|i rest IH]; intros s s' Hnd Hrun.
  - cbn in Hrun. unfold ret in Hrun. simplify_eq. cbn.
    rewrite app_nil_r. done.
  - apply NoDup_cons in Hnd as [Hi Hnd].
    rewrite destructor_loop_cons in Hrun.
    rewrite filter_cons.
    destruct (unsaved s i) eqn:Hu.
    + destruct (disk_writePage _ _ (disk_mgr s)) as [[e|[]] d'] eqn:Hw;
        [done|].
      pose proof (unsaved_in_range s i Hu) as Hlt.
      apply IH in Hrun as (Hc & Hft & Hlen & Hbp & Hm & Hpol & Hr); [|done].
      revert Hc Hft Hlen Hbp Hm Hpol Hr.
      set (s1 := set_frame_table _ _).
      intros Hc Hft Hlen Hbp Hm Hpol Hr.
      assert (Hsame : forall j, j ∈ rest -> unsaved s1 j = unsaved s j /\
                                write_back s1 j = write_back s j).
      { intros j Hj. assert (i <> j) by (intros ->; done).
        unfold unsaved, write_back, s1. cbn.
        by rewrite list_lookup_total_insert_ne. }
      rewrite decide_True by done. cbn [map].
      split; [|split; [|split]].
      * rewrite Hc. unfold s1 at 1. cbn. rewrite <- app_assoc. cbn.
        do 2 f_equal.
        assert (Hf : filter (fun i0 => unsaved s1 i0 = true) rest
                   = filter (fun i0 => unsaved s i0 = true) rest).
        { apply filter_ext_in. apply Forall_forall. intros j Hj.
          by destruct (Hsame j Hj) as [-> _]. }
        rewrite Hf. apply map_ext_in. intros j Hj.
        apply list_elem_of_In, list_elem_of_filter in Hj as [_ Hj].
        by destruct (Hsame j Hj).
      * intros j. rewrite (Hft j).
        destruct (decide (j = i)) as [->|Hne].
        -- rewrite (bool_decide_false (i ∈ rest)) by done.
           rewrite bool_decide_true by (by left). cbn [andb].
           rewrite Hu. unfold s1. cbn.
           by rewrite list_lookup_total_insert_eq.
        -- assert (Hin : bool_decide (j ∈ i :: rest) = bool_decide (j ∈ rest)).
           { apply bool_decide_ext. rewrite elem_of_cons. tauto. }
           rewrite Hin.
           assert (Hfj : frame_table s1 !!! j = frame_table s !!! j).
           { unfold s1. cbn. by rewrite list_lookup_total_insert_ne. }
           unfold unsaved at 1. rewrite !Hfj. done.
      * rewrite Hlen. unfold s1. cbn. by rewrite length_insert.
      * done.
    + apply IH in Hrun as (Hc & Hft & Hlen & Hrest); [|done].
      rewrite decide_False by done.
      split; [done|]. split; [|done].
      intros j. rewrite (Hft j).
      destruct (decide (j = i)) as [->|Hne].
      * rewrite (bool_decide_false (i ∈ rest)) by done. rewrite Hu.
        by rewrite !andb_false_r.
      * assert (Hin : bool_decide (j ∈ i :: rest) = bool_decide (j ∈ rest)).
        { apply bool_decide_ext. rewrite elem_of_cons. tauto. }
        by rewrite Hin.
Qed.

Lemma destructor_loop_throw idxs : forall s e s',
  NoDup idxs ->
  destructor_loop idxs s = (Throw e, s') ->
  exists pre k post de, idxs = pre ++ k :: post /\
    unsaved s k = true /\ e = DiskMgrExn de /\
    disk_calls s' = disk_calls s ++
      map (write_back s) (filter (fun i => unsaved s i = true) (pre ++ [k])) /\
    forall j, frame_table s' !!! j =
      if bool_decide (j ∈ pre) && unsaved s j
      then set_dirty false (frame_table s !!! j) else frame_table s !!! j.
Proof.
  induction idxs as [|i rest IH]; intros s e s' Hnd Hrun.
  - cbn in Hrun. unfold ret in Hrun. simplify_eq.
  - apply NoDup_cons in Hnd as [Hi Hnd].
    rewrite destructor_loop_cons in Hrun.
    destruct (unsaved s i) eqn:Hu.
    + destruct (disk_writePage _ _ (disk_mgr s)) as [[de|[]] d'] eqn:Hw.
      * simplify_eq. exists [], i, rest, de. cbn [app].
        split; [done|]. split; [done|]. split; [done|]. split.
        -- rewrite filter_cons, decide_True by done.
           by rewrite filter_nil.
        -- intros j. by rewrite (bool_decide_false (j ∈ [])) by apply not_elem_of_nil.
      * pose proof (unsaved_in_range s i Hu) as Hlt.
        apply IH in Hrun as (pre & k & post & de & -> & Hk & -> & Hc & Hft);
          [|done].
        revert Hk Hc Hft. set (s1 := set_frame_table _ _). intros Hk Hc Hft.
        assert (Hsame : forall j, j <> i -> unsaved s1 j = unsaved s j /\
                                  write_back s1 j = write_back s j /\
                                  frame_table s1 !!! j = frame_table s !!! j).
        { intros j Hj. unfold unsaved, write_back, s1. cbn.
          by rewrite list_lookup_total_insert_ne. }
        assert (Hik : k <> i).
        { intros ->. apply Hi, elem_of_app. right. by left. }
        assert (Hpre : forall j, j ∈ pre ++ [k] -> j <> i).
        { intros j Hj ->. apply Hi. apply elem_of_app in Hj as [Hj|Hj].
          - apply elem_of_app. by left.
          - apply list_elem_of_singleton in Hj as ->. done. }
        exists (i :: pre), k, post, de.
        split; [done|]. split; [by destruct (Hsame k Hik) as [<- _]|].
        split; [done|]. split.
        -- rewrite Hc. unfold s1 at 1. cbn [disk_calls set_frame_table set_disk].
           rewrite <- app_assoc. f_equal. cbn [app].
           rewrite filter_cons, decide_True by done. cbn [map]. f_equal.
           assert (Hf : filter (fun i0 => unsaved s1 i0 = true) (pre ++ [k])
                      = filter (fun i0 => unsaved s i0 = true) (pre ++ [k])).
           { apply filter_ext_in. apply Forall_forall. intros j Hj.
             by destruct (Hsame j (Hpre j Hj)) as [-> _]. }
           rewrite Hf. apply map_ext_in. intros j Hj.
           apply list_elem_of_In, list_elem_of_filter in Hj as [_ Hj].
           by destruct (Hsame j (Hpre j Hj)) as (_ & ? & _).
        -- intros j. rewrite (Hft j).
           destruct (decide (j = i)) as [->|Hne].
           ++ rewrite (bool_decide_false (i ∈ pre)).
              ** rewrite bool_decide_true by (by left). cbn [andb].
                 rewrite Hu. unfold s1. cbn.
                 by rewrite list_lookup_total_insert_eq.
              ** intros Hin. apply Hi, elem_of_app. by left.
           ++ assert (Hin : bool_decide (j ∈ i :: pre) = bool_decide (j ∈ pre)).
              { apply bool_decide_ext. rewrite elem_of_cons. tauto. }
              rewrite Hin. destruct (Hsame j Hne) as (-> & _ & ->). done.
    + apply IH in Hrun as (pre & k & post & de & -> & Hk & -> & Hc & Hft);
        [|done].
      exists (i :: pre), k, post, de.
      split; [done|]. split; [done|]. split; [done|]. split.
      * rewrite Hc. cbn [app]. by rewrite filter_cons, decide_False by congruence.
      * intros j. rewrite (Hft j).
        destruct (decide (j = i)) as [->|Hne].
        -- rewrite (bool_decide_false (i ∈ pre)).
           ++ rewrite Hu. by rewrite !andb_false_r.
           ++ intros Hin. apply Hi, elem_of_app. by left.
        -- assert (Hin : bool_decide (j ∈ i :: pre) = bool_decide (j ∈ pre)).
           { apply bool_decide_ext. rewrite elem_of_cons. tauto. }
           by rewrite Hin.
Qed.

(** X27.  The destructor writes back every valid dirty page.  When it
    completes, the disk calls it made are the writes of the valid dirty
    frames, in index order, each with the page of the frame and the bytes of
    its slot; afterwards no valid frame is dirty, and page identifiers, pin
    counts, validity, slots, map and policy are as before. *)
Theorem BufferManager_destructor_flushes s s' :
  BufferManager_destructor s = (Ok tt, s') ->
  disk_calls s' = disk_calls s ++
    map (write_back s) (filter (fun i => unsaved s i = true) (seq 0 BUF_SIZE)) /\
  (forall i, (i < BUF_SIZE)%nat -> unsaved s' i = false) /\
  (forall i, page_id (frame_table s' !!! i) = page_id (frame_table s !!! i) /\
             pin_count (frame_table s' !!! i) = pin_count (frame_table s !!! i) /\
             valid (frame_table s' !!! i) = valid (frame_table s !!! i)) /\
  buf_pool s' = buf_pool s /\ buf_map s' = buf_map s /\
  replacement_pol s' = replacement_pol s.
Proof.
  intros Hrun. unfold BufferManager_destructor in Hrun.
  apply destructor_loop_ok in Hrun as (Hc & Hft & _ & Hbp & Hm & Hpol & _);
    [|apply NoDup_seq].
  split; [done|]. split; [|split; [|done]].
  - intros i Hi. unfold unsaved at 1. rewrite (Hft i).
    rewrite bool_decide_true by (apply elem_of_seq; lia). cbn [andb].
    destruct (unsaved s i) eqn:Hu; [cbn; apply andb_false_r|done].
  - intros i. rewrite (Hft i).
    by destruct (bool_decide (i ∈ seq 0 BUF_SIZE) && unsaved s i).
Qed.

(** X28.  A failing write stops the destructor.  When a [writePage]
    throws, the exception leaves the destructor; the frames before the
    failing one were written in index order, and the failing frame and all
    frames after it are as before: later dirty pages are never written. *)
Theorem BufferManager_destructor_stops s e s' :
  BufferManager_destructor s = (Throw e, s') ->
  exists k de, (k < BUF_SIZE)%nat /\ unsaved s k = true /\ e = DiskMgrExn de /\
    disk_calls s' = disk_calls s ++
      map (write_back s) (filter (fun i => unsaved s i = true) (seq 0 (S k))) /\
    forall i, (k <= i)%nat -> frame_table s' !!! i = frame_table s !!! i.
Proof.
  intros Hrun. unfold BufferManager_destructor in Hrun.
  apply destructor_loop_throw in Hrun
    as (pre & k & post & de & Hsplit & Hk & -> & Hc & Hft); [|apply NoDup_seq].
  pose proof (seq_split_at _ _ _ _ Hsplit) as [Hlt Hpre].
  exists k, de. split; [done|]. split; [done|]. split; [done|]. split.
  - rewrite Hc. do 3 f_equal.
    assert (Hp : pre = seq 0 k).
    { assert (Hl : length pre = k).
      { assert (Hl : seq 0 BUF_SIZE !! length pre = Some k)
          by (rewrite Hsplit; apply list_lookup_middle; done).
        apply lookup_seq in Hl. lia. }
      assert (Ht : take k (seq 0 BUF_SIZE) = pre)
        by (rewrite Hsplit, <- Hl; apply take_app_length).
      rewrite <- Ht, take_seq. f_equal. lia. }
    rewrite Hp. by rewrite seq_S.
  - intros i Hi. rewrite (Hft i).
    rewrite bool_decide_false; [done|]. rewrite Hpre. lia.
Qed.

End TeardownFacts.

(** ** The reference bits, CLOCK in reachable states, and the counter *)

Section RefBits.
Context `{Params} {D : Type} `{DiskManager D}.
Implicit Types (s t : BufferManager D) (p q : PageId) (f : FrameId) (fr : Frame).

Lemma keeps_ret {A} (a : A) : keeps_shape (ret (D := D) a).
Proof. by intros s Hs. Qed.

Lemma keeps_throw {A} e : keeps_shape (throw (D := D) (A := A) e).
Proof. by intros s Hs. Qed.

Lemma keeps_bind {A B} (m : M (D := D) A) (k : A -> M (D := D) B) :
  keeps_shape m -> (forall a, keeps_shape (k a)) -> keeps_shape (bind m k).
Proof.
  intros Hm Hk s Hs. unfold bind. specialize (Hm s Hs).
  destruct (m s) as [[a|e|] s1]; cbn in *; [|done|done].
  by apply Hk.
Qed.

Lemma keeps_modify (g : BufferManager D -> BufferManager D) :
  (forall s, replacement_pol (g s) = replacement_pol s) ->
  keeps_shape (modify g).
Proof. intros Hg s Hs. cbn. by rewrite Hg. Qed.

Lemma keeps_when b (m : M (D := D) unit) : keeps_shape m -> keeps_shape (when b m).
Proof. destruct b; [done|by intros s Hs]. Qed.

Lemma keeps_try_catch {A} (m : M (D := D) A) handler :
  keeps_shape m -> (forall e, keeps_shape (handler e)) ->
  keeps_shape (try_catch m handler).
Proof.
  intros Hm Hh s Hs. unfold try_catch. specialize (Hm s Hs).
  destruct (m s) as [[a|e|] s1]; cbn in *; [done| |done].
  by apply Hh.
Qed.

Lemma keeps_call_disk {A} c (op : D -> (DiskExn + A) * D) :
  keeps_shape (call_disk c op).
Proof.
  intros s Hs. unfold call_disk. by destruct (op (disk_mgr s)) as [[]].
Qed.

Lemma keeps_BufferMap_get p : keeps_shape (BufferMap_get (D := D) p).
Proof. intros s Hs. unfold BufferMap_get. by destruct (buf_map s !! p). Qed.

Lemma keeps_BufferMap_insert p f : keeps_shape (BufferMap_insert (D := D) p f).
Proof.
  apply keeps_bind; [by intros s Hs|].
  intros []; [apply keeps_throw|by apply keeps_modify].
Qed.

Lemma keeps_BufferMap_remove p : keeps_shape (BufferMap_remove (D := D) p).
Proof.
  apply keeps_bind; [by intros s Hs|].
  intros []; [by apply keeps_modify|apply keeps_throw].
Qed.

Lemma Clock_replace_loop_length fuel ft c fc :
  length (ref_table (Clock_replace_loop fuel ft c fc).2) = length (ref_table c).
Proof.
  revert c fc. induction fuel as [|fuel IH]; intros c fc; [done|].
  cbn [Clock_replace_loop]. cbn zeta.
  destruct (0 <? pin_count (ft !!! clock_hand c)); [by rewrite IH|].
  destruct (valid (ft !!! clock_hand c)).
  - destruct (ref_table c !!! clock_hand c : bool); [|done].
    destruct (Z.of_nat BUF_SIZE <=? fc); cbn; [by rewrite length_insert|].
    rewrite IH. cbn. by rewrite length_insert.
  - destruct (Z.of_nat BUF_SIZE <=? fc); [done|by rewrite IH].
Qed.

Lemma replace_shaped fuel ft rnd pol :
  shaped pol -> shaped (replace fuel ft rnd pol).1.2.
Proof.
  intros Hs. destruct pol as [c|r]; cbn [replace].
  - unfold Clock_replace. destruct (free (c_base c)).
    + pose proof (Clock_replace_loop_length fuel ft c 0) as Hlen.
      destruct (Clock_replace_loop fuel ft c 0) as [res c1]. cbn in *.
      intros ? [= <-]. rewrite Hlen. by apply Hs.
    + cbn. intros ? [= <-]. cbn. by apply Hs.
  - destruct (Random_replace fuel ft rnd r) as [[res r'] rnd']. by intros ? ?.
Qed.

Lemma keeps_pol_replace fuel : keeps_shape (pol_replace (D := D) fuel).
Proof.
  intros s Hs. unfold pol_replace.
  pose proof (replace_shaped fuel (frame_table s) (rand s) _ Hs) as Hn.
  by destruct (replace _ _ _ _) as [[res pol'] rnd'].
Qed.

Lemma keeps_pol_update g :
  (forall pol, shaped pol -> shaped (g pol)) -> keeps_shape (pol_update (D := D) g).
Proof. intros Hg s Hs. cbn. by apply Hg. Qed.

Lemma pin_shaped f pol : shaped pol -> shaped (pin f pol).
Proof. by destruct pol. Qed.

Lemma unpin_shaped f pol : shaped pol -> shaped (unpin f pol).
Proof.
  destruct pol as [c|r]; [|done]. intros Hs ? [= <-]. cbn.
  rewrite length_insert. by apply Hs.
Qed.

Lemma freeFrame_shaped f pol : shaped pol -> shaped (freeFrame f pol).
Proof.
  destruct pol as [c|r]; [|by intros ? ? ?]. intros Hs ? [= <-]. cbn.
  rewrite length_insert. by apply Hs.
Qed.

Ltac keeps_step :=
  first
    [ apply keeps_bind; [|intros ?]
    | apply keeps_ret
    | apply keeps_throw
    | apply keeps_when
    | apply keeps_try_catch; [|intros ?]
    | apply keeps_call_disk
    | apply keeps_BufferMap_get
    | apply keeps_BufferMap_insert
    | apply keeps_BufferMap_remove
    | apply keeps_pol_replace
    | apply keeps_pol_update;
        first [apply pin_shaped|apply unpin_shaped|apply freeFrame_shaped]
    | apply keeps_modify; done
    | assumption
    | by intros ? ?
    | match goal with
      | |- keeps_shape (if ?b then _ else _) => destruct b
      | |- keeps_shape (match ?e with _ => _ end) => destruct e
      end ].

Lemma removeFile_loop_keeps fid idxs :
  keeps_shape (removeFile_loop (D := D) fid idxs).
Proof. induction idxs as [|i rest IH]; cbn [removeFile_loop]; repeat keeps_step. Qed.

Lemma run_call_keeps fuel c : keeps_shape (run_call (D := D) fuel c).
Proof.
  destruct c; cbn [run_call];
    unfold allocatePage, _allocateFrame, getPage, releasePage, setDirty,
      flushPage, deallocatePage, createFile, removeFile, disk_read_into,
      disk_write_from, getBufferState, get_frame, get_slot, modify_frame,
      BufferMap_contains;
    repeat keeps_step; apply removeFile_loop_keeps.
Qed.

Lemma reachable_shaped s : reachable s -> shaped (replacement_pol s).
Proof.
  induction 1 as [disk rt rnd junk s Hnew | s fuel c r s' _ IH Hrun Hr | s i data _ IH].
  - destruct rt; cbn in Hnew; simplify_eq; cbn.
    + intros ? [= <-]. cbn. apply length_replicate.
    + by intros ? ?.
  - pose proof (run_call_keeps fuel c s IH) as Hk. by rewrite Hrun in Hk.
  - done.
Qed.

End RefBits.

Section ClockLiveness.
Context `{Params} {D : Type} `{DiskManager D}.
Hypothesis BUF_SIZE_pos : (0 < BUF_SIZE)%nat.
Implicit Types (s t : BufferManager D) (p q : PageId) (f : FrameId) (fr : Frame).

(** X29.  CLOCK finds a frame in every reachable state that lost none.
    Under CLOCK, in a state reached by a run in which no pin count, an
    [int], went past INT_MAX, with an unpinned frame and with every invalid
    frame in the free list, [2 * BUF_SIZE] iterations are enough for the
    policy to return; the frame is in the table and unpinned, it is an
    invalid frame exactly when the free list was not empty, and the frame
    table and the map are untouched. *)
Theorem Clock_pol_replace_returns fuel s c u :
  reachable_int s -> replacement_pol s = ClockPol c ->
  (u < BUF_SIZE)%nat -> pin_count (frame_table s !!! u) = 0 ->
  (forall i, (i < BUF_SIZE)%nat -> valid (frame_table s !!! i) = false ->
     i ∈ free (c_base c)) ->
  (2 * BUF_SIZE <= fuel)%nat ->
  exists f s', pol_replace fuel s = (Ok f, s') /\
    (f < BUF_SIZE)%nat /\ pin_count (frame_table s !!! f) = 0 /\
    (valid (frame_table s !!! f) = false <-> free (c_base c) <> []) /\
    frame_table s' = frame_table s /\ buf_map s' = buf_map s.
Proof.
  intros Hint Hpol Hu Hup Hfull Hfuel.
  pose proof (reachable_int_reachable s Hint) as Hreach.
  pose proof (reachable_wf BUF_SIZE_pos s Hreach) as Hwf.
  pose proof (reachable_shaped s Hreach c Hpol) as Hlen.
  pose proof (wf_hand s Hwf c Hpol) as Hhand.
  unfold pol_replace. rewrite Hpol. cbn [replace]. unfold Clock_replace.
  destruct (free (c_base c)) as [|g rest] eqn:Hfree.
  - assert (Hvalid : forall i, (i < BUF_SIZE)%nat ->
              pin_count (frame_table s !!! i) <= 0 ->
              valid (frame_table s !!! i) = true).
    { intros i Hi _. destruct (valid (frame_table s !!! i)) eqn:Hv; [done|].
      by apply Hfull, elem_of_nil in Hv. }
    destruct (pos_cover BUF_SIZE_pos (clock_hand c) u Hhand Hu) as (d & Hd & Hdu).
    destruct (Clock_replace_loop_returns BUF_SIZE_pos (frame_table s)
                (clock_hand c) d Hd ltac:(rewrite Hdu; lia) Hvalid
                (d + BUF_SIZE)%nat 0%nat c 0 fuel) as (f & c' & Hrun).
    + lia.
    + by rewrite pos_0.
    + done.
    + intros j Hj. lia.
    + lia.
    + lia.
    + rewrite Hrun. exists f. eexists. split; [reflexivity|].
      destruct (Clock_replace_loop_spec BUF_SIZE_pos _ _ _ _ _ _ Hrun Hhand)
        as (_ & _ & _ & Hres).
      destruct (Hres f eq_refl) as (Hf & Hpin & Hv).
      split; [done|]. split.
      * assert (Hf' : frame_table s !! f = Some (frame_table s !!! f)).
        { apply list_lookup_lookup_total_lt. by rewrite (wf_length s Hwf). }
        destruct (wf_frames s Hwf f _ Hf') as [Hnn _]. lia.
      * split; [|done]. rewrite Hv. split; [done|]. intros Hne. by destruct Hne.
  - exists g. eexists. split; [reflexivity|].
    destruct (wf_free_total s g Hwf) as (Hg & Hv & Hpin & _).
    { rewrite Hpol. cbn. rewrite Hfree. by left. }
    split; [done|]. split; [done|]. split; [|done]. by split.
Qed.

End ClockLiveness.

Section Counters.
Context `{Params} {D : Type} `{DiskManager D}.
Implicit Types (s t : BufferManager D).

Lemma run_calls_npc fuel cs : forall s, npc (run_calls fuel cs s) = npc s.
Proof.
  induction cs as [|c rest IH]; intros s; [done|].
  cbn [run_calls]. rewrite IH. apply run_call_steady.
Qed.

(** X30.  The statistic [new_page_calls] never counts.  After any
    sequence of calls on a freshly constructed manager, returning or
    throwing, [getRepStats] reports the value the constructor left: 0 under
    RANDOM, the indeterminate start value under CLOCK. *)
Theorem new_page_calls_never_counts (disk : D) rep_type rnd junk s0 fuel cs :
  BufferManager_new disk rep_type rnd junk = inr s0 ->
  rs_new_page_calls (getRepStats (replacement_pol (run_calls fuel cs s0)))
  = match rep_type with ClockT => junk | _ => 0 end.
Proof.
  intros Hnew.
  assert (Hstat : forall pol, rs_new_page_calls (getRepStats pol)
                              = new_page_calls (pol_base pol))
    by (by intros []).
  rewrite Hstat. fold (npc (run_calls fuel cs s0)). rewrite run_calls_npc.
  destruct rep_type; cbn in Hnew; by simplify_eq.
Qed.

End Counters.

(** ** The theorems above at concrete inputs *)

Lemma pos16 : (0 < BUF_SIZE (Params := params16))%nat.
Proof. cbn. lia. Qed.

Lemma new_on_reachable_int inv disk rep_type :
  rep_type <> OtherRepT ->
  reachable_int (H := params_with inv) (new_on (params_with inv) disk rep_type).
Proof.
  intros Hrt. apply (reachable_int_new disk rep_type rand_even 0).
  by destruct rep_type.
Qed.

(** The full pool with frame 0 released is the state of a run within
    [int]. *)
Lemma fill16_released_reachable_int :
  reachable_int (H := params16) (fill16_released ClockT 0 false).
Proof.
  unfold fill16_released, fill16.
  apply reachable_int_run_calls; [|by vm_compute].
  apply reachable_int_run_calls; [|by vm_compute].
  by apply new_on_reachable_int.
Qed.

Lemma fill16_over_disk2_reachable : reachable (H := params16) fill16_over_disk2.
Proof.
  apply reachable_run_calls; [by apply new_on_reachable|]. by vm_compute.
Qed.

Lemma two_released_reachable : reachable (H := params16) two_released.
Proof.
  apply reachable_run_calls; [by apply new_on_reachable|]. by vm_compute.
Qed.

Lemma fill16_over_disk2_M2 : M2 fill16_over_disk2.
Proof.
  intros i fr Hi Hv.
  do 16 (destruct i as [|i];
         [vm_compute in Hi; injection Hi as <-; vm_compute; reflexivity|]).
  vm_compute in Hi. discriminate.
Qed.

Lemma two_released_M2 : M2 two_released.
Proof.
  intros i fr Hi Hv.
  do 16 (destruct i as [|i];
         [vm_compute in Hi; injection Hi as <-;
          first [discriminate Hv | vm_compute; reflexivity]|]).
  vm_compute in Hi. discriminate.
Qed.


Lemma fill16_released_all_valid i :
  (i < BUF_SIZE (Params := params16))%nat ->
  valid (frame_table (fill16_released ClockT 0 false) !!! i) = false ->
  i ∈ free (c_base (clock_of (fill16_released ClockT 0 false))).
Proof.
  intros Hi Hv. exfalso.
  do 16 (destruct i as [|i]; [vm_compute in Hv; discriminate|]).
  cbn in Hi. lia.
Qed.

Lemma Clock_pol_replace_returns_witness :
  let s := fill16_released ClockT 0 false in
  reachable_int (H := params16) s /\
  exists f s', pol_replace (H := params16) 64 s = (Ok f, s') /\
    (f < BUF_SIZE (Params := params16))%nat /\
    pin_count (frame_table s !!! f) = 0 /\
    (valid (frame_table s !!! f) = false <-> free (c_base (clock_of s)) <> []) /\
    frame_table s' = frame_table s /\ buf_map s' = buf_map s.
Proof.
  cbv zeta.
  assert (Hreach : reachable_int (H := params16) (fill16_released ClockT 0 false))
    by exact fill16_released_reachable_int.
  assert (Hpol : replacement_pol (fill16_released ClockT 0 false)
                 = ClockPol (clock_of (fill16_released ClockT 0 false)))
    by (vm_compute; reflexivity).
  assert (Hu : (0 < BUF_SIZE (Params := params16))%nat) by (cbn; lia).
  assert (Hup : pin_count (frame_table (fill16_released ClockT 0 false) !!! 0%nat) = 0)
    by (vm_compute; reflexivity).
  assert (Hfuel : (2 * BUF_SIZE (Params := params16) <= 64)%nat) by (cbn; lia).
  split; [exact Hreach|].
  exact (Clock_pol_replace_returns (H := params16) pos16 64
           (fill16_released ClockT 0 false)
           (clock_of (fill16_released ClockT 0 false)) 0%nat Hreach Hpol Hu Hup
           fill16_released_all_valid Hfuel).
Defined.

Lemma getBufferState_counts_witness :
  let s := fill16_released ClockT 0 false in
  reachable (H := params16) s /\
  exists st, getBufferState (H := params16) s = (Ok st, s) /\
    getNumUnpinned (H := params16) s = (Ok (bs_unpinned st), s) /\
    bs_total st = BUF_SIZE (Params := params16) /\
    (bs_pinned st + bs_unpinned st = BUF_SIZE (Params := params16))%nat /\
    (bs_pinned st <= bs_valid st)%nat /\
    (bs_dirty st <= bs_valid st)%nat /\
    (bs_valid st <= BUF_SIZE (Params := params16))%nat /\
    replace_stats st = getRepStats (H := params16) (replacement_pol s).
Proof.
  cbv zeta.
  assert (Hreach : reachable (H := params16) (fill16_released ClockT 0 false))
    by (by apply fill16_released_reachable).
  split; [exact Hreach|].
  exact (getBufferState_counts (H := params16) pos16
           (fill16_released ClockT 0 false) Hreach).
Defined.


Lemma setDirty_flushPage_witness :
  let s := fill16 ClockT in
  let d' := (disk_writePage (pg 0) (buf_pool s !!! 0%nat) (disk_mgr s)).2 in
  let s' :=
    set_frame_table
      (<[0%nat := set_dirty false (frame_table s !!! 0%nat)]> (frame_table s))
      (set_disk d' (CallWritePage (pg 0) (buf_pool s !!! 0%nat)) s) in
  buf_map s !! pg 0 = Some 0%nat /\
  bind (setDirty (pg 0)) (fun _ => flushPage (pg 0)) s = (Ok tt, s') /\
  flushPage (pg 0) s' = (Ok tt, s').
Proof.
  cbv zeta.
  assert (Hp : buf_map (fill16 ClockT) !! pg 0 = Some 0%nat)
    by (vm_compute; reflexivity).
  assert (Hf : (0 < length (frame_table (fill16 ClockT)))%nat)
    by (vm_compute; lia).
  assert (Hw : disk_writePage (pg 0) (buf_pool (fill16 ClockT) !!! 0%nat)
                 (disk_mgr (fill16 ClockT))
               = (inr tt,
                  (disk_writePage (pg 0) (buf_pool (fill16 ClockT) !!! 0%nat)
                     (disk_mgr (fill16 ClockT))).2))
    by (vm_compute; reflexivity).
  split; [exact Hp|].
  exact (setDirty_flushPage (fill16 ClockT) (pg 0) 0%nat _ Hp Hf Hw).
Defined.

Lemma getPage_releasePage_witness :
  let s := fill16 ClockT in
  buf_map s !! pg 3 = Some 3%nat /\
  frame_table s !! 3%nat = Some (mkFrame (pg 3) 1 true false) /\
  bind (getPage (H := params16) 64 (pg 3)) (fun _ => releasePage (pg 3) false) s
    = (Ok tt, s).
Proof.
  cbv zeta.
  assert (Hp : buf_map (fill16 ClockT) !! pg 3 = Some 3%nat)
    by (vm_compute; reflexivity).
  assert (Hf : frame_table (fill16 ClockT) !! 3%nat
               = Some (mkFrame (pg 3) 1 true false)) by (vm_compute; reflexivity).
  assert (Hpin : 0 < pin_count (mkFrame (pg 3) 1 true false) < INT_MAX)
    by (vm_compute; split; reflexivity).
  split; [exact Hp|]. split; [exact Hf|].
  exact (getPage_releasePage (H := params16) (fill16 ClockT) 64 (pg 3) 3%nat
           (mkFrame (pg 3) 1 true false) Hp Hf Hpin).
Defined.

Lemma allocatePage_free_frame_witness :
  let s := new16 ClockT in
  let d' := (disk_allocatePage 1%N (disk_mgr s)).2 in
  reachable (H := params16) s /\
  free (pol_base (replacement_pol s)) = 0%nat :: seq 1 15 /\
  buf_map s !! pg 0 = None /\
  allocatePage (H := params16) 64 1%N s =
    (Ok (0%nat, pg 0),
     mkBufMgr (<[0%nat := mkFrame (pg 0) 1 true false]> (frame_table s))
       (buf_pool s) (<[pg 0 := 0%nat]> (buf_map s))
       (pol_map_base (set_free (seq 1 15)) (replacement_pol s))
       d' (disk_calls s ++ [CallAllocatePage 1%N]) (rand s)).
Proof.
  cbv zeta.
  assert (Hreach : reachable (H := params16) (new16 ClockT))
    by (by apply new_on_reachable).
  assert (Hfree : free (pol_base (replacement_pol (new16 ClockT)))
                  = 0%nat :: seq 1 15) by (vm_compute; reflexivity).
  assert (Hdisk : disk_allocatePage 1%N (disk_mgr (new16 ClockT))
                  = (inr (pg 0), (disk_allocatePage 1%N (disk_mgr (new16 ClockT))).2))
    by (vm_compute; reflexivity).
  assert (Hpid : buf_map (new16 ClockT) !! pg 0 = None)
    by (vm_compute; reflexivity).
  split; [exact Hreach|]. split; [exact Hfree|]. split; [exact Hpid|].
  exact (allocatePage_free_frame (H := params16) pos16 64 (new16 ClockT) 1%N
           0%nat (seq 1 15) (pg 0) _ Hreach Hfree Hdisk Hpid).
Defined.

Lemma allocatePage_returns_witness :
  let s := fill16_released ClockT 0 false in
  let s' := (allocatePage (H := params16) 64 1%N s).2 in
  reachable (H := params16) s /\
  allocatePage (H := params16) 64 1%N s = (Ok (0%nat, pg 16), s') /\
  (0 < BUF_SIZE (Params := params16))%nat /\
  disk_allocatePage 1%N (disk_mgr s) = (inr (pg 16), disk_mgr s') /\
  disk_calls s' = disk_calls s ++ [CallAllocatePage 1%N] /\
  buf_map s' !! pg 16 = Some 0%nat /\
  frame_table s' !!! 0%nat = mkFrame (pg 16) 1 true false /\
  (forall i, i <> 0%nat -> frame_table s' !!! i = frame_table s !!! i) /\
  (forall q g, buf_map s' !! q = Some g -> q = pg 16 \/ buf_map s !! q = Some g) /\
  buf_pool s' = buf_pool s.
Proof.
  cbv zeta.
  assert (Hreach : reachable (H := params16) (fill16_released ClockT 0 false))
    by (by apply fill16_released_reachable).
  assert (Hrun : allocatePage (H := params16) 64 1%N (fill16_released ClockT 0 false)
                 = (Ok (0%nat, pg 16),
                    (allocatePage (H := params16) 64 1%N
                       (fill16_released ClockT 0 false)).2))
    by (vm_compute; reflexivity).
  split; [exact Hreach|]. split; [exact Hrun|].
  exact (allocatePage_returns (H := params16) pos16 64 1%N
           (fill16_released ClockT 0 false) 0%nat (pg 16) _ Hreach Hrun).
Defined.

Lemma getPage_miss_free_frame_witness :
  let s := new_on params16 disk2 ClockT in
  reachable (H := params16) s /\
  free (pol_base (replacement_pol s)) = 0%nat :: seq 1 15 /\
  buf_map s !! pg 0 = None /\
  disk_readPage (pg 0) (disk_mgr s) = (inr [], disk2) /\
  getPage (H := params16) 64 (pg 0) s =
    (Ok 0%nat,
     mkBufMgr (<[0%nat := mkFrame (pg 0) 1 true false]> (frame_table s))
       (<[0%nat := []]> (buf_pool s)) (<[pg 0 := 0%nat]> (buf_map s))
       (pol_map_base (set_free (seq 1 15)) (replacement_pol s))
       disk2 (disk_calls s ++ [CallReadPage (pg 0)]) (rand s)).
Proof.
  cbv zeta.
  assert (Hreach : reachable (H := params16) (new_on params16 disk2 ClockT))
    by (by apply new_on_reachable).
  assert (Hfree : free (pol_base (replacement_pol (new_on params16 disk2 ClockT)))
                  = 0%nat :: seq 1 15) by (vm_compute; reflexivity).
  assert (Hpid : buf_map (new_on params16 disk2 ClockT) !! pg 0 = None)
    by (vm_compute; reflexivity).
  assert (Hdisk : disk_readPage (pg 0) (disk_mgr (new_on params16 disk2 ClockT))
                  = (inr [], disk2)) by (vm_compute; reflexivity).
  split; [exact Hreach|]. split; [exact Hfree|]. split; [exact Hpid|].
  split; [exact Hdisk|].
  exact (getPage_miss_free_frame (H := params16) pos16 64
           (new_on params16 disk2 ClockT) (pg 0) 0%nat (seq 1 15) [] disk2
           Hreach Hfree Hpid Hdisk).
Defined.

Lemma getPage_failed_read_loses_frame_witness :
  let s := new16 ClockT in
  let s' :=
    mkBufMgr (frame_table s) (buf_pool s) (buf_map s)
      (pol_map_base (set_free (seq 1 15)) (replacement_pol s))
      disk1 (disk_calls s ++ [CallReadPage (pg 99)]) (rand s) in
  reachable (H := params16) s /\
  free (pol_base (replacement_pol s)) = 0%nat :: seq 1 15 /\
  buf_map s !! pg 99 = None /\
  disk_readPage (pg 99) (disk_mgr s) = (inl InvalidPageNumDiskMgr, disk1) /\
  getPage (H := params16) 64 (pg 99) s =
    (Throw (match InvalidPageNumDiskMgr with
            | InvalidFileIdDiskMgr | InvalidPageNumDiskMgr =>
              InvalidPageIdBufMgr (pg 99)
            | _ => DiskMgrExn InvalidPageNumDiskMgr
            end), s') /\
  (0%nat ∉ free (pol_base (replacement_pol s'))) /\
  valid (frame_table s' !!! 0%nat) = false /\
  (forall q, buf_map s' !! q <> Some 0%nat).
Proof.
  cbv zeta.
  assert (Hreach : reachable (H := params16) (new16 ClockT))
    by (by apply new_on_reachable).
  assert (Hfree : free (pol_base (replacement_pol (new16 ClockT)))
                  = 0%nat :: seq 1 15) by (vm_compute; reflexivity).
  assert (Hpid : buf_map (new16 ClockT) !! pg 99 = None)
    by (vm_compute; reflexivity).
  assert (Hdisk : disk_readPage (pg 99) (disk_mgr (new16 ClockT))
                  = (inl InvalidPageNumDiskMgr, disk1))
    by (vm_compute; reflexivity).
  split; [exact Hreach|]. split; [exact Hfree|]. split; [exact Hpid|].
  split; [exact Hdisk|].
  exact (getPage_failed_read_loses_frame (H := params16) pos16 64
           (new16 ClockT) (pg 99) 0%nat (seq 1 15) InvalidPageNumDiskMgr disk1
           Hreach Hfree Hpid Hdisk).
Defined.

Lemma getPage_evicts_witness :
  let s := fill16_over_disk2 in
  let r := replace (H := params16) 64 (frame_table s) (rand s) (replacement_pol s) in
  let fr := frame_table s !!! 0%nat in
  let d1 := (disk_writePage (page_id fr) (buf_pool s !!! 0%nat) (disk_mgr s)).2 in
  reachable (H := params16) s /\
  buf_map s !! pg 0 = None /\
  r = (Ok 0%nat, r.1.2, r.2) /\
  fr = mkFrame (pg 1) 0 true true /\
  disk_readPage (pg 0) d1 = (inr [], d1) /\
  getPage (H := params16) 64 (pg 0) s =
    (Ok 0%nat,
     mkBufMgr (<[0%nat := mkFrame (pg 0) 1 true false]> (frame_table s))
       (<[0%nat := []]> (buf_pool s))
       (<[pg 0 := 0%nat]> (delete (page_id fr) (buf_map s)))
       r.1.2 d1
       (disk_calls s ++
        (if dirty fr
         then [CallWritePage (page_id fr) (buf_pool s !!! 0%nat)] else []) ++
        [CallReadPage (pg 0)])
       r.2).
Proof.
  cbv zeta.
  assert (Hreach : reachable (H := params16) fill16_over_disk2)
    by exact fill16_over_disk2_reachable.
  assert (Hpid : buf_map fill16_over_disk2 !! pg 0 = None) by (vm_compute; reflexivity).
  assert (Hrep : replace (H := params16) 64 (frame_table fill16_over_disk2) (rand fill16_over_disk2)
                   (replacement_pol fill16_over_disk2)
                 = (Ok 0%nat,
                    (replace (H := params16) 64 (frame_table fill16_over_disk2) (rand fill16_over_disk2)
                       (replacement_pol fill16_over_disk2)).1.2,
                    (replace (H := params16) 64 (frame_table fill16_over_disk2) (rand fill16_over_disk2)
                       (replacement_pol fill16_over_disk2)).2))
    by (vm_compute; reflexivity).
  assert (Hfr : frame_table fill16_over_disk2 !!! 0%nat = mkFrame (pg 1) 0 true true)
    by (vm_compute; reflexivity).
  assert (Hv : valid (frame_table fill16_over_disk2 !!! 0%nat) = true)
    by (vm_compute; reflexivity).
  assert (Hpin : pin_count (frame_table fill16_over_disk2 !!! 0%nat) = 0)
    by (vm_compute; reflexivity).
  assert (Hmapped : is_Some (buf_map fill16_over_disk2 !! page_id (frame_table fill16_over_disk2 !!! 0%nat)))
    by (exists 0%nat; vm_compute; reflexivity).
  assert (Hwrite :
    dirty (frame_table fill16_over_disk2 !!! 0%nat) = true ->
    disk_writePage (page_id (frame_table fill16_over_disk2 !!! 0%nat))
      (buf_pool fill16_over_disk2 !!! 0%nat) (disk_mgr fill16_over_disk2)
    = (inr tt,
       (disk_writePage (page_id (frame_table fill16_over_disk2 !!! 0%nat))
          (buf_pool fill16_over_disk2 !!! 0%nat)
          (disk_mgr fill16_over_disk2)).2))
    by (intros _; vm_compute; reflexivity).
  assert (Hclean :
    dirty (frame_table fill16_over_disk2 !!! 0%nat) = false ->
    (disk_writePage (page_id (frame_table fill16_over_disk2 !!! 0%nat))
       (buf_pool fill16_over_disk2 !!! 0%nat) (disk_mgr fill16_over_disk2)).2
    = disk_mgr fill16_over_disk2)
    by (intros Hd; vm_compute in Hd; discriminate).
  assert (Hread :
    disk_readPage (pg 0)
      (disk_writePage (page_id (frame_table fill16_over_disk2 !!! 0%nat))
         (buf_pool fill16_over_disk2 !!! 0%nat) (disk_mgr fill16_over_disk2)).2
    = (inr [],
       (disk_writePage (page_id (frame_table fill16_over_disk2 !!! 0%nat))
          (buf_pool fill16_over_disk2 !!! 0%nat) (disk_mgr fill16_over_disk2)).2))
    by (vm_compute; reflexivity).
  split; [exact Hreach|]. split; [exact Hpid|]. split; [exact Hrep|].
  split; [exact Hfr|]. split; [exact Hread|].
  exact (getPage_evicts (H := params16) pos16 64 fill16_over_disk2 (pg 0) 0%nat
           (replace (H := params16) 64 (frame_table fill16_over_disk2)
              (rand fill16_over_disk2) (replacement_pol fill16_over_disk2)).1.2
           (replace (H := params16) 64 (frame_table fill16_over_disk2)
              (rand fill16_over_disk2) (replacement_pol fill16_over_disk2)).2
           (disk_writePage (page_id (frame_table fill16_over_disk2 !!! 0%nat))
              (buf_pool fill16_over_disk2 !!! 0%nat)
              (disk_mgr fill16_over_disk2)).2
           []
           (disk_writePage (page_id (frame_table fill16_over_disk2 !!! 0%nat))
              (buf_pool fill16_over_disk2 !!! 0%nat)
              (disk_mgr fill16_over_disk2)).2
           Hreach Hpid Hrep Hv Hpin Hmapped Hwrite Hclean Hread).
Defined.

Lemma getPage_failed_write_back_witness :
  let s := file_lost in
  let r := replace (H := params16) 64 (frame_table s) (rand s) (replacement_pol s) in
  let fr := frame_table s !!! 0%nat in
  buf_map s !! pg 99 = None /\
  r = (Ok 0%nat, r.1.2, r.2) /\
  fr = mkFrame (pg 0) 0 true true /\
  getPage (H := params16) 64 (pg 99) s =
    (Throw (DiskMgrExn InvalidFileIdDiskMgr),
     mkBufMgr (frame_table s) (buf_pool s) (buf_map s) r.1.2 (disk_mgr s)
       (disk_calls s ++ [CallWritePage (page_id fr) (buf_pool s !!! 0%nat)])
       r.2).
Proof.
  cbv zeta.
  assert (Hpid : buf_map file_lost !! pg 99 = None) by (vm_compute; reflexivity).
  assert (Hrep : replace (H := params16) 64 (frame_table file_lost) (rand file_lost)
                   (replacement_pol file_lost)
                 = (Ok 0%nat,
                    (replace (H := params16) 64 (frame_table file_lost) (rand file_lost)
                       (replacement_pol file_lost)).1.2,
                    (replace (H := params16) 64 (frame_table file_lost) (rand file_lost)
                       (replacement_pol file_lost)).2))
    by (vm_compute; reflexivity).
  assert (Hfr : frame_table file_lost !!! 0%nat = mkFrame (pg 0) 0 true true)
    by (vm_compute; reflexivity).
  assert (HfB : (0 < BUF_SIZE (Params := params16))%nat) by (cbn; lia).
  assert (Hflen : (0 < length (frame_table file_lost))%nat) by (vm_compute; lia).
  assert (Hv : valid (frame_table file_lost !!! 0%nat) = true)
    by (vm_compute; reflexivity).
  assert (Hd : dirty (frame_table file_lost !!! 0%nat) = true)
    by (vm_compute; reflexivity).
  assert (Hpin : pin_count (frame_table file_lost !!! 0%nat) = 0)
    by (vm_compute; reflexivity).
  assert (Hwrite : disk_writePage (page_id (frame_table file_lost !!! 0%nat))
                     (buf_pool file_lost !!! 0%nat) (disk_mgr file_lost)
                   = (inl InvalidFileIdDiskMgr, disk_mgr file_lost))
    by (vm_compute; reflexivity).
  split; [exact Hpid|]. split; [exact Hrep|]. split; [exact Hfr|].
  exact (getPage_failed_write_back (H := params16) pos16 64 file_lost (pg 99) 0%nat
           (replace (H := params16) 64 (frame_table file_lost)
              (rand file_lost) (replacement_pol file_lost)).1.2
           (replace (H := params16) 64 (frame_table file_lost)
              (rand file_lost) (replacement_pol file_lost)).2
           InvalidFileIdDiskMgr (disk_mgr file_lost)
           Hpid Hrep HfB Hflen Hv Hd Hpin Hwrite).
Defined.

Lemma getPage_returns_witness :
  let s := fill16_released ClockT 0 false in
  let s' := (getPage (H := params16) 64 (pg 3) s).2 in
  reachable_int (H := params16) s /\
  (forall g, buf_map s !! pg 3 = Some g ->
     pin_count (frame_table s !!! g) < INT_MAX) /\
  getPage (H := params16) 64 (pg 3) s = (Ok 3%nat, s') /\
  (3 < BUF_SIZE (Params := params16))%nat /\
  buf_map s' !! pg 3 = Some 3%nat /\
  frame_table s' !!! 3%nat =
    match buf_map s !! pg 3 with
    | Some _ =>
      set_pin_count (pin_count (frame_table s !!! 3%nat) + 1)
        (frame_table s !!! 3%nat)
    | None => mkFrame (pg 3) 1 true false
    end /\
  1 <= pin_count (frame_table s' !!! 3%nat) <= INT_MAX /\
  reachable_int (H := params16) s' /\
  (forall i, i <> 3%nat -> frame_table s' !!! i = frame_table s !!! i) /\
  (forall q g, buf_map s' !! q = Some g -> q = pg 3 \/ buf_map s !! q = Some g).
Proof.
  cbv zeta.
  assert (Hbound : forall g,
            buf_map (fill16_released ClockT 0 false) !! pg 3 = Some g ->
            pin_count (frame_table (fill16_released ClockT 0 false) !!! g)
            < INT_MAX).
  { intros g Hg. vm_compute in Hg. injection Hg as <-. by vm_compute. }
  assert (Hrun : getPage (H := params16) 64 (pg 3) (fill16_released ClockT 0 false)
                 = (Ok 3%nat,
                    (getPage (H := params16) 64 (pg 3)
                       (fill16_released ClockT 0 false)).2))
    by (vm_compute; reflexivity).
  split; [exact fill16_released_reachable_int|]. split; [exact Hbound|].
  split; [exact Hrun|].
  exact (getPage_returns (H := params16) pos16 64 (pg 3)
           (fill16_released ClockT 0 false) 3%nat
           (getPage (H := params16) 64 (pg 3) (fill16_released ClockT 0 false)).2
           fill16_released_reachable_int Hbound Hrun).
Defined.

Lemma BufferManager_destructor_flushes_witness :
  let s := fill16_written in
  let s' := (BufferManager_destructor (H := params16) s).2 in
  BufferManager_destructor (H := params16) s = (Ok tt, s') /\
  disk_calls s' = disk_calls s ++
    map (write_back s)
      (filter (fun i => unsaved s i = true) (seq 0 (BUF_SIZE (Params := params16)))) /\
  (forall i, (i < BUF_SIZE (Params := params16))%nat -> unsaved s' i = false) /\
  (forall i, page_id (frame_table s' !!! i) = page_id (frame_table s !!! i) /\
             pin_count (frame_table s' !!! i) = pin_count (frame_table s !!! i) /\
             valid (frame_table s' !!! i) = valid (frame_table s !!! i)) /\
  buf_pool s' = buf_pool s /\ buf_map s' = buf_map s /\
  replacement_pol s' = replacement_pol s.
Proof.
  cbv zeta.
  assert (Hrun : BufferManager_destructor (H := params16) fill16_written
                 = (Ok tt, (BufferManager_destructor (H := params16) fill16_written).2))
    by (vm_compute; reflexivity).
  split; [exact Hrun|].
  exact (BufferManager_destructor_flushes (H := params16) fill16_written _ Hrun).
Defined.

Lemma BufferManager_destructor_stops_witness :
  let s := file_lost in
  let s' := (BufferManager_destructor (H := params16) s).2 in
  BufferManager_destructor (H := params16) s
    = (Throw (DiskMgrExn InvalidFileIdDiskMgr), s') /\
  exists k de, (k < BUF_SIZE (Params := params16))%nat /\
    unsaved s k = true /\ DiskMgrExn InvalidFileIdDiskMgr = DiskMgrExn de /\
    disk_calls s' = disk_calls s ++
      map (write_back s) (filter (fun i => unsaved s i = true) (seq 0 (S k))) /\
    forall i, (k <= i)%nat -> frame_table s' !!! i = frame_table s !!! i.
Proof.
  cbv zeta.
  assert (Hrun : BufferManager_destructor (H := params16) file_lost
                 = (Throw (DiskMgrExn InvalidFileIdDiskMgr),
                    (BufferManager_destructor (H := params16) file_lost).2))
    by (vm_compute; reflexivity).
  split; [exact Hrun|].
  exact (BufferManager_destructor_stops (H := params16) file_lost _ _ Hrun).
Defined.

Lemma two_released_unpinned i :
  targets 1%N (frame_table two_released !!! i) = true ->
  pin_count (frame_table two_released !!! i) = 0.
Proof.
  intros Ht.
  do 16 (destruct i as [|i];
         [first [vm_compute; reflexivity | vm_compute in Ht; discriminate]|]).
  vm_compute in Ht. discriminate.
Qed.

Lemma removeFile_unpinned_witness :
  let s := two_released in
  let d' := (disk_removeFile 1%N (disk_mgr s)).2 in
  reachable (H := params16) s /\ M2 s /\
  disk_removeFile 1%N (disk_mgr s) = (inr tt, d') /\
  exists s', removeFile (H := params16) 1%N s = (Ok tt, s') /\
    (forall i, frame_table s' !!! i =
       if targets 1%N (frame_table s !!! i)
       then invalidate (frame_table s !!! i) else frame_table s !!! i) /\
    (forall q, buf_map s' !! q =
       if (file_id q =? 1%N)%N then None else buf_map s !! q) /\
    free (pol_base (replacement_pol s')) =
      free (pol_base (replacement_pol s)) ++
      filter (fun i => targets 1%N (frame_table s !!! i) = true)
        (seq 0 (BUF_SIZE (Params := params16))) /\
    disk_calls s' = disk_calls s ++ [CallRemoveFile 1%N] /\ disk_mgr s' = d' /\
    buf_pool s' = buf_pool s.
Proof.
  cbv zeta.
  assert (Hdisk : disk_removeFile 1%N (disk_mgr two_released)
                  = (inr tt, (disk_removeFile 1%N (disk_mgr two_released)).2))
    by (vm_compute; reflexivity).
  split; [exact two_released_reachable|]. split; [exact two_released_M2|].
  split; [exact Hdisk|].
  exact (removeFile_unpinned (H := params16) pos16 1%N two_released _
           two_released_reachable two_released_M2 two_released_unpinned Hdisk).
Defined.

Lemma reachable_map_sound_witness :
  let s := fill16 ClockT in
  reachable (H := params16) s /\ buf_map s !! pg 3 = Some 3%nat /\
  (3 < BUF_SIZE (Params := params16))%nat /\
  valid (frame_table s !!! 3%nat) = true /\
  page_id (frame_table s !!! 3%nat) = pg 3 /\
  (3%nat ∉ free (pol_base (replacement_pol s))) /\
  forall q, buf_map s !! q = Some 3%nat -> q = pg 3.
Proof.
  cbv zeta.
  assert (Hreach : reachable (H := params16) (fill16 ClockT))
    by (by apply fill16_reachable).
  assert (Hp : buf_map (fill16 ClockT) !! pg 3 = Some 3%nat)
    by (vm_compute; reflexivity).
  split; [exact Hreach|]. split; [exact Hp|].
  exact (reachable_map_sound (H := params16) pos16 (fill16 ClockT) (pg 3) 3%nat
           Hreach Hp).
Defined.

Lemma reachable_free_list_witness :
  let s := two_deallocated params16 in
  reachable (H := params16) s /\
  free (pol_base (replacement_pol s)) = seq 2 14 ++ [0%nat; 1%nat] /\
  NoDup (free (pol_base (replacement_pol s))) /\
  forall f, f ∈ free (pol_base (replacement_pol s)) ->
    (f < BUF_SIZE (Params := params16))%nat /\
    valid (frame_table s !!! f) = false /\
    pin_count (frame_table s !!! f) = 0 /\ dirty (frame_table s !!! f) = false /\
    forall q, buf_map s !! q <> Some f.
Proof.
  cbv zeta.
  assert (Hreach : reachable (H := params16) (two_deallocated params16))
    by apply two_deallocated_reachable.
  split; [exact Hreach|]. split; [vm_compute; reflexivity|].
  exact (reachable_free_list (H := params16) pos16 (two_deallocated params16)
           Hreach).
Defined.

Lemma reachable_frame_table_witness :
  let s := fill16_released ClockT 0 false in
  reachable_int (H := params16) s /\
  length (frame_table s) = BUF_SIZE (Params := params16) /\
  (forall i, 0 <= pin_count (frame_table s !!! i) <= INT_MAX) /\
  (forall c, replacement_pol s = ClockPol c ->
     (clock_hand c < BUF_SIZE (Params := params16))%nat).
Proof.
  cbv zeta.
  split; [exact fill16_released_reachable_int|].
  exact (reachable_frame_table (H := params16) pos16
           (fill16_released ClockT 0 false) fill16_released_reachable_int).
Defined.

Lemma reachable_pool_capacity_witness :
  let s := two_deallocated params16 in
  reachable (H := params16) s /\
  (size (buf_map s) + length (free (pol_base (replacement_pol s)))
   <= BUF_SIZE (Params := params16))%nat.
Proof.
  cbv zeta.
  assert (Hreach : reachable (H := params16) (two_deallocated params16))
    by apply two_deallocated_reachable.
  split; [exact Hreach|].
  exact (reachable_pool_capacity (H := params16) pos16
           (two_deallocated params16) Hreach).
Defined.

Lemma M2_preserved_witness :
  let s := fill16_over_disk2 in
  let s' := (run_call (H := params16) 64 (GetPage (pg 0)) s).2 in
  reachable (H := params16) s /\ M2 s /\
  run_call (H := params16) 64 (GetPage (pg 0)) s = (Ok tt, s') /\
  M2 s'.
Proof.
  cbv zeta.
  assert (Hrun : run_call (H := params16) 64 (GetPage (pg 0)) fill16_over_disk2
                 = (Ok tt, (run_call (H := params16) 64 (GetPage (pg 0))
                              fill16_over_disk2).2))
    by (vm_compute; reflexivity).
  split; [exact fill16_over_disk2_reachable|].
  split; [exact fill16_over_disk2_M2|]. split; [exact Hrun|].
  exact (M2_preserved (H := params16) pos16 64 (GetPage (pg 0))
           fill16_over_disk2 (Ok tt) _ fill16_over_disk2_reachable
           fill16_over_disk2_M2 Hrun eq_refl).
Defined.

Lemma new_page_calls_never_counts_witness :
  let cs := replicate 16 (AllocatePage 1%N) ++ [GetPage (pg 3)] in
  BufferManager_new (H := params16) disk1 RandomT rand_even 7 = inr (new16 RandomT) /\
  rs_new_page_calls
    (getRepStats (H := params16)
       (replacement_pol (run_calls (H := params16) 64 cs (new16 RandomT))))
  = match RandomT with ClockT => 7 | _ => 0 end.
Proof.
  cbv zeta.
  assert (Hnew : BufferManager_new (H := params16) disk1 RandomT rand_even 7
                 = inr (new16 RandomT)) by reflexivity.
  split; [exact Hnew|].
  exact (new_page_calls_never_counts (H := params16) disk1 RandomT rand_even 7
           (new16 RandomT) 64
           (replicate 16 (AllocatePage 1%N) ++ [GetPage (pg 3)]) Hnew).
Defined.
